(** * DALI: warp dispatch engine, external source hand-off, LMDB loader

    A shallow embedding of three translation units of the repository:

    - [dali/kernels/imgproc/warp_gpu.h]: [WarpGPU::Setup] and [WarpGPU::Run];
    - [dali/pipeline/operators/util/external_source.cc]:
      [ExternalSource<CPUBackend>::RunImpl];
    - [dali/pipeline/operators/reader/loader/lmdb.h]: [CHECK_LMDB], the
      helpers of namespace [lmdb] and the methods of [LMDBLoader].

    Stateful code is written in a small state-and-error monad: a computation
    takes the current state and returns either an error or a value, together
    with the state reached at that point (a C++ exception does not roll back
    what was written before it was thrown).  A call that ends the process is
    an error of the monad too; no property is stated of the state it is
    paired with.

    Part I holds the embedding, Part II the properties. *)

From Stdlib Require Import ZArith List Bool Lia Sorted PeanoNat.
From Stdlib Require String Ascii DecimalString.
From Stdlib Require Strings.Byte.
Import ListNotations.
Import String.StringSyntax.
Delimit Scope string_scope with string.

Set Implicit Arguments.

(* ================================================================== *)
(** * Part I: the embedding *)
(* ================================================================== *)

(** ** Errors and the execution monad *)

Module Exec.

(** The ways a call can end without returning.  The first four are the error
    taxonomy of the specification; [EnforceFailed] is a failed
    [DALI_ENFORCE], which throws an exception carrying its message.  The last
    two are no exceptions and nothing can catch them: [Aborted] is a failed
    [assert], which calls [abort] and ends the process; [OutOfBoundsRead] is a
    read that leaves the memory the program may read, which is undefined
    behaviour and at best a fault that ends the process.  The state paired
    with either of them is seen by nobody. *)
Inductive Error : Type :=
| ArgumentCountMismatch
| ShapeMismatch
| InvalidParameterLayout
| DeviceOperationFailure (status : Z)
| EnforceFailed (msg : String.string)
| Aborted
| OutOfBoundsRead.

Definition M (S A : Type) : Type := S -> (Error + A) * S.

Definition ret {S A : Type} (a : A) : M S A := fun s => (inr a, s).

Definition bind {S A B : Type} (m : M S A) (k : A -> M S B) : M S B :=
  fun s =>
    match m s with
    | (inl e, s') => (inl e, s')
    | (inr a, s') => k a s'
    end.

Definition throw {S A : Type} (e : Error) : M S A := fun s => (inl e, s).

Definition gets {S A : Type} (f : S -> A) : M S A := fun s => (inr (f s), s).

Definition modify {S : Type} (f : S -> S) : M S unit := fun s => (inr tt, f s).

(** [DALI_ENFORCE(cond, msg)]. *)
Definition DALI_ENFORCE {S : Type} (cond : bool) (msg : String.string) : M S unit :=
  if cond then ret tt else throw (EnforceFailed msg).

(** A computation that ends the way the given outcome says. *)
Definition outcome {S A : Type} (r : Error + A) : M S A := fun s => (r, s).

(** [assert(cond)] of [<cassert>].  In a translation unit compiled with
    [NDEBUG] the macro expands to nothing and the condition is not even
    evaluated; otherwise a false condition aborts the process. *)
Definition assert_ {S : Type} (NDEBUG : bool) (cond : bool) : M S unit :=
  if NDEBUG then ret tt
  else if cond then ret tt else throw Aborted.

End Exec.

Declare Scope exec_scope.
Delimit Scope exec_scope with exec.
Notation "x <- c1 ;; c2" := (Exec.bind c1 (fun x => c2))
  (at level 61, c1 at next level, right associativity) : exec_scope.
Notation "c1 ;; c2" := (Exec.bind c1 (fun _ => c2))
  (at level 61, right associativity) : exec_scope.

Import Exec.

Open Scope Z_scope.

(** ** Tensor shapes and views ([dali/kernels]) *)

Module Shape.

(** [TensorShape<spatial_ndim>] with [spatial_ndim = 2]: height and width. *)
Record TensorShape2 : Type := mkShape2 { rows : Z; cols : Z }.

(** [TensorShape<tensor_ndim>] with [tensor_ndim = 3]: HWC layout. *)
Record TensorShape3 : Type := mkShape3 { height : Z; width : Z; channels : Z }.

(** [TensorListShape<tensor_ndim>]: one shape per sample. *)
Definition TensorListShape : Type := list TensorShape3.

Definition shape3_eqb (a b : TensorShape3) : bool :=
  (height a =? height b) && (width a =? width b) && (channels a =? channels b).

Fixpoint list_shape_eqb (a b : TensorListShape) : bool :=
  match a, b with
  | [], [] => true
  | x :: a', y :: b' => shape3_eqb x y && list_shape_eqb a' b'
  | _, _ => false
  end.

Definition spatial (s : TensorShape3) : TensorShape2 :=
  mkShape2 (height s) (width s).

Definition volume (s : TensorShape3) : Z := height s * width s * channels s.

(** A device address. *)
Definition Ptr : Type := Z.

(** One element of an [InListGPU] / [OutListGPU]: data pointer and shape. *)
Record TensorView : Type := mkView { data : Ptr; shape : TensorShape3 }.

Definition TensorListView : Type := list TensorView.

(** [list.shape] of a tensor list view. *)
Definition shapes (l : TensorListView) : TensorListShape := map shape l.

(** [InTensorGPU<MappingParams, 1>]: the flat device array of mapping
    parameter blocks. *)
Record MappingTensor : Type := mkMapping { mapping_data : Ptr; mapping_count : Z }.

End Shape.

Import Shape.

(** ** The warp engine ([warp_gpu.h] and the [WarpSetup] it delegates to) *)

Module Warp.

(** Modelled from the spec: [DALIInterpType] is declared outside the sources;
    the specification gives the closed set nearest, linear, cubic. *)
Inductive DALIInterpType : Type :=
| DALI_INTERP_NN
| DALI_INTERP_LINEAR
| DALI_INTERP_CUBIC.

(** Modelled from the spec: [warp::SampleDesc] is declared in
    [warp_setup.cuh], which is not part of the sources.  The specification
    lists, per sample: output pointer, output spatial shape, channel count and
    strides; the same for the input; the index into the mapping-parameter
    array; the interpolation mode.  The stride is the row pitch of the HWC
    layout, in elements. *)
Record SampleDesc : Type := mkSample {
  output : Ptr;
  out_size : TensorShape2;
  out_channels : Z;
  out_stride : Z;
  input : Ptr;
  in_size : TensorShape2;
  in_channels : Z;
  in_stride : Z;
  mapping_index : nat;
  interp : DALIInterpType
}.

(** Modelled from the spec: [BlockDesc] is declared outside the sources.  The
    specification lists the owning sample index, the tile origin in output
    coordinates and the tile extent. *)
Record BlockDesc : Type := mkBlock {
  sample_idx : nat;
  start_x : Z;
  start_y : Z;
  extent_x : Z;
  extent_y : Z
}.

Inductive Classification : Type := UniformSize | VariableSize.

(** CUDA's [dim3]. *)
Record dim3 : Type := mkDim3 { dim_x : Z; dim_y : Z; dim_z : Z }.

(** Modelled from the spec: the engine state [WarpSetup] (section 3 of the
    specification); the class itself lives in [warp_setup.cuh]. *)
Record WarpSetup : Type := mkSetup {
  samples : list SampleDesc;
  blocks : list BlockDesc;
  classification : Classification;
  uniform_output_size : TensorShape2;
  uniform_block_size : TensorShape2;
  grid_dim : dim3;
  block_dim : dim3
}.

(** Modelled from the spec: [KernelRequirements] is declared in
    [dali/kernels/kernel.h]; the specification describes it as the per-sample
    output shapes together with the output memory each sample needs. *)
Record KernelRequirements : Type := mkReq {
  output_shapes : TensorListShape;
  output_volumes : list Z
}.

Definition cudaStream_t : Type := Z.
Definition cudaError_t : Type := Z.
Definition cudaSuccess : cudaError_t := 0.

(** [KernelContext]: the caller's execution stream.  The scratchpad it also
    carries is stream-scoped device memory; what has been staged through it is
    part of the device state below. *)
Record KernelContext : Type := mkContext { stream : cudaStream_t }.

(** A host array handed to the scratchpad. *)
Inductive Segment : Type :=
| SampleArray (l : list SampleDesc)
| BlockArray (l : list BlockDesc).

(** A pointer into staged device memory: the position of the transfer in the
    stream's queue and the position of the array inside that transfer. *)
Definition DevPtr : Type := (nat * nat)%type.

Section Engine.

(** Template parameter [_BorderType] (plain data, passed by value). *)
Variable BorderType : Type.

(** What the host enqueues on a stream: host-to-device transfers and the two
    kernels. *)
Inductive DeviceOp : Type :=
| HostToDevice (s : cudaStream_t) (segments : list Segment)
| BatchWarpUniformSize (grid block : dim3) (s : cudaStream_t)
    (gpu_samples : DevPtr) (out_size block_size : TensorShape2)
    (mapping : Ptr) (border : BorderType)
| BatchWarpVariableSize (grid block : dim3) (s : cudaStream_t)
    (gpu_samples gpu_blocks : DevPtr) (mapping : Ptr) (border : BorderType).

(** The engine instance with the device it talks to.  [cuda_status] is what
    the successive calls of [cudaGetLastError] are going to report (once it
    is exhausted, [cudaSuccess]). *)
Record World : Type := mkWorld {
  setup : WarpSetup;
  enqueued : list DeviceOp;
  cuda_status : list cudaError_t
}.

Definition with_setup (f : WarpSetup -> WarpSetup) (w : World) : World :=
  mkWorld (f (setup w)) (enqueued w) (cuda_status w).

Definition enqueue (op : DeviceOp) (w : World) : World :=
  mkWorld (setup w) (enqueued w ++ [op]) (cuda_status w).

(** [WarpSetup::GetOutputShape] is declared in [warp_setup.cuh]; its
    derivation policy is left open by the specification, so it is a
    parameter of the development. *)
Variable GetOutputShape : TensorListShape -> list TensorShape2 -> TensorListShape.

(** The fixed maximum tile size of the block decomposer, a tunable constant
    of [warp_setup.cuh]. *)
Variables tile_w tile_h : Z.

(** *** [WarpSetup]: classifier, descriptor builder, block decomposer *)

(** Modelled from the spec: the batch is uniform iff every sample shares the
    same output spatial size and channel count.  Every sample is compared
    with the first one. *)
Definition is_uniform (out_shapes : TensorListShape) : bool :=
  match out_shapes with
  | [] => true
  | s :: rest => forallb (shape3_eqb s) rest
  end.

Definition div_ceil (a b : Z) : Z := (a + b - 1) / b.

(** Modelled from the spec: the block decomposer cuts each axis at multiples
    of the tile size; these are the origins [0, tile, 2*tile, ...] below
    [extent]. *)
Definition tile_starts (extent tile : Z) : list Z :=
  map (fun k => Z.of_nat k * tile) (seq 0 (Z.to_nat (div_ceil extent tile))).

(** Modelled from the spec: the block decomposer (section 4.4).  The output
    plane of one sample is cut into tiles of at most [tile_w] x [tile_h];
    a trailing tile keeps its true extent. *)
Definition sample_blocks (i : nat) (s : TensorShape3) : list BlockDesc :=
  flat_map
    (fun y =>
       map (fun x =>
              mkBlock i x y (Z.min tile_w (width s - x)) (Z.min tile_h (height s - y)))
           (tile_starts (width s) tile_w))
    (tile_starts (height s) tile_h).

(** Modelled from the spec: the block sequence is sample-major: all tiles of
    sample [i], then those of sample [i+1], and so on. *)
Fixpoint batch_blocks (i : nat) (out_shapes : TensorListShape) : list BlockDesc :=
  match out_shapes with
  | [] => []
  | s :: rest => sample_blocks i s ++ batch_blocks (S i) rest
  end.

(** Modelled from the spec: at Setup time a descriptor holds the output shape
    and stride; pointers, input geometry, mapping index and interpolation
    mode are filled by [PrepareSamples]. *)
Definition setup_sample (s : TensorShape3) : SampleDesc :=
  mkSample 0 (spatial s) (channels s) (width s * channels s)
           0 (mkShape2 0 0) 0 0 0%nat DALI_INTERP_NN.

Definition zero_shape2 : TensorShape2 := mkShape2 0 0.

(** Modelled from the spec: the launch planner (section 4.5).  Uniform path:
    batch size times tiles per sample; variable path: one work-group per
    block descriptor.  The work-group has the tile size. *)
Definition plan_grid (out_shapes : TensorListShape) : dim3 :=
  if is_uniform out_shapes then
    match out_shapes with
    | [] => mkDim3 0 1 1
    | s :: _ =>
        mkDim3 (Z.of_nat (length out_shapes)
                * (div_ceil (width s) tile_w * div_ceil (height s) tile_h)) 1 1
    end
  else mkDim3 (Z.of_nat (length (batch_blocks 0 out_shapes))) 1 1.

(** Modelled from the spec: the state [WarpSetup::Setup] builds from the
    output shapes; it is rebuilt on every call. *)
Definition SetupBlocks (out_shapes : TensorListShape) : WarpSetup :=
  let uniform := is_uniform out_shapes in
  mkSetup
    (map setup_sample out_shapes)
    (if uniform then [] else batch_blocks 0 out_shapes)
    (if uniform then UniformSize else VariableSize)
    (if uniform then
       match out_shapes with s :: _ => spatial s | [] => zero_shape2 end
     else zero_shape2)
    (if uniform then mkShape2 tile_h tile_w else zero_shape2)
    (plan_grid out_shapes)
    (mkDim3 tile_w tile_h 1).

(** Modelled from the spec: [WarpSetup::Setup(out_shapes)] (section 4.1)
    replaces the engine state and returns the resource requirements. *)
Definition WarpSetup_Setup (out_shapes : TensorListShape) : M World KernelRequirements :=
  (modify (with_setup (fun _ => SetupBlocks out_shapes)) ;;
   ret (mkReq out_shapes (map volume out_shapes)))%exec.

(** Modelled from the spec: [WarpSetup::ValidateOutputShape] (section 4.3)
    recomputes the output shapes for the given input shapes and requested
    sizes and demands that the caller's output shapes are identical. *)
Definition ValidateOutputShape (out_shape in_shape : TensorListShape)
    (output_sizes : list TensorShape2) : M World unit :=
  if list_shape_eqb (GetOutputShape in_shape output_sizes) out_shape
  then ret tt
  else throw ShapeMismatch.

(** Modelled from the spec: descriptor [i] receives the buffers, the input
    geometry and the mode of sample [i], and indexes mapping block [i]. *)
Fixpoint fill_samples (i : nat) (ss : list SampleDesc) (outs ins : TensorListView)
    (modes : list DALIInterpType) : list SampleDesc :=
  match ss, outs, ins, modes with
  | s :: ss', o :: outs', x :: ins', m :: modes' =>
      mkSample (data o) (out_size s) (out_channels s) (out_stride s)
               (data x) (spatial (shape x)) (channels (shape x))
               (width (shape x) * channels (shape x))
               i m
      :: fill_samples (S i) ss' outs' ins' modes'
  | _, _, _, _ => []
  end.

(** Modelled from the spec: [WarpSetup::PrepareSamples] (section 4.2) checks
    the three sequence lengths against the batch size recorded by Setup and
    then fills the descriptors. *)
Definition PrepareSamples (outs ins : TensorListView)
    (modes : list DALIInterpType) : M World unit :=
  (n <- gets (fun w => length (samples (setup w))) ;;
   if (length outs =? n)%nat && (length ins =? n)%nat && (length modes =? n)%nat
   then modify (with_setup (fun st =>
          mkSetup (fill_samples 0 (samples st) outs ins modes) (blocks st)
                  (classification st) (uniform_output_size st)
                  (uniform_block_size st) (grid_dim st) (block_dim st)))
   else throw ArgumentCountMismatch)%exec.

(** Modelled from the spec: the accessors of [WarpSetup] that [Run] calls
    read the engine state. *)
Definition IsUniformSize : M World bool :=
  gets (fun w => match classification (setup w) with
                 | UniformSize => true
                 | VariableSize => false
                 end).

Definition Samples : M World (list SampleDesc) := gets (fun w => samples (setup w)).
Definition Blocks : M World (list BlockDesc) := gets (fun w => blocks (setup w)).
Definition GridDim : M World dim3 := gets (fun w => grid_dim (setup w)).
Definition BlockDim : M World dim3 := gets (fun w => block_dim (setup w)).
Definition UniformOutputSize : M World TensorShape2 :=
  gets (fun w => uniform_output_size (setup w)).
Definition UniformBlockSize : M World TensorShape2 :=
  gets (fun w => uniform_block_size (setup w)).

(** *** Device staging and error reporting *)

(** Modelled from the spec: [Scratchpad::ToGPU] (section 4.6) enqueues one
    asynchronous copy of the host array and returns where it will live. *)
Definition ToGPU (s : cudaStream_t) (seg : Segment) : M World DevPtr :=
  fun w => (inr (length (enqueued w), 0%nat), enqueue (HostToDevice s [seg]) w).

(** Modelled from the spec: [Scratchpad::ToContiguousGPU] packs both arrays
    into one contiguous transfer. *)
Definition ToContiguousGPU (s : cudaStream_t) (seg1 seg2 : Segment)
    : M World (DevPtr * DevPtr) :=
  fun w =>
    let t := length (enqueued w) in
    (inr ((t, 0%nat), (t, 1%nat)), enqueue (HostToDevice s [seg1; seg2]) w).

(** [cudaGetLastError()]: reports, and clears, the pending status. *)
Definition cudaGetLastError : M World cudaError_t :=
  fun w =>
    match cuda_status w with
    | [] => (inr cudaSuccess, w)
    | e :: rest => (inr e, mkWorld (setup w) (enqueued w) rest)
    end.

(** [CUDA_CALL(code)]: throws unless the status is [cudaSuccess]. *)
Definition CUDA_CALL (code : M World cudaError_t) : M World unit :=
  (status <- code ;;
   if status =? cudaSuccess then ret tt else throw (DeviceOperationFailure status))%exec.

(** [kernel<<<grid, block, 0, stream>>>(args...)]. *)
Definition launch (op : DeviceOp) : M World unit := modify (enqueue op).

(** *** [WarpGPU] *)

(** Whether [warp_gpu.h] is compiled with [NDEBUG] defined. *)
Variable NDEBUG : bool.

(** [WarpGPU::Setup].  The only check on the arguments is the [assert] on the
    two lengths. *)
Definition Setup (context : KernelContext) (in_ : TensorListView)
    (mapping : MappingTensor) (output_sizes : list TensorShape2)
    (interp : list DALIInterpType) (border : BorderType)
    : M World KernelRequirements :=
  (assert_ NDEBUG (length in_ =? length output_sizes)%nat ;;
   let out_shapes := GetOutputShape (shapes in_) output_sizes in
   WarpSetup_Setup out_shapes)%exec.

(** [WarpGPU::Run]. *)
Definition Run (context : KernelContext) (out in_ : TensorListView)
    (mapping : MappingTensor) (output_sizes : list TensorShape2)
    (interp : list DALIInterpType) (border : BorderType) : M World unit :=
  (ValidateOutputShape (shapes out) (shapes in_) output_sizes ;;
   PrepareSamples out in_ interp ;;
   grid_dim <- GridDim ;;
   block_dim <- BlockDim ;;
   uniform <- IsUniformSize ;;
   if uniform then
     ss <- Samples ;;
     gpu_samples <- ToGPU (stream context) (SampleArray ss) ;;
     CUDA_CALL cudaGetLastError ;;
     out_size <- UniformOutputSize ;;
     block_size <- UniformBlockSize ;;
     launch (BatchWarpUniformSize grid_dim block_dim (stream context)
               gpu_samples out_size block_size (mapping_data mapping) border) ;;
     CUDA_CALL cudaGetLastError
   else
     ss <- Samples ;;
     bs <- Blocks ;;
     ptrs <- ToContiguousGPU (stream context) (SampleArray ss) (BlockArray bs) ;;
     CUDA_CALL cudaGetLastError ;;
     launch (BatchWarpVariableSize grid_dim block_dim (stream context)
               (fst ptrs) (snd ptrs) (mapping_data mapping) border) ;;
     CUDA_CALL cudaGetLastError)%exec.

(** *** Observations on the device queue *)

Definition is_launch (op : DeviceOp) : bool :=
  match op with
  | HostToDevice _ _ => false
  | _ => true
  end.

Definition is_transfer (op : DeviceOp) : bool :=
  match op with
  | HostToDevice _ _ => true
  | _ => false
  end.

(** Number of kernels among the operations. *)
Definition launches (ops : list DeviceOp) : nat := length (filter is_launch ops).

(** Number of host-to-device transfers among the operations. *)
Definition transfers (ops : list DeviceOp) : nat := length (filter is_transfer ops).

(** What a staged pointer designates in the queue. *)
Definition staged (ops : list DeviceOp) (p : DevPtr) : option Segment :=
  match nth_error ops (fst p) with
  | Some (HostToDevice _ segs) => nth_error segs (snd p)
  | _ => None
  end.

(** The operations a call added to the queue. *)
Definition added (before after : World) : list DeviceOp :=
  skipn (length (enqueued before)) (enqueued after).


(** The three sequences have the batch size of the engine. *)
Definition counts_agree (outs ins : TensorListView) (modes : list DALIInterpType)
    (w : World) : Prop :=
  length outs = length (samples (setup w))
  /\ length ins = length (samples (setup w))
  /\ length modes = length (samples (setup w)).

(** *** Block geometry *)

(** Along one axis of length [extent], the tile that starts at [s] contains
    coordinate [x]. *)
Definition on_tile (extent tile x s : Z) : bool :=
  (s <=? x) && (x <? s + Z.min tile (extent - s)).

(** Pixel [(x, y)] lies inside the tile. *)
Definition in_block (b : BlockDesc) (x y : Z) : bool :=
  (start_x b <=? x) && (x <? start_x b + extent_x b)
  && (start_y b <=? y) && (y <? start_y b + extent_y b).

(** Number of blocks of sample [i] that contain pixel [(x, y)]. *)
Definition covering (bs : list BlockDesc) (i : nat) (x y : Z) : nat :=
  length (filter (fun b => (sample_idx b =? i)%nat && in_block b x y) bs).

End Engine.

End Warp.

(** ** Machine integers *)

Module MachInt.

(** Conversion to a 32-bit [int]: two's complement wrap-around. *)
Definition to_int (z : Z) : Z := (z + 2 ^ 31) mod 2 ^ 32 - 2 ^ 31.

(** Conversion to a 64-bit [size_t]. *)
Definition to_size_t (z : Z) : Z := z mod 2 ^ 64.

Definition INT_MAX : Z := 2 ^ 31 - 1.

Arguments to_int : simpl never.
Arguments to_size_t : simpl never.

End MachInt.

Import MachInt.

(** ** The external source operator ([external_source.cc]) *)

Module ExternalSource.

(** A CPU tensor, reduced to its payload. *)
Definition Tensor : Type := list Z.

Inductive Mutex : Type := samples_processed_m_ | busy_m_.

(** What one thread does to the shared hand-off state, in program order. *)
Inductive SyncEvent : Type :=
| Lock (m : Mutex)
| Unlock (m : Mutex)
| StoreSamplesProcessed (v : Z)
| StoreBusy (b : bool)
| NotifyOne.

(** The members of [ExternalSource<CPUBackend>] that [RunImpl] touches
    (declared in [external_source.h]), with the log of synchronisation
    events. *)
Record Operator : Type := mkOperator {
  batch_size_ : Z;
  data_in_tl_ : bool;
  tl_data_ : list Tensor;
  t_data_ : list Tensor;
  samples_processed_ : Z;
  busy_ : bool;
  events : list SyncEvent
}.

(** [SampleWorkspace]: the sample index, the optional stream and output 0. *)
Record SampleWorkspace : Type := mkWorkspace {
  data_idx : nat;
  has_stream : bool;
  ws_stream : Z;
  Output0 : Tensor
}.

(** The data the operator was fed: the tensor list or the tensor vector. *)
Definition fed (op : Operator) : list Tensor :=
  if data_in_tl_ op then tl_data_ op else t_data_ op.

Definition emit (e : SyncEvent) : M Operator unit :=
  modify (fun op => mkOperator (batch_size_ op) (data_in_tl_ op) (tl_data_ op)
                      (t_data_ op) (samples_processed_ op) (busy_ op)
                      (events op ++ [e])).

Definition store_samples_processed (v : Z) : M Operator unit :=
  (modify (fun op => mkOperator (batch_size_ op) (data_in_tl_ op) (tl_data_ op)
                       (t_data_ op) v (busy_ op) (events op)) ;;
   emit (StoreSamplesProcessed v))%exec.

Definition store_busy (b : bool) : M Operator unit :=
  (modify (fun op => mkOperator (batch_size_ op) (data_in_tl_ op) (tl_data_ op)
                       (t_data_ op) (samples_processed_ op) b (events op)) ;;
   emit (StoreBusy b))%exec.

(** Modelled from the spec: [Tensor::Copy] is declared outside the sources;
    output 0 of the workspace becomes element [idx] of the fed data, the copy
    being issued on [stream].  An index outside the data is undefined
    behaviour in the source; here it ends the call. *)
Definition Copy (src : list Tensor) (idx : nat) (stream : Z) (ws : SampleWorkspace)
    : M Operator SampleWorkspace :=
  match nth_error src idx with
  | Some t => ret (mkWorkspace (data_idx ws) (has_stream ws) (ws_stream ws) t)
  | None => throw (EnforceFailed "sample index out of range"%string)
  end.

Definition batch_size_message : String.string :=
  "Data list provided to ExternalSource needs to have batch_size length."%string.

(** [ExternalSource<CPUBackend>::RunImpl].  Both lock guards release at the
    end of their scope. *)
Definition RunImpl (ws : SampleWorkspace) : M Operator SampleWorkspace :=
  (op <- gets (fun op => op) ;;
   let stream := if has_stream ws then ws_stream ws else 0 in
   ws' <- (if data_in_tl_ op then
             DALI_ENFORCE (batch_size_ op =? to_int (Z.of_nat (length (tl_data_ op))))
                          batch_size_message ;;
             Copy (tl_data_ op) (data_idx ws) stream ws
           else
             DALI_ENFORCE (batch_size_ op =? to_int (Z.of_nat (length (t_data_ op))))
                          batch_size_message ;;
             Copy (t_data_ op) (data_idx ws) stream ws) ;;
   emit (Lock samples_processed_m_) ;;
   store_samples_processed (to_int (samples_processed_ op + 1)) ;;
   (if to_int (samples_processed_ op + 1) >=? batch_size_ op then
      store_samples_processed 0 ;;
      emit (Lock busy_m_) ;;
      store_busy false ;;
      emit (Unlock busy_m_) ;;
      emit NotifyOne
    else ret tt) ;;
   emit (Unlock samples_processed_m_) ;;
   ret ws')%exec.

(** Consuming the samples of the given workspaces one after the other. *)
Fixpoint consume (wss : list SampleWorkspace) : M Operator unit :=
  match wss with
  | [] => ret tt
  | ws :: rest => (RunImpl ws ;; consume rest)%exec
  end.

(** *** Lock discipline of an event log *)

Definition mutex_eqb (a b : Mutex) : bool :=
  match a, b with
  | samples_processed_m_, samples_processed_m_ => true
  | busy_m_, busy_m_ => true
  | _, _ => false
  end.

Definition holds (held : list Mutex) (m : Mutex) : bool := existsb (mutex_eqb m) held.

(** Scans a log with the set of mutexes held so far: a mutex is locked only
    when free and unlocked only when held, the counter is written only under
    [samples_processed_m_], the busy flag only under [busy_m_], and nothing
    is held at the end. *)
Fixpoint guarded (held : list Mutex) (log : list SyncEvent) : bool :=
  match log with
  | [] => match held with [] => true | _ => false end
  | Lock m :: rest => negb (holds held m) && guarded (m :: held) rest
  | Unlock m :: rest =>
      holds held m && guarded (filter (fun x => negb (mutex_eqb m x)) held) rest
  | StoreSamplesProcessed _ :: rest => holds held samples_processed_m_ && guarded held rest
  | StoreBusy _ :: rest => holds held busy_m_ && guarded held rest
  | NotifyOne :: rest => guarded held rest
  end.

Definition is_notify (e : SyncEvent) : bool :=
  match e with NotifyOne => true | _ => false end.

(** Number of condition-variable signals in a log. *)
Definition notifications (log : list SyncEvent) : nat := length (filter is_notify log).

(** The events a call appended to the log. *)
Definition appended (before after : Operator) : list SyncEvent :=
  skipn (length (events before)) (events after).

(** The processed-sample counter lies in [0, batch_size). *)
Definition counter_in_range (op : Operator) : Prop :=
  0 <= samples_processed_ op < batch_size_ op /\ batch_size_ op <= INT_MAX.

End ExternalSource.

(** ** The LMDB loader ([lmdb.h]) *)

Module LMDB.

(** [MDB_val]: the size of an item and a pointer to it.  The items the
    library hands out lie in the memory-mapped database file.  The pointer
    [mv_data] is modelled by what can be read through it: the bytes of the
    mapping from the address it holds up to the end of the mapping.  The
    first [mv_size] of them are the item. *)
Record MDB_val : Type := mkVal {
  mv_size : Z;
  mv_data : list Byte.byte
}.

(** The bytes of the item itself. *)
Definition item (v : MDB_val) : list Byte.byte :=
  firstn (Z.to_nat (mv_size v)) (mv_data v).

(** The whole item lies inside the mapping. *)
Definition readable (v : MDB_val) : Prop :=
  0 <= mv_size v <= Z.of_nat (length (mv_data v)).

(** A pointer that was never set: nothing can be read through it. *)
Definition no_val : MDB_val := mkVal 0 [].

Inductive MDB_cursor_op : Type := MDB_FIRST | MDB_NEXT.

Definition MDB_SUCCESS : Z := 0.
Definition MDB_NOTFOUND : Z := -30798.

Inductive TypeInfo : Type := NoType | UInt8.

Record DALIMeta : Type := mkMeta {
  source_info : String.string;
  skip_sample : bool
}.

(** Modelled from the spec: [Tensor<CPUBackend>] is declared outside the
    sources; the specification speaks of one raw byte buffer per call, so a
    tensor is its element type, its shape, its bytes and its meta data, with
    the operations [ReadSample] calls on it. *)
Record Tensor : Type := mkTensor {
  type : TypeInfo;
  tensor_shape : list Z;
  raw_data : list Byte.byte;
  meta : DALIMeta
}.

Definition empty_meta : DALIMeta := mkMeta ""%string false.

Definition set_type (t : Tensor) (ty : TypeInfo) : Tensor :=
  mkTensor ty (tensor_shape t) (raw_data t) (meta t).

Definition SetMeta (t : Tensor) (m : DALIMeta) : Tensor :=
  mkTensor (type t) (tensor_shape t) (raw_data t) m.

(** [tensor.Reset()]: back to the empty tensor. *)
Definition Tensor_Reset (t : Tensor) : Tensor := mkTensor NoType [] [] empty_meta.

(** [tensor.Resize({n})]: a buffer of [n] elements; bytes beyond the old
    contents are zero until written. *)
Definition Resize (t : Tensor) (n : Z) : Tensor :=
  mkTensor (type t) [n]
           (firstn (Z.to_nat n) (raw_data t ++ repeat Byte.x00 (Z.to_nat n)))
           (meta t).

(** [std::memcpy(tensor.raw_mutable_data(), src, n)]. *)
Definition memcpy (t : Tensor) (src : list Byte.byte) (n : Z) : Tensor :=
  mkTensor (type t) (tensor_shape t)
           (firstn (Z.to_nat n) src ++ skipn (Z.to_nat n) (raw_data t))
           (meta t).

(** The members of [LMDBLoader] and of its base [Loader] that the reader
    uses, together with the opened database: its entries in key order and the
    position of [mdb_cursor_] ([None] before the first positioning). *)
Record LMDBLoader : Type := mkLoader {
  db : list (MDB_val * MDB_val);
  mdb_cursor_ : option nat;
  key_ : MDB_val;
  value_ : MDB_val;
  current_index_ : Z;
  lmdb_size_ : Z;
  shard_id_ : Z;
  num_shards_ : Z;
  db_path_ : String.string
}.

(** [mdb_cursor_get] for the two operations the loader uses: on success the
    cursor moves and key and value are set; at the end of the database the
    status is [MDB_NOTFOUND] and nothing changes.  [MDB_NEXT] on a cursor
    that was never positioned behaves as [MDB_FIRST]. *)
Definition mdb_cursor_get (op : MDB_cursor_op) : M LMDBLoader Z :=
  fun st =>
    let target :=
      match op, mdb_cursor_ st with
      | MDB_FIRST, _ => 0%nat
      | MDB_NEXT, None => 0%nat
      | MDB_NEXT, Some p => S p
      end in
    match nth_error (db st) target with
    | Some (k, v) =>
        (inr MDB_SUCCESS,
         mkLoader (db st) (Some target) k v (current_index_ st) (lmdb_size_ st)
                  (shard_id_ st) (num_shards_ st) (db_path_ st))
    | None => (inr MDB_NOTFOUND, st)
    end.

Definition set_current_index (i : Z) : M LMDBLoader unit :=
  modify (fun st => mkLoader (db st) (mdb_cursor_ st) (key_ st) (value_ st) i
                      (lmdb_size_ st) (shard_id_ st) (num_shards_ st) (db_path_ st)).

(** Reading a C string through a [char*]: the bytes up to the first NUL,
    however many there are; [None] when the memory ends before a NUL is
    met. *)
Fixpoint c_str (mem : list Byte.byte) : option String.string :=
  match mem with
  | [] => None
  | b :: rest =>
      if Byte.eqb b Byte.x00 then Some String.EmptyString
      else option_map (String.String (Ascii.ascii_of_byte b)) (c_str rest)
  end.

(** [to_string] of an unsigned number: its decimal digits. *)
Definition to_string (n : Z) : String.string :=
  DecimalString.NilZero.string_of_uint (N.to_uint (Z.to_N n)).

(** [LMDBLoader::SizeImpl]. *)
Definition SizeImpl : M LMDBLoader Z := gets lmdb_size_.

(** [Loader::Size] forwards to [SizeImpl]. *)
Definition Size : M LMDBLoader Z := SizeImpl.

Section Loader.

(** [mdb_strerror], the message the library has for a status. *)
Variable mdb_strerror : Z -> String.string.

(** [start_index(shard_id, num_shards, size)], a helper of the loader
    framework declared outside the sources. *)
Variable start_index : Z -> Z -> Z -> Z.

(** [Loader::IsNextShard]: whether an index has passed the end of the shard
    [(shard_id, num_shards, size)]; declared in [loader.h]. *)
Variable IsNextShard : Z -> Z -> Z -> Z -> bool.

(** [Loader::ShouldSkipImage]: whether the image with this key is cached;
    declared in [loader.h]. *)
Variable ShouldSkipImage : String.string -> bool.

(** [CHECK_LMDB(status, filename)].  The macro pastes [status] into its body
    twice, once in the condition and once in the message, and
    [DALI_ENFORCE] builds its message only when the condition fails: a
    failing [status] expression is evaluated a second time, and the message
    is about the second status. *)
Definition CHECK_LMDB {S : Type} (status : M S Z) (filename : String.string) : M S unit :=
  (s <- status ;;
   if s =? MDB_SUCCESS then ret tt
   else
     s' <- status ;;
     throw (EnforceFailed
              (String.append "LMDB Error: "%string
                 (String.append (mdb_strerror s')
                    (String.append ", with file: "%string filename)))))%exec.

(** [lmdb::SeekLMDB].  Here the macro's argument is the local variable
    [status]. *)
Definition SeekLMDB (op : MDB_cursor_op) (filename : String.string) : M LMDBLoader bool :=
  (status <- mdb_cursor_get op ;;
   if status =? MDB_NOTFOUND then ret false
   else CHECK_LMDB (ret status) filename ;; ret true)%exec.

(** The [for] loop of [Reset]: [n] further steps, each of which must
    succeed. *)
Fixpoint seek_forward (n : nat) : M LMDBLoader unit :=
  match n with
  | O => ret tt
  | S n' =>
      (path <- gets db_path_ ;;
       ok <- SeekLMDB MDB_NEXT path ;;
       idx <- gets current_index_ ;;
       DALI_ENFORCE ok
         (String.append "lmdb::SeekLMDB to position "%string
            (String.append (to_string idx) " failed"%string)) ;;
       seek_forward n')%exec
  end.

(** [LMDBLoader::Reset]. *)
Definition Reset (wrap_to_shard : bool) : M LMDBLoader unit :=
  (size <- Size ;;
   sid <- gets shard_id_ ;;
   ns <- gets num_shards_ ;;
   set_current_index (to_size_t (start_index sid ns size)) ;;
   path <- gets db_path_ ;;
   ok <- SeekLMDB MDB_FIRST path ;;
   DALI_ENFORCE ok "lmdb::SeekLMDB to the beginning failed"%string ;;
   if wrap_to_shard then
     idx <- gets current_index_ ;;
     seek_forward (Z.to_nat idx)
   else ret tt)%exec.

(** Modelled from the spec: [Loader::MoveToNextShard] is declared in
    [loader.h], which is not part of the sources.  The specification says the
    reader wraps around to the start of its shard on overflow: once the index
    has passed the end of the shard, the loader resets to its shard. *)
Definition MoveToNextShard (current_index : Z) : M LMDBLoader unit :=
  (size <- Size ;;
   sid <- gets shard_id_ ;;
   ns <- gets num_shards_ ;;
   if IsNextShard sid ns size current_index then Reset true else ret tt)%exec.

(** [db_path_ + " at key " + to_string(reinterpret_cast<char*>(key_.mv_data))].
    The key is read as a C string: [mv_size] plays no part, and the read goes
    on through whatever follows the key in the mapping until it meets a NUL;
    when the mapping ends first, the read is out of bounds. *)
Definition image_key_of (path : String.string) (key : MDB_val) : Error + String.string :=
  match c_str (mv_data key) with
  | Some s => inr (String.append path (String.append " at key "%string s))
  | None => inl OutOfBoundsRead
  end.

(** The second half of [LMDBLoader::ReadSample]: what is written into the
    tensor, given the image key and the value the loader stands on. *)
Definition fill_tensor (tensor : Tensor) (image_key : String.string) (value : MDB_val)
    : Tensor :=
  let meta0 := mkMeta image_key false in
  let tensor := set_type tensor UInt8 in
  (* if image is cached, skip loading *)
  if ShouldSkipImage image_key then
    let meta1 := mkMeta (source_info meta0) true in
    Resize (set_type (SetMeta (Tensor_Reset tensor) meta1) UInt8) 0
  else
    memcpy (Resize (SetMeta tensor meta0) (mv_size value)) (mv_data value)
           (mv_size value * 1).

(** What [ReadSample] makes of the entry [(key, value)] it stands on. *)
Definition sample_of (tensor : Tensor) (path : String.string)
    (entry : MDB_val * MDB_val) : Error + Tensor :=
  match image_key_of path (fst entry) with
  | inr image_key => inr (fill_tensor tensor image_key (snd entry))
  | inl e => inl e
  end.

(** [LMDBLoader::ReadSample]: read next, loop to the start if necessary, then
    fill the tensor. *)
Definition ReadSample (tensor : Tensor) : M LMDBLoader Tensor :=
  (path <- gets db_path_ ;;
   SeekLMDB MDB_NEXT path ;;
   idx <- gets current_index_ ;;
   set_current_index (to_size_t (idx + 1)) ;;
   MoveToNextShard (to_size_t (idx + 1)) ;;
   key <- gets key_ ;;
   image_key <- outcome (image_key_of path key) ;;
   value <- gets value_ ;;
   ret (fill_tensor tensor image_key value))%exec.

(** The loader is positioned: the database has [lmdb_size_] entries, the
    cursor stands on entry [current_index_], and [key_] and [value_] are that
    entry. *)
Definition positioned (st : LMDBLoader) : Prop :=
  lmdb_size_ st = Z.of_nat (length (db st))
  /\ lmdb_size_ st < 2 ^ 63
  /\ 0 <= current_index_ st < lmdb_size_ st
  /\ mdb_cursor_ st = Some (Z.to_nat (current_index_ st))
  /\ nth_error (db st) (Z.to_nat (current_index_ st)) = Some (key_ st, value_ st).

(** The entry the next [ReadSample] stands on: the shard's start when the
    incremented index has passed the end of the shard, the next entry
    otherwise. *)
Definition next_index (st : LMDBLoader) : Z :=
  if IsNextShard (shard_id_ st) (num_shards_ st) (lmdb_size_ st) (current_index_ st + 1)
  then start_index (shard_id_ st) (num_shards_ st) (lmdb_size_ st)
  else current_index_ st + 1.

End Loader.

End LMDB.

(** ** Sample configurations *)

Module Examples.

Import Warp.

(** The simple output-shape policy: the requested size with the channel count
    of the input. *)
Definition requested_size (in_shape : TensorListShape) (sizes : list TensorShape2)
    : TensorListShape :=
  map (fun p => mkShape3 (rows (snd p)) (cols (snd p)) (channels (fst p)))
      (combine in_shape sizes).

Definition empty_setup : WarpSetup :=
  mkSetup [] [] UniformSize zero_shape2 zero_shape2 (mkDim3 0 1 1) (mkDim3 0 0 1).

(** A fresh engine on an idle device; the border value is an integer. *)
Definition fresh : World Z := mkWorld empty_setup [] [].

Definition ctx : KernelContext := mkContext 7.

Definition mapping : MappingTensor := mkMapping 4096 2.

(** Two 4x4x3 inputs. *)
Definition in_same : TensorListView :=
  [mkView 1000 (mkShape3 4 4 3); mkView 2000 (mkShape3 4 4 3)].

(** A 4x4x3 and an 8x8x3 input. *)
Definition in_mixed : TensorListView :=
  [mkView 1000 (mkShape3 4 4 3); mkView 2000 (mkShape3 8 8 3)].

Definition sizes_same : list TensorShape2 := [mkShape2 4 4; mkShape2 4 4].
Definition sizes_mixed : list TensorShape2 := [mkShape2 4 4; mkShape2 8 8].

Definition out_same : TensorListView :=
  [mkView 5000 (mkShape3 4 4 3); mkView 6000 (mkShape3 4 4 3)].

Definition out_mixed : TensorListView :=
  [mkView 5000 (mkShape3 4 4 3); mkView 6000 (mkShape3 8 8 3)].

Definition modes : list DALIInterpType := [DALI_INTERP_NN; DALI_INTERP_LINEAR].

(** The engine after [Setup] on the mixed batch, with 3x3 tiles. *)
Definition after_setup_mixed : World Z :=
  snd (Setup requested_size 3 3 false ctx in_mixed mapping sizes_mixed modes 0 fresh).

(** The engine after [Setup] on the uniform batch, with 3x3 tiles. *)
Definition after_setup_same : World Z :=
  snd (Setup requested_size 3 3 false ctx in_same mapping sizes_same modes 0 fresh).

(** The same engine on a device that reports error 700 at the next status
    query. *)
Definition after_setup_mixed_faulty : World Z :=
  mkWorld (setup after_setup_mixed) [] [700].

(** What [Setup] returns for the mixed batch. *)
Definition req_mixed : KernelRequirements :=
  mkReq [mkShape3 4 4 3; mkShape3 8 8 3] [48; 192].

(** What [Setup] returns for the uniform batch. *)
Definition req_same : KernelRequirements :=
  mkReq [mkShape3 4 4 3; mkShape3 4 4 3] [48; 48].

(** A second set of mapping parameters, modes and context. *)
Definition mapping' : MappingTensor := mkMapping 8192 2.
Definition modes' : list DALIInterpType := [DALI_INTERP_CUBIC; DALI_INTERP_CUBIC].
Definition ctx' : KernelContext := mkContext 9.

(** An external source fed two samples as a vector of tensors, one of them
    already consumed. *)
Definition source_mid : ExternalSource.Operator :=
  ExternalSource.mkOperator 2 false [] [[1; 2]; [3; 4]] 1 true [].

Definition workspace1 : ExternalSource.SampleWorkspace :=
  ExternalSource.mkWorkspace 1 false 0 [].

(** The operator after the second sample has been consumed. *)
Definition source_done : ExternalSource.Operator :=
  Eval vm_compute in snd (ExternalSource.RunImpl workspace1 source_mid).

(** The shard bounds of the loader framework: shard [id] of [n] starts at
    [size * id / n]. *)
Definition shard_start (shard_id shard_num size : Z) : Z := size * shard_id / shard_num.

Definition past_shard_end (shard_id shard_num size index : Z) : bool :=
  shard_start (shard_id + 1) shard_num size <=? index.

Definition nothing_cached (key : String.string) : bool := false.
Definition everything_cached (key : String.string) : bool := true.

(** The messages of the library for the statuses used below. *)
Definition strerror_text (status : Z) : String.string :=
  if status =? 0 then "Successful return: 0"%string
  else if status =? -30798 then "MDB_NOTFOUND: No matching key/data pair found"%string
  else "Unknown error"%string.

(** The end of a leaf page that holds three entries, the way the library lays
    them out: per entry eight header bytes (size of the value, flags, size of
    the key), the key, the value, and padding to an even length; an entry
    added later lies at a lower address.  The entries are [c -> 06],
    [b -> 04 05] and [a -> 01 02 03]. *)
Definition leaf_page : list Byte.byte :=
  [Byte.x01; Byte.x00; Byte.x00; Byte.x00; Byte.x00; Byte.x00; Byte.x01; Byte.x00;
   Byte.x63; Byte.x06;
   Byte.x02; Byte.x00; Byte.x00; Byte.x00; Byte.x00; Byte.x00; Byte.x01; Byte.x00;
   Byte.x62; Byte.x04; Byte.x05; Byte.x00;
   Byte.x03; Byte.x00; Byte.x00; Byte.x00; Byte.x00; Byte.x00; Byte.x01; Byte.x00;
   Byte.x61; Byte.x01; Byte.x02; Byte.x03].

(** A pointer to the given offset of the page, when [rest] is mapped behind
    the page. *)
Definition mapped_from (rest : list Byte.byte) (offset : nat) : list Byte.byte :=
  skipn offset (leaf_page ++ rest).

Definition entry_a (rest : list Byte.byte) : LMDB.MDB_val * LMDB.MDB_val :=
  (LMDB.mkVal 1 (mapped_from rest 30), LMDB.mkVal 3 (mapped_from rest 31)).

Definition entry_b (rest : list Byte.byte) : LMDB.MDB_val * LMDB.MDB_val :=
  (LMDB.mkVal 1 (mapped_from rest 18), LMDB.mkVal 2 (mapped_from rest 19)).

Definition entry_c (rest : list Byte.byte) : LMDB.MDB_val * LMDB.MDB_val :=
  (LMDB.mkVal 1 (mapped_from rest 8), LMDB.mkVal 1 (mapped_from rest 9)).

(** Two zero bytes mapped behind the page. *)
Definition zeros : list Byte.byte := [Byte.x00; Byte.x00].

(** A database of three entries, in key order, with zero bytes mapped behind
    its page. *)
Definition entries : list (LMDB.MDB_val * LMDB.MDB_val) :=
  [entry_a zeros; entry_b zeros; entry_c zeros].

(** The same database when the mapping ends with the page. *)
Definition entries_at_end : list (LMDB.MDB_val * LMDB.MDB_val) :=
  [entry_a []; entry_b []; entry_c []].

(** The loader of the only shard, standing on the first entry. *)
Definition loader_first : LMDB.LMDBLoader :=
  LMDB.mkLoader entries (Some 0%nat) (fst (entry_a zeros)) (snd (entry_a zeros))
                0 3 0 1 "db"%string.

(** The same loader standing on the last entry. *)
Definition loader_last : LMDB.LMDBLoader :=
  LMDB.mkLoader entries (Some 2%nat) (fst (entry_c zeros)) (snd (entry_c zeros))
                2 3 0 1 "db"%string.

(** The loader standing on the last entry of the database whose mapping ends
    with the page. *)
Definition loader_last_at_end : LMDB.LMDBLoader :=
  LMDB.mkLoader entries_at_end (Some 2%nat) (fst (entry_c [])) (snd (entry_c []))
                2 3 0 1 "db"%string.

Definition blank : LMDB.Tensor := LMDB.mkTensor LMDB.NoType [] [] LMDB.empty_meta.

End Examples.

(** ** Further observations on the hand-off log *)

Module ExternalSourceLog.

Import ExternalSource.

(** The order in which the two mutexes are taken: [samples_processed_m_] is
    never acquired while [busy_m_] is held, and [busy_m_] is acquired only
    while [samples_processed_m_] is held.  [outer] and [inner] say whether
    [samples_processed_m_] and [busy_m_] are held so far. *)
Fixpoint lock_order (outer inner : bool) (log : list SyncEvent) : bool :=
  match log with
  | [] => true
  | Lock samples_processed_m_ :: rest => negb inner && lock_order true inner rest
  | Unlock samples_processed_m_ :: rest => lock_order false inner rest
  | Lock busy_m_ :: rest => outer && lock_order outer true rest
  | Unlock busy_m_ :: rest => lock_order outer false rest
  | _ :: rest => lock_order outer inner rest
  end.

(** The event raises the busy flag. *)
Definition sets_busy (e : SyncEvent) : bool :=
  match e with
  | StoreBusy true => true
  | _ => false
  end.

End ExternalSourceLog.

(** ** Further observations on the device queue *)

Module WarpQueue.

Import Warp.

Section Queue.

Variable BorderType : Type.

(** The stream an operation was enqueued on. *)
Definition op_stream (op : DeviceOp BorderType) : cudaStream_t :=
  match op with
  | HostToDevice _ s _ => s
  | BatchWarpUniformSize _ _ s _ _ _ _ _ => s
  | BatchWarpVariableSize _ _ s _ _ _ _ => s
  end.

(** Every status the device is going to report is [cudaSuccess]. *)
Definition healthy (statuses : list cudaError_t) : bool :=
  forallb (fun e => e =? cudaSuccess) statuses.

(** The shape of what one [Run] may add to the queue: nothing, a transfer, or
    a transfer followed by a kernel. *)
Definition transfer_then_kernel (ops : list (DeviceOp BorderType)) : bool :=
  match ops with
  | [] => true
  | [t] => is_transfer t
  | [t; k] => is_transfer t && is_launch k
  | _ => false
  end.

End Queue.

End WarpQueue.

(** ** Reading in a row, and shards *)

Module LMDBReads.

Import LMDB.

Section Reads.

Variable mdb_strerror : Z -> String.string.
Variable start_index : Z -> Z -> Z -> Z.
Variable IsNextShard : Z -> Z -> Z -> Z -> bool.
Variable ShouldSkipImage : String.string -> bool.

(** The reader's caller: [n] calls of [ReadSample] in a row, each into a
    tensor in the given state; the first failure ends the sequence. *)
Fixpoint read_samples (n : nat) (tensor : Tensor) : M LMDBLoader (list Tensor) :=
  match n with
  | O => ret []
  | S n' =>
      (t <- ReadSample mdb_strerror start_index IsNextShard ShouldSkipImage tensor ;;
       ts <- read_samples n' tensor ;;
       ret (t :: ts))%exec
  end.

(** The shard of the loader is the entries [first, last) of the database:
    it starts at [first], indices strictly inside it have not passed its end,
    and indices from [last] on have. *)
Definition shard_is (st : LMDBLoader) (first last : Z) : Prop :=
  start_index (shard_id_ st) (num_shards_ st) (lmdb_size_ st) = first
  /\ 0 <= first < last
  /\ last <= lmdb_size_ st
  /\ (forall i, first < i < last ->
                IsNextShard (shard_id_ st) (num_shards_ st) (lmdb_size_ st) i = false)
  /\ (forall i, last <= i ->
                IsNextShard (shard_id_ st) (num_shards_ st) (lmdb_size_ st) i = true).

End Reads.

(** What follows the item in the mapping. *)
Definition beyond (v : MDB_val) : list Byte.byte :=
  skipn (Z.to_nat (mv_size v)) (mv_data v).

(** The C-string read at the key of the entry ends inside the mapping. *)
Definition key_terminated (entry : MDB_val * MDB_val) : Prop :=
  c_str (mv_data (fst entry)) <> None.

(** The loader with another index. *)
Definition at_index (st : LMDBLoader) (i : Z) : LMDBLoader :=
  mkLoader (db st) (mdb_cursor_ st) (key_ st) (value_ st) i (lmdb_size_ st)
           (shard_id_ st) (num_shards_ st) (db_path_ st).

End LMDBReads.

(** ** The LMDB handles of the loader ([lmdb.h], constructor to destructor) *)

Module LMDBSession.

Import LMDB.

(** The calls into the LMDB library that create, use and release handles,
    and the line [PrintLMDBStats] prints. *)
Inductive ApiCall : Type :=
| mdb_env_create
| mdb_env_open (path : String.string) (flags mode : Z)
| mdb_txn_begin (flags : Z)
| mdb_dbi_open
| mdb_cursor_open
| mdb_stat
| mdb_cursor_close
| mdb_dbi_close
| mdb_txn_abort
| mdb_env_close
| printf_entries (n : Z).

Definition MDB_NOLOCK : Z := 4194304.
Definition MDB_NOTLS : Z := 2097152.
Definition MDB_RDONLY : Z := 131072.

(** The loader together with its handles: whether [mdb_env_],
    [mdb_transaction_] and [mdb_cursor_] are not null, the calls made so far
    with the status each returned (0 for the calls that return nothing), and
    the statuses the coming calls are going to return ([MDB_SUCCESS] once the
    list is exhausted). *)
Record Session : Type := mkSession {
  loader : LMDBLoader;
  mdb_env_ : bool;
  mdb_transaction_ : bool;
  has_cursor : bool;
  calls : list (ApiCall * Z);
  statuses : list Z
}.

(** Runs a computation of the loader inside the session. *)
Definition lift {A : Type} (m : M LMDBLoader A) : M Session A :=
  fun s =>
    (fst (m (loader s)),
     mkSession (snd (m (loader s))) (mdb_env_ s) (mdb_transaction_ s) (has_cursor s)
               (calls s) (statuses s)).

(** A library call that returns a status: it is logged with the status. *)
Definition api (c : ApiCall) : M Session Z :=
  fun s =>
    let status := hd MDB_SUCCESS (statuses s) in
    (inr status,
     mkSession (loader s) (mdb_env_ s) (mdb_transaction_ s) (has_cursor s)
               (calls s ++ [(c, status)]) (tl (statuses s))).

(** A library call that returns nothing. *)
Definition api_void (c : ApiCall) : M Session unit :=
  modify (fun s => mkSession (loader s) (mdb_env_ s) (mdb_transaction_ s) (has_cursor s)
                     (calls s ++ [(c, 0)]) (statuses s)).

Definition set_env (b : bool) : M Session unit :=
  modify (fun s => mkSession (loader s) b (mdb_transaction_ s) (has_cursor s)
                     (calls s) (statuses s)).

Definition set_transaction (b : bool) : M Session unit :=
  modify (fun s => mkSession (loader s) (mdb_env_ s) b (has_cursor s)
                     (calls s) (statuses s)).

Definition set_cursor (b : bool) : M Session unit :=
  modify (fun s => mkSession (loader s) (mdb_env_ s) (mdb_transaction_ s) b
                     (calls s) (statuses s)).

(** An opening call stores the handle only when it succeeds. *)
Definition open (c : ApiCall) (store : M Session unit) : M Session Z :=
  (status <- api c ;;
   (if status =? MDB_SUCCESS then store else ret tt) ;;
   ret status)%exec.

Section Loader.

Variable mdb_strerror : Z -> String.string.
Variable start_index : Z -> Z -> Z -> Z.

(** [lmdb::LMDB_size]: [mdb_stat], checked, then [stat.ms_entries]. *)
Definition LMDB_size (filename : String.string) : M Session Z :=
  (CHECK_LMDB mdb_strerror (api mdb_stat) filename ;;
   lift (gets (fun st => Z.of_nat (length (db st)))))%exec.

(** [lmdb::PrintLMDBStats]: the entry count is printed as an [int]. *)
Definition PrintLMDBStats (filename : String.string) : M Session unit :=
  (CHECK_LMDB mdb_strerror (api mdb_stat) filename ;;
   entries <- lift (gets (fun st => Z.of_nat (length (db st)))) ;;
   api_void (printf_entries (to_int entries)))%exec.

(** [LMDBLoader::PrepareMetadataImpl].  A fresh cursor stands nowhere. *)
Definition PrepareMetadataImpl : M Session unit :=
  (db_path <- lift (gets db_path_) ;;
   CHECK_LMDB mdb_strerror (open mdb_env_create (set_env true)) db_path ;;
   let mdb_flags := Z.lor (Z.lor MDB_RDONLY MDB_NOTLS) MDB_NOLOCK in
   CHECK_LMDB mdb_strerror (open (mdb_env_open db_path mdb_flags 436) (ret tt)) db_path ;;
   CHECK_LMDB mdb_strerror (open (mdb_txn_begin MDB_RDONLY) (set_transaction true))
              db_path ;;
   CHECK_LMDB mdb_strerror (open mdb_dbi_open (ret tt)) db_path ;;
   CHECK_LMDB mdb_strerror
     (open mdb_cursor_open
        (set_cursor true ;;
         lift (modify (fun st => mkLoader (db st) None (key_ st) (value_ st)
                                   (current_index_ st) (lmdb_size_ st)
                                   (shard_id_ st) (num_shards_ st) (db_path_ st)))))
     db_path ;;
   size <- LMDB_size db_path ;;
   lift (modify (fun st => mkLoader (db st) (mdb_cursor_ st) (key_ st) (value_ st)
                             (current_index_ st) size (shard_id_ st) (num_shards_ st)
                             (db_path_ st))) ;;
   PrintLMDBStats db_path ;;
   lift (Reset mdb_strerror start_index true))%exec.

End Loader.

(** [LMDBLoader::~LMDBLoader]. *)
Definition destructor : M Session unit :=
  (c <- gets has_cursor ;;
   (if c then api_void mdb_cursor_close ;; api_void mdb_dbi_close else ret tt) ;;
   t <- gets mdb_transaction_ ;;
   (if t then api_void mdb_txn_abort else ret tt) ;;
   e <- gets mdb_env_ ;;
   (if e then api_void mdb_env_close else ret tt) ;;
   set_env false)%exec.

(** The handles that are alive in the library. *)
Record Live : Type := mkLive {
  live_env : bool;
  live_txn : bool;
  live_dbi : bool;
  live_cursor : bool
}.

Definition nothing_live : Live := mkLive false false false false.

(** Replays a log of calls against the rules of the library: a handle is
    created only through a live parent, used and released only while alive,
    released once, the transaction is ended and the cursor closed before the
    environment is closed; returns the handles alive at the end, or [None]
    when a rule was broken. *)
Fixpoint replay (l : Live) (log : list (ApiCall * Z)) : option Live :=
  match log with
  | [] => Some l
  | (c, status) :: rest =>
      let ok := status =? MDB_SUCCESS in
      match c with
      | mdb_env_create =>
          if live_env l then None
          else replay (mkLive ok (live_txn l) (live_dbi l) (live_cursor l)) rest
      | mdb_env_open _ _ _ =>
          if live_env l then replay l rest else None
      | mdb_txn_begin _ =>
          if live_env l && negb (live_txn l)
          then replay (mkLive (live_env l) ok (live_dbi l) (live_cursor l)) rest
          else None
      | mdb_dbi_open =>
          if live_txn l && negb (live_dbi l)
          then replay (mkLive (live_env l) (live_txn l) ok (live_cursor l)) rest
          else None
      | mdb_cursor_open =>
          if live_txn l && live_dbi l && negb (live_cursor l)
          then replay (mkLive (live_env l) (live_txn l) (live_dbi l) ok) rest
          else None
      | mdb_stat =>
          if live_txn l && live_dbi l then replay l rest else None
      | mdb_cursor_close =>
          if live_cursor l
          then replay (mkLive (live_env l) (live_txn l) (live_dbi l) false) rest
          else None
      | mdb_dbi_close =>
          if live_env l && live_dbi l
          then replay (mkLive (live_env l) (live_txn l) false (live_cursor l)) rest
          else None
      | mdb_txn_abort =>
          if live_txn l
          then replay (mkLive (live_env l) false (live_dbi l) (live_cursor l)) rest
          else None
      | mdb_env_close =>
          if live_env l && negb (live_txn l) && negb (live_cursor l)
          then replay (mkLive false false false false) rest
          else None
      | printf_entries _ => replay l rest
      end
  end.

(** The coming [n] calls of the library succeed. *)
Fixpoint succeed (n : nat) (coming : list Z) : bool :=
  match n with
  | O => true
  | S n' => (hd MDB_SUCCESS coming =? MDB_SUCCESS) && succeed n' (tl coming)
  end.

(** The call closes the database handle. *)
Definition closes_dbi (c : ApiCall * Z) : bool :=
  match fst c with
  | mdb_dbi_close => true
  | _ => false
  end.

(** The call printed the number of entries. *)
Definition is_printf (c : ApiCall * Z) : bool :=
  match fst c with
  | printf_entries _ => true
  | _ => false
  end.

(** A loader that has not been prepared yet: no handle, no call. *)
Definition fresh_session (st : LMDBLoader) (coming : list Z) : Session :=
  mkSession st false false false [] coming.

(** The status of call number [n], counted from 0. *)
Definition status_of (coming : list Z) (n : nat) : Z :=
  hd MDB_SUCCESS (Nat.iter n (@tl Z) coming).

(** The loader once its cursor is opened and the size of the database is
    recorded. *)
Definition opened (st : LMDBLoader) : LMDBLoader :=
  mkLoader (db st) None (key_ st) (value_ st) (current_index_ st)
           (Z.of_nat (length (db st))) (shard_id_ st) (num_shards_ st) (db_path_ st).

End LMDBSession.

(** ** Further sample configurations *)

Module MoreExamples.

Import Examples.

(** An external source that expects three samples but was fed two. *)
Definition source_short : ExternalSource.Operator :=
  ExternalSource.mkOperator 3 false [] [[1; 2]; [3; 4]] 0 true [].

(** An external source fed two samples, none consumed yet. *)
Definition source_fresh : ExternalSource.Operator :=
  ExternalSource.mkOperator 2 false [] [[1; 2]; [3; 4]] 0 true [].

Definition workspace0 : ExternalSource.SampleWorkspace :=
  ExternalSource.mkWorkspace 0 false 0 [].

(** Three samples consumed in a row. *)
Definition three_samples : list ExternalSource.SampleWorkspace :=
  [workspace0; workspace1; workspace0].

Definition source_after_three : ExternalSource.Operator :=
  Eval vm_compute in snd (ExternalSource.consume three_samples source_fresh).

(** A loader on an empty database. *)
Definition loader_empty : LMDB.LMDBLoader :=
  LMDB.mkLoader [] None LMDB.no_val LMDB.no_val 0 0 0 1 "db"%string.

(** A loader whose shard id is not below the number of shards: its start
    index is the size of the database. *)
Definition loader_beyond : LMDB.LMDBLoader :=
  LMDB.mkLoader entries None LMDB.no_val LMDB.no_val 0 3 1 1 "db"%string.

(** The loader of the second of three shards, not prepared yet. *)
Definition loader_second_shard : LMDB.LMDBLoader :=
  LMDB.mkLoader entries None LMDB.no_val LMDB.no_val 0 3 1 3 "db"%string.

(** The loader of the only shard, not prepared yet. *)
Definition loader_unprepared : LMDB.LMDBLoader :=
  LMDB.mkLoader entries None LMDB.no_val LMDB.no_val 0 0 0 1 "db"%string.

(** A loader framework that never sees the end of a shard. *)
Definition never_past_end (shard_id shard_num size index : Z) : bool := false.

End MoreExamples.

(* ================================================================== *)
(** * Part II: properties *)
(* ================================================================== *)

(** ** Shapes *)

Module ShapeFacts.

Lemma shape3_eqb_eq (a b : TensorShape3) : shape3_eqb a b = true <-> a = b.
Proof.
  unfold shape3_eqb. split.
  - intros H. apply andb_prop in H as [H Hc]. apply andb_prop in H as [Hh Hw].
    apply Z.eqb_eq in Hh, Hw, Hc. destruct a, b; simpl in *. congruence.
  - intros ->. now rewrite !Z.eqb_refl.
Qed.

Lemma list_shape_eqb_eq (a b : TensorListShape) : list_shape_eqb a b = true <-> a = b.
Proof.
  revert b. induction a as [|x a IH]; intros [|y b]; simpl; split;
    try congruence; try reflexivity.
  - intros H. apply andb_prop in H as [Hx Hab].
    apply shape3_eqb_eq in Hx. apply IH in Hab. congruence.
  - intros H. injection H as -> ->.
    apply andb_true_intro. split; [now apply shape3_eqb_eq | now apply IH].
Qed.

Lemma list_shape_eqb_neq (a b : TensorListShape) : a <> b -> list_shape_eqb a b = false.
Proof.
  intros H. destruct (list_shape_eqb a b) eqn:E; [|reflexivity].
  apply list_shape_eqb_eq in E. contradiction.
Qed.


End ShapeFacts.

(** ** The warp engine *)

Module WarpFacts.

Import Warp ShapeFacts.

Lemma added_app (B : Type) (w w' : World B) (ops : list (DeviceOp B)) :
  enqueued w' = enqueued w ++ ops -> added w w' = ops.
Proof.
  intros H. unfold added. rewrite H.
  rewrite skipn_app, skipn_all, Nat.sub_diag. reflexivity.
Qed.

Lemma added_same (B : Type) (w : World B) : added w w = [].
Proof. apply added_app. now rewrite app_nil_r. Qed.

Section Properties.

Variable BorderType : Type.
Variable GetOutputShape : TensorListShape -> list TensorShape2 -> TensorListShape.
Variables tile_w tile_h : Z.

Local Abbreviation World := (World BorderType).
Variable NDEBUG : bool.

Local Abbreviation Setup := (@Setup BorderType GetOutputShape tile_w tile_h NDEBUG).
Local Abbreviation Run := (@Run BorderType GetOutputShape).
Local Abbreviation ValidateOutputShape := (@ValidateOutputShape BorderType GetOutputShape).

(** What a successful [Setup] leaves behind. *)
Lemma Setup_ok (ctx : KernelContext) (in_ : TensorListView) (mapping : MappingTensor)
    (sizes : list TensorShape2) (interp : list DALIInterpType) (border : BorderType)
    (w : World) :
  NDEBUG = true \/ length in_ = length sizes ->
  Setup ctx in_ mapping sizes interp border w =
    (inr (mkReq (GetOutputShape (shapes in_) sizes)
                (map volume (GetOutputShape (shapes in_) sizes))),
     with_setup (fun _ => SetupBlocks tile_w tile_h (GetOutputShape (shapes in_) sizes)) w).
Proof.
  intros [H|H]; unfold Warp.Setup, assert_.
  - rewrite H. reflexivity.
  - rewrite H, Nat.eqb_refl. now destruct NDEBUG.
Qed.

Lemma Setup_fail (ctx : KernelContext) (in_ : TensorListView) (mapping : MappingTensor)
    (sizes : list TensorShape2) (interp : list DALIInterpType) (border : BorderType)
    (w : World) :
  NDEBUG = false ->
  length in_ <> length sizes ->
  Setup ctx in_ mapping sizes interp border w = (inl Aborted, w).
Proof.
  intros HN H. unfold Warp.Setup, assert_. apply Nat.eqb_neq in H.
  rewrite HN, H. reflexivity.
Qed.

(** Inversion of a successful [Setup]. *)
Lemma Setup_inv (ctx : KernelContext) (in_ : TensorListView) (mapping : MappingTensor)
    (sizes : list TensorShape2) (interp : list DALIInterpType) (border : BorderType)
    (w w' : World) (req : KernelRequirements) :
  Setup ctx in_ mapping sizes interp border w = (inr req, w') ->
  (NDEBUG = false -> length in_ = length sizes)
  /\ output_shapes req = GetOutputShape (shapes in_) sizes
  /\ setup w' = SetupBlocks tile_w tile_h (GetOutputShape (shapes in_) sizes)
  /\ enqueued w' = enqueued w
  /\ cuda_status w' = cuda_status w.
Proof.
  intros H. destruct (Bool.bool_dec NDEBUG true) as [HN|HN].
  - rewrite Setup_ok in H by (left; exact HN). injection H as <- <-.
    repeat split; auto. congruence.
  - apply Bool.not_true_is_false in HN.
    destruct (Nat.eq_dec (length in_) (length sizes)) as [E|E].
    + rewrite Setup_ok in H by (right; exact E). injection H as <- <-.
      repeat split; auto.
    + rewrite Setup_fail in H by auto. discriminate.
Qed.

(** *** C4 *)


(** *** C10 *)

(** C10. [Setup] reads neither the mapping parameters, nor the interpolation
    modes, nor the border value (nor the context, nor the previous engine
    state): calls that agree on the input shapes and the requested sizes
    return the same requirements and build the same engine state. *)
Theorem Setup_ignores_mapping_interp_border
    (ctx1 ctx2 : KernelContext) (in1 in2 : TensorListView)
    (mapping1 mapping2 : MappingTensor) (sizes : list TensorShape2)
    (interp1 interp2 : list DALIInterpType) (border1 border2 : BorderType)
    (w1 w2 : World) :
  shapes in1 = shapes in2 ->
  fst (Setup ctx1 in1 mapping1 sizes interp1 border1 w1)
    = fst (Setup ctx2 in2 mapping2 sizes interp2 border2 w2)
  /\ (setup w1 = setup w2 ->
      setup (snd (Setup ctx1 in1 mapping1 sizes interp1 border1 w1))
        = setup (snd (Setup ctx2 in2 mapping2 sizes interp2 border2 w2)))
  /\ Setup ctx1 in1 mapping1 sizes interp1 border1 w1
       = Setup ctx1 in1 mapping2 sizes interp2 border2 w1.
Proof.
  intros Hs.
  assert (Hl : length in1 = length in2).
  { unfold shapes in Hs. apply (f_equal (@length _)) in Hs. now rewrite !length_map in Hs. }
  unfold Warp.Setup, assert_, bind. rewrite <- Hl, <- Hs.
  destruct NDEBUG; [simpl; auto|].
  destruct (length in1 =? length sizes)%nat; simpl; auto.
Qed.

(** *** C7 *)

(** C7. [Setup] is idempotent: repeating the call with the same arguments on
    the engine the first call left returns the same result and leaves the
    same engine (samples, blocks, classification, launch dimensions). *)
Theorem Setup_idempotent (ctx : KernelContext) (in_ : TensorListView)
    (mapping : MappingTensor) (sizes : list TensorShape2)
    (interp : list DALIInterpType) (border : BorderType) (w : World) :
  Setup ctx in_ mapping sizes interp border
        (snd (Setup ctx in_ mapping sizes interp border w))
  = Setup ctx in_ mapping sizes interp border w.
Proof.
  unfold Warp.Setup, assert_, bind.
  destruct NDEBUG; [reflexivity|].
  destruct (length in_ =? length sizes)%nat; reflexivity.
Qed.

(** *** The stages of [Run] *)

Lemma Validate_ok (out_shape in_shape : TensorListShape) (sizes : list TensorShape2)
    (w : World) :
  out_shape = GetOutputShape in_shape sizes ->
  ValidateOutputShape out_shape in_shape sizes w = (inr tt, w).
Proof.
  intros ->. unfold Warp.ValidateOutputShape.
  now rewrite (proj2 (list_shape_eqb_eq _ _) eq_refl).
Qed.

Lemma Validate_fail (out_shape in_shape : TensorListShape) (sizes : list TensorShape2)
    (w : World) :
  out_shape <> GetOutputShape in_shape sizes ->
  ValidateOutputShape out_shape in_shape sizes w = (inl ShapeMismatch, w).
Proof.
  intros H. unfold Warp.ValidateOutputShape.
  rewrite list_shape_eqb_neq; [reflexivity | congruence].
Qed.

Lemma counts_agree_dec (outs ins : TensorListView) (modes : list DALIInterpType)
    (w : World) :
  {counts_agree outs ins modes w} + {~ counts_agree outs ins modes w}.
Proof.
  unfold counts_agree.
  destruct (Nat.eq_dec (length outs) (length (samples (setup w))));
    destruct (Nat.eq_dec (length ins) (length (samples (setup w))));
    destruct (Nat.eq_dec (length modes) (length (samples (setup w))));
    try (left; tauto); right; tauto.
Qed.

Lemma PrepareSamples_fail (outs ins : TensorListView) (modes : list DALIInterpType)
    (w : World) :
  ~ counts_agree outs ins modes w ->
  PrepareSamples outs ins modes w = (inl ArgumentCountMismatch, w).
Proof.
  intros H. unfold PrepareSamples, bind, gets. 
  destruct ((length outs =? _)%nat && (length ins =? _)%nat && (length modes =? _)%nat) eqn:E;
    [|reflexivity].
  exfalso. apply H.
  apply andb_prop in E as [E Em]. apply andb_prop in E as [Eo Ei].
  apply Nat.eqb_eq in Eo, Ei, Em. repeat split; assumption.
Qed.

Lemma PrepareSamples_ok (outs ins : TensorListView) (modes : list DALIInterpType)
    (w : World) :
  counts_agree outs ins modes w ->
  PrepareSamples outs ins modes w =
    (inr tt,
     mkWorld (mkSetup (fill_samples 0 (samples (setup w)) outs ins modes)
                      (blocks (setup w)) (classification (setup w))
                      (uniform_output_size (setup w)) (uniform_block_size (setup w))
                      (grid_dim (setup w)) (block_dim (setup w)))
             (enqueued w) (cuda_status w)).
Proof.
  intros (Ho & Hi & Hm). unfold PrepareSamples, bind, gets.
  rewrite Ho, Hi, Hm, !Nat.eqb_refl. reflexivity.
Qed.

Ltac through_launch :=
  right; rewrite <- app_assoc; simpl; repeat split; eauto.

(** Every outcome of [Run]: stopped by the shape check, stopped by the count
    check, stopped by a device error after staging, or through to the kernel
    launch.  The engine keeps its classification, blocks and launch
    dimensions throughout. *)
Lemma Run_outcome (ctx : KernelContext) (out in_ : TensorListView)
    (mapping : MappingTensor) (sizes : list TensorShape2)
    (interp : list DALIInterpType) (border : BorderType)
    (w w' : World) (r : Error + unit) :
  Run ctx out in_ mapping sizes interp border w = (r, w') ->
  let st := setup w' in
  let t := length (enqueued w) in
  let stage :=
    match classification st with
    | UniformSize => HostToDevice BorderType (stream ctx) [SampleArray (samples st)]
    | VariableSize =>
        HostToDevice BorderType (stream ctx) [SampleArray (samples st); BlockArray (blocks st)]
    end in
  let kernel :=
    match classification st with
    | UniformSize =>
        BatchWarpUniformSize (grid_dim st) (block_dim st) (stream ctx) (t, 0%nat)
          (uniform_output_size st) (uniform_block_size st) (mapping_data mapping) border
    | VariableSize =>
        BatchWarpVariableSize (grid_dim st) (block_dim st) (stream ctx) (t, 0%nat)
          (t, 1%nat) (mapping_data mapping) border
    end in
  (r = inl ShapeMismatch /\ w' = w
   /\ shapes out <> GetOutputShape (shapes in_) sizes)
  \/ (r = inl ArgumentCountMismatch /\ w' = w
      /\ shapes out = GetOutputShape (shapes in_) sizes
      /\ ~ counts_agree out in_ interp w)
  \/ (shapes out = GetOutputShape (shapes in_) sizes
      /\ counts_agree out in_ interp w
      /\ classification st = classification (setup w)
      /\ blocks st = blocks (setup w)
      /\ samples st = fill_samples 0 (samples (setup w)) out in_ interp
      /\ ((r = inl (DeviceOperationFailure (hd cudaSuccess (cuda_status w)))
           /\ hd cudaSuccess (cuda_status w) <> cudaSuccess
           /\ enqueued w' = enqueued w ++ [stage])
          \/ (hd cudaSuccess (cuda_status w) = cudaSuccess
              /\ enqueued w' = enqueued w ++ [stage; kernel]
              /\ (r = inr tt \/ exists e, r = inl (DeviceOperationFailure e))))).
Proof.
  intros H. cbv zeta.
  destruct (list_eq_dec (fun a b : TensorShape3 =>
              match Bool.bool_dec (shape3_eqb a b) true with
              | left e => left (proj1 (shape3_eqb_eq a b) e)
              | right n => right (fun e => n (proj2 (shape3_eqb_eq a b) e))
              end) (shapes out) (GetOutputShape (shapes in_) sizes)) as [Hs|Hs].
  2:{ left. unfold Warp.Run, bind in H. rewrite Validate_fail in H by exact Hs.
      injection H as <- <-. auto. }
  right.
  destruct (counts_agree_dec out in_ interp w) as [Hc|Hc].
  2:{ left. unfold Warp.Run, bind in H. rewrite Validate_ok in H by exact Hs.
      rewrite PrepareSamples_fail in H by exact Hc. injection H as <- <-. auto. }
  right. split; [exact Hs|]. split; [exact Hc|].
  unfold Warp.Run, bind in H. rewrite Validate_ok in H by exact Hs.
  rewrite PrepareSamples_ok in H by exact Hc.
  unfold GridDim, BlockDim, IsUniformSize, Samples, Blocks, UniformOutputSize,
    UniformBlockSize, ToGPU, ToContiguousGPU, CUDA_CALL, cudaGetLastError, launch,
    modify, gets, bind, ret, throw, enqueue in H.
  simpl in H.
  destruct (classification (setup w)) eqn:Ecl;
    destruct (cuda_status w) as [|e1 rest] eqn:Ecs; simpl in H.
  - injection H as <- <-. simpl. repeat (split; [reflexivity|]). through_launch.
  - destruct (e1 =? cudaSuccess) eqn:E1; simpl in H.
    + apply Z.eqb_eq in E1.
      destruct rest as [|e2 rest']; simpl in H.
      * injection H as <- <-. simpl. repeat (split; [reflexivity|]). through_launch.
      * destruct (e2 =? cudaSuccess); injection H as <- <-; simpl;
          repeat (split; [reflexivity|]); through_launch.
    + apply Z.eqb_neq in E1. injection H as <- <-. simpl.
      repeat (split; [reflexivity|]). left. repeat split; auto.
  - injection H as <- <-. simpl. repeat (split; [reflexivity|]). through_launch.
  - destruct (e1 =? cudaSuccess) eqn:E1; simpl in H.
    + apply Z.eqb_eq in E1.
      destruct rest as [|e2 rest']; simpl in H.
      * injection H as <- <-. simpl. repeat (split; [reflexivity|]). through_launch.
      * destruct (e2 =? cudaSuccess); injection H as <- <-; simpl;
          repeat (split; [reflexivity|]); through_launch.
    + apply Z.eqb_neq in E1. injection H as <- <-. simpl.
      repeat (split; [reflexivity|]). left. repeat split; auto.
Qed.

(** After [Setup] the engine has one descriptor per output shape. *)
Lemma Setup_batch_size (ctx : KernelContext) (in_ : TensorListView)
    (mapping : MappingTensor) (sizes : list TensorShape2)
    (interp : list DALIInterpType) (border : BorderType)
    (w w' : World) (req : KernelRequirements) :
  Setup ctx in_ mapping sizes interp border w = (inr req, w') ->
  length (samples (setup w')) = length (output_shapes req).
Proof.
  intros H. apply Setup_inv in H as (_ & Hreq & Hst & _).
  rewrite Hst, Hreq. simpl. apply length_map.
Qed.

(** *** C1 *)

(** C1. After a [Setup] for given input shapes and requested sizes, a [Run]
    whose output shapes differ from the shapes that [Setup] computed fails
    with ShapeMismatch and leaves the engine, the device queue and the
    pending device status exactly as they were: nothing is staged, no kernel
    is launched.  When the shapes are the same the check passes and [Run]
    does not fail with ShapeMismatch; it goes on to the staging and the
    launch: with agreeing argument counts and no device error reported after
    the transfer, it enqueues a transfer followed by a kernel. *)
Theorem Run_validates_output_shape
    (ctx0 ctx : KernelContext) (out in_ : TensorListView)
    (mapping0 mapping : MappingTensor) (sizes : list TensorShape2)
    (interp0 interp : list DALIInterpType) (border0 border : BorderType)
    (w0 w : World) (req : KernelRequirements) :
  Setup ctx0 in_ mapping0 sizes interp0 border0 w0 = (inr req, w) ->
  (shapes out <> output_shapes req ->
     Run ctx out in_ mapping sizes interp border w = (inl ShapeMismatch, w))
  /\ (shapes out = output_shapes req ->
        ValidateOutputShape (shapes out) (shapes in_) sizes w = (inr tt, w)
        /\ fst (Run ctx out in_ mapping sizes interp border w) <> inl ShapeMismatch
        /\ (length in_ = length out ->
            length interp = length out ->
            hd cudaSuccess (cuda_status w) = cudaSuccess ->
            exists r w' stage kernel,
              Run ctx out in_ mapping sizes interp border w = (r, w')
              /\ added w w' = [stage; kernel]
              /\ is_transfer stage = true
              /\ is_launch kernel = true)).
Proof.
  intros HS. pose proof (Setup_batch_size _ _ _ _ _ _ _ HS) as Hn.
  apply Setup_inv in HS as (_ & Hreq & _). rewrite Hreq in *.
  split; intros Hshape.
  - unfold Warp.Run, bind. now rewrite Validate_fail.
  - split; [now apply Validate_ok|].
    destruct (Run ctx out in_ mapping sizes interp border w) as [r w'] eqn:HR.
    apply Run_outcome in HR. cbv zeta in HR.
    split.
    + simpl.
      destruct HR as [(_ & _ & Hne) | [(-> & _) | (_ & _ & _ & _ & _ & Hq)]].
      * contradiction.
      * discriminate.
      * destruct Hq as [(-> & _) | (_ & _ & [-> | (e & ->)])]; discriminate.
    + intros Hin Hmodes Hdev.
      assert (Hout : length out = length (samples (setup w))).
      { rewrite Hn, <- Hshape. unfold shapes. now rewrite length_map. }
      exists r, w'.
      destruct HR as [(_ & _ & Hne) | [(_ & _ & _ & Hc) | (_ & _ & Hcl & _ & _ & Hq)]].
      * contradiction.
      * exfalso. apply Hc. unfold counts_agree. rewrite <- Hout. auto.
      * destruct Hq as [(_ & Hbad & _) | (_ & Hq & _)]; [contradiction|].
        do 2 eexists. split; [reflexivity|].
        split; [apply added_app; exact Hq|].
        destruct (classification (setup w')); split; reflexivity.
Qed.

(** *** C6 *)

(** C6 (as amended).  No [Run] launches more than one kernel.  A [Run] that
    returns without error has enqueued exactly one transfer and then exactly
    one kernel: on the uniform path the transfer carries only the sample
    descriptors and the uniform kernel receives the staged samples, the shared
    output size, the shared tile size, the mapping array and the border; on
    the variable path one transfer carries the sample and the block
    descriptors and the variable kernel receives the staged samples, the
    staged blocks, the mapping array and the border. *)
Theorem Run_dispatch (ctx : KernelContext) (out in_ : TensorListView)
    (mapping : MappingTensor) (sizes : list TensorShape2)
    (interp : list DALIInterpType) (border : BorderType)
    (w w' : World) (r : Error + unit) :
  Run ctx out in_ mapping sizes interp border w = (r, w') ->
  (launches (added w w') <= 1)%nat
  /\ (r = inr tt ->
      let st := setup w' in
      let t := length (enqueued w) in
      launches (added w w') = 1%nat
      /\ transfers (added w w') = 1%nat
      /\ staged (enqueued w') (t, 0%nat) = Some (SampleArray (samples st))
      /\ match classification st with
         | UniformSize =>
             added w w' =
               [HostToDevice BorderType (stream ctx) [SampleArray (samples st)];
                BatchWarpUniformSize (grid_dim st) (block_dim st) (stream ctx)
                  (t, 0%nat) (uniform_output_size st) (uniform_block_size st)
                  (mapping_data mapping) border]
         | VariableSize =>
             added w w' =
               [HostToDevice BorderType (stream ctx)
                  [SampleArray (samples st); BlockArray (blocks st)];
                BatchWarpVariableSize (grid_dim st) (block_dim st) (stream ctx)
                  (t, 0%nat) (t, 1%nat) (mapping_data mapping) border]
             /\ staged (enqueued w') (t, 1%nat) = Some (BlockArray (blocks st))
         end).
Proof.
  intros HR. apply Run_outcome in HR. cbv zeta in HR. cbv zeta.
  unfold launches, transfers.
  destruct HR as [(Hr & -> & _) | [(Hr & -> & _) | (_ & _ & _ & _ & _ & Hq)]].
  - rewrite added_same. split; [simpl; lia | intros ->; discriminate].
  - rewrite added_same. split; [simpl; lia | intros ->; discriminate].
  - destruct Hq as [(Hr & _ & Hq) | (_ & Hq & _)].
    + rewrite (added_app _ _ _ Hq). split; [|intros ->; discriminate].
      destruct (classification (setup w')); simpl; lia.
    + rewrite (added_app _ _ _ Hq). unfold staged. rewrite Hq.
      split; [destruct (classification (setup w')); simpl; lia|].
      intros _. simpl fst. simpl snd.
      rewrite !nth_error_app2 by lia. rewrite Nat.sub_diag.
      destruct (classification (setup w')); simpl; auto.
Qed.

(** *** C2 *)





(** *** C5 *)

Lemma fill_samples_fields (ss : list SampleDesc) :
  forall (i : nat) (outs ins : TensorListView) (modes : list DALIInterpType),
    length outs = length ss -> length ins = length ss -> length modes = length ss ->
    map output (fill_samples i ss outs ins modes) = map data outs
    /\ map input (fill_samples i ss outs ins modes) = map data ins
    /\ map interp (fill_samples i ss outs ins modes) = modes
    /\ map mapping_index (fill_samples i ss outs ins modes) = seq i (length ss)
    /\ map out_size (fill_samples i ss outs ins modes) = map out_size ss.
Proof.
  induction ss as [|s ss IH]; intros i [|o outs] [|x ins] [|m modes] Ho Hi Hm;
    simpl in *; try discriminate; auto.
  injection Ho as Ho. injection Hi as Hi. injection Hm as Hm.
  destruct (IH (S i) outs ins modes Ho Hi Hm) as (E1 & E2 & E3 & E4 & E5).
  rewrite E1, E2, E3, E4, E5. auto.
Qed.

(** C5. With [n] the batch size recorded by the preceding [Setup]: when the
    output buffers, the input buffers or the interpolation modes are not [n]
    in number, [PrepareSamples] fails with ArgumentCountMismatch and changes
    nothing; when all three are, it succeeds, touches no device state and
    descriptor [i] holds the pointers and the mode of sample [i]. *)
Theorem PrepareSamples_checks_counts
    (ctx0 : KernelContext) (in0 : TensorListView) (mapping0 : MappingTensor)
    (sizes0 : list TensorShape2) (interp0 : list DALIInterpType) (border0 : BorderType)
    (w0 w : World) (req : KernelRequirements)
    (outs ins : TensorListView) (modes : list DALIInterpType) :
  Setup ctx0 in0 mapping0 sizes0 interp0 border0 w0 = (inr req, w) ->
  let n := length (output_shapes req) in
  (length outs <> n \/ length ins <> n \/ length modes <> n ->
     PrepareSamples outs ins modes w = (inl ArgumentCountMismatch, w))
  /\ (length outs = n /\ length ins = n /\ length modes = n ->
        exists w',
          PrepareSamples outs ins modes w = (inr tt, w')
          /\ enqueued w' = enqueued w
          /\ map output (samples (setup w')) = map data outs
          /\ map input (samples (setup w')) = map data ins
          /\ map interp (samples (setup w')) = modes).
Proof.
  intros HS n. pose proof (Setup_batch_size _ _ _ _ _ _ _ HS) as Hn.
  fold n in Hn. split.
  - intros H. apply PrepareSamples_fail. unfold counts_agree. rewrite Hn.
    intros (Ho & Hi & Hm). destruct H as [H | [H | H]]; contradiction.
  - intros (Ho & Hi & Hm). eexists. split.
    + apply PrepareSamples_ok. unfold counts_agree. rewrite Hn. auto.
    + simpl. split; [reflexivity|].
      rewrite <- Hn in Ho, Hi, Hm.
      destruct (fill_samples_fields (samples (setup w)) 0 outs ins modes Ho Hi Hm)
        as (E1 & E2 & E3 & _).
      auto.
Qed.

End Properties.

End WarpFacts.

(** ** The block decomposer *)

Module BlockFacts.

Import Warp ShapeFacts WarpFacts.

(** *** Counting in lists *)

Lemma filter_map_length (A B : Type) (f : B -> bool) (g : A -> B) (l : list A) :
  length (filter f (map g l)) = length (filter (fun a => f (g a)) l).
Proof.
  induction l as [|a l IH]; simpl; [reflexivity|].
  destruct (f (g a)); simpl; now rewrite IH.
Qed.

Lemma filter_flat_map_length (A B : Type) (f : B -> bool) (g : A -> list B) (l : list A) :
  length (filter f (flat_map g l))
  = list_sum (map (fun a => length (filter f (g a))) l).
Proof.
  induction l as [|a l IH]; simpl; [reflexivity|].
  now rewrite filter_app, length_app, IH.
Qed.

Lemma list_sum_indicator (A : Type) (p : A -> bool) (c : nat) (l : list A) :
  list_sum (map (fun a => if p a then c else 0%nat) l) = (c * length (filter p l))%nat.
Proof.
  induction l as [|a l IH]; simpl; [lia|].
  rewrite IH. destruct (p a); simpl; lia.
Qed.

Ltac nat_cases :=
  repeat match goal with
         | |- context [(?x <=? ?y)%nat] => destruct (Nat.leb_spec x y)
         | |- context [(?x <? ?y)%nat] => destruct (Nat.ltb_spec x y)
         end;
  simpl; lia.

(** Among [a, a+1, ..., a+n-1] exactly one number equals [k0] when [k0] is in
    that range, none otherwise. *)
Lemma count_eq_in_seq (k0 n a : nat) :
  length (filter (fun k => k =? k0)%nat (seq a n))
  = if ((a <=? k0) && (k0 <? a + n))%nat then 1%nat else 0%nat.
Proof.
  revert a. induction n as [|n IH]; intros a; cbn [seq filter].
  - cbn [length]. nat_cases.
  - destruct (Nat.eqb_spec a k0); cbn [length]; rewrite IH; nat_cases.
Qed.

(** A predicate that singles out one index below [n] holds once on
    [0 .. n-1]. *)
Lemma count_unique_in_seq (p : nat -> bool) (n k0 : nat) :
  (k0 < n)%nat ->
  (forall k, (k < n)%nat -> p k = (k =? k0)%nat) ->
  length (filter p (seq 0 n)) = 1%nat.
Proof.
  intros Hk Hp.
  rewrite (filter_ext_in p (fun k => k =? k0)%nat).
  - rewrite count_eq_in_seq. simpl.
    assert (E : (k0 <? n)%nat = true) by (apply Nat.ltb_lt; lia).
    now rewrite E.
  - intros k Hin. apply in_seq in Hin. apply Hp. lia.
Qed.

(** Two different positions that satisfy [f] make the count at least two. *)
Lemma filter_two_positions (A : Type) (f : A -> bool) (l : list A) :
  forall (a b : nat) (x y : A),
    (a < b)%nat ->
    nth_error l a = Some x -> nth_error l b = Some y ->
    f x = true -> f y = true ->
    (2 <= length (filter f l))%nat.
Proof.
  induction l as [|h t IH]; intros a b x y Hab Ha Hb Hx Hy.
  - destruct a; discriminate.
  - destruct b as [|b']; [lia|]. simpl in Hb.
    destruct a as [|a']; simpl in Ha.
    + injection Ha as ->. simpl. rewrite Hx. simpl.
      apply nth_error_In in Hb.
      assert (Hin : In y (filter f t)) by (apply filter_In; auto).
      destruct (filter f t); [destruct Hin | simpl; lia].
    + assert (H2 : (2 <= length (filter f t))%nat).
      { apply (IH a' b' x y); auto. lia. }
      simpl. destruct (f h); simpl; lia.
Qed.

(** *** One axis *)

Section Axis.

Variables extent tile : Z.
Hypothesis tile_pos : 0 < tile.

Lemma div_ceil_bound (k : nat) :
  (k < Z.to_nat (div_ceil extent tile))%nat <-> Z.of_nat k * tile < extent.
Proof.
  unfold div_ceil.
  pose proof (Z.div_mod (extent + tile - 1) tile ltac:(lia)) as Hdm.
  pose proof (Z.mod_pos_bound (extent + tile - 1) tile tile_pos) as Hmod.
  set (q := (extent + tile - 1) / tile) in *.
  set (r := (extent + tile - 1) mod tile) in *.
  split; intros H.
  - assert (Z.of_nat k < q) by lia. nia.
  - assert (Z.of_nat k < q) by nia. lia.
Qed.

Lemma tile_starts_in (s : Z) :
  In s (tile_starts extent tile) <->
  exists k : nat, s = Z.of_nat k * tile /\ s < extent.
Proof.
  unfold tile_starts. rewrite in_map_iff. split.
  - intros (k & <- & Hin). apply in_seq in Hin. exists k. split; [reflexivity|].
    apply div_ceil_bound. lia.
  - intros (k & -> & Hlt). exists k. split; [reflexivity|].
    apply in_seq. apply div_ceil_bound in Hlt. lia.
Qed.

(** A coordinate inside the extent lies on exactly one tile. *)
Lemma axis_covered_once (x : Z) :
  0 <= x < extent ->
  length (filter (on_tile extent tile x) (tile_starts extent tile)) = 1%nat.
Proof.
  intros Hx. unfold tile_starts. rewrite filter_map_length.
  pose proof (Z.div_mod x tile ltac:(lia)) as Hdm.
  pose proof (Z.mod_pos_bound x tile tile_pos) as Hmod.
  assert (Hq : 0 <= x / tile) by (apply Z.div_pos; lia).
  apply (count_unique_in_seq _ (k0 := Z.to_nat (x / tile))).
  - apply div_ceil_bound. rewrite Z2Nat.id by exact Hq. nia.
  - intros k Hk. apply div_ceil_bound in Hk. unfold on_tile.
    destruct (k =? Z.to_nat (x / tile))%nat eqn:E.
    + apply Nat.eqb_eq in E. subst k. rewrite Z2Nat.id in * by exact Hq.
      apply andb_true_intro. split; [apply Z.leb_le | apply Z.ltb_lt]; nia.
    + apply Nat.eqb_neq in E.
      apply andb_false_iff.
      destruct (Z_lt_le_dec x (Z.of_nat k * tile)) as [Hlt|Hge].
      * left. apply Z.leb_gt. exact Hlt.
      * right. apply Z.ltb_ge.
        assert (Hk' : Z.of_nat k <> x / tile) by lia.
        assert (Z.of_nat k < x / tile \/ x / tile < Z.of_nat k) as [Hc|Hc] by lia; nia.
Qed.

(** A coordinate on a tile lies inside the extent. *)
Lemma on_tile_inside (x s : Z) :
  In s (tile_starts extent tile) -> on_tile extent tile x s = true -> 0 <= x < extent.
Proof.
  intros Hin H. apply tile_starts_in in Hin as (k & -> & Hlt).
  unfold on_tile in H. apply andb_prop in H as [H1 H2].
  apply Z.leb_le in H1. apply Z.ltb_lt in H2. nia.
Qed.

(** A tile is not empty, not larger than the nominal size, and ends inside
    the extent. *)
Lemma tile_extent_bounds (s : Z) :
  In s (tile_starts extent tile) ->
  0 <= s /\ 0 < Z.min tile (extent - s) <= tile /\ s + Z.min tile (extent - s) <= extent.
Proof.
  intros Hin. apply tile_starts_in in Hin as (k & -> & Hlt). nia.
Qed.

End Axis.

(** *** The plane of one sample, and the batch *)

Lemma filter_none (A : Type) (l : list A) : filter (fun _ => false) l = [].
Proof. induction l; simpl; auto. Qed.

Lemma StronglySorted_app (A : Type) (R : A -> A -> Prop) (l1 l2 : list A) :
  StronglySorted R l1 -> StronglySorted R l2 ->
  (forall x y, In x l1 -> In y l2 -> R x y) ->
  StronglySorted R (l1 ++ l2).
Proof.
  induction l1 as [|a l1 IH]; intros H1 H2 H12; simpl; [exact H2|].
  inversion H1 as [|? ? Hs Hf]; subst. constructor.
  - apply IH; auto. intros x y Hx Hy. apply H12; simpl; auto.
  - apply Forall_app. split; [exact Hf|].
    apply Forall_forall. intros y Hy. apply H12; simpl; auto.
Qed.

Lemma StronglySorted_constant (k : nat) (l : list nat) :
  (forall x, In x l -> x = k) -> StronglySorted le l.
Proof.
  induction l as [|a l IH]; intros H; constructor.
  - apply IH. intros x Hx. apply H. simpl; auto.
  - apply Forall_forall. intros x Hx.
    rewrite (H a), (H x); simpl; auto.
Qed.

Section Plane.

Variables tile_w tile_h : Z.

Local Abbreviation sample_blocks := (sample_blocks tile_w tile_h).
Local Abbreviation batch_blocks := (batch_blocks tile_w tile_h).

(** What the blocks of one sample look like. *)
Lemma in_sample_blocks (i : nat) (s : TensorShape3) (b : BlockDesc) :
  In b (sample_blocks i s) ->
  sample_idx b = i
  /\ In (start_x b) (tile_starts (width s) tile_w)
  /\ In (start_y b) (tile_starts (height s) tile_h)
  /\ extent_x b = Z.min tile_w (width s - start_x b)
  /\ extent_y b = Z.min tile_h (height s - start_y b).
Proof.
  unfold Warp.sample_blocks. rewrite in_flat_map.
  intros (y0 & Hy & Hb). apply in_map_iff in Hb as (x0 & <- & Hx). simpl. auto.
Qed.

Lemma in_batch_blocks (l : TensorListShape) :
  forall (k : nat) (b : BlockDesc),
    In b (batch_blocks k l) ->
    (k <= sample_idx b)%nat
    /\ exists s, nth_error l (sample_idx b - k) = Some s /\ In b (sample_blocks (sample_idx b) s).
Proof.
  induction l as [|s l IH]; intros k b Hin; simpl in Hin; [destruct Hin|].
  apply in_app_or in Hin as [Hin|Hin].
  - pose proof (in_sample_blocks _ _ _ Hin) as (Hi & _). subst k.
    split; [lia|]. exists s. rewrite Nat.sub_diag. auto.
  - destruct (IH _ _ Hin) as (Hk & s' & Hn & Hb). split; [lia|].
    exists s'. split; [|exact Hb].
    replace (sample_idx b - k)%nat with (S (sample_idx b - S k)) by lia. exact Hn.
Qed.

(** Sample-major order. *)
Lemma batch_blocks_sorted (l : TensorListShape) :
  forall k : nat, StronglySorted le (map sample_idx (batch_blocks k l)).
Proof.
  induction l as [|s l IH]; intros k; simpl; [constructor|].
  rewrite map_app. apply StronglySorted_app.
  - apply StronglySorted_constant with (k := k). intros x Hx.
    apply in_map_iff in Hx as (b & <- & Hb). now apply in_sample_blocks in Hb.
  - apply IH.
  - intros x y Hx Hy.
    apply in_map_iff in Hx as (b & <- & Hb). apply in_sample_blocks in Hb as (-> & _).
    apply in_map_iff in Hy as (c & <- & Hc). apply in_batch_blocks in Hc as (Hc & _). lia.
Qed.

(** The number of blocks of sample [j] among those of sample [i] that contain
    a pixel is the product of the counts along the two axes. *)
Lemma covering_sample_blocks (i j : nat) (s : TensorShape3) (x y : Z) :
  covering (sample_blocks i s) j x y
  = if (i =? j)%nat
    then (length (filter (on_tile (width s) tile_w x) (tile_starts (width s) tile_w))
          * length (filter (on_tile (height s) tile_h y) (tile_starts (height s) tile_h)))%nat
    else 0%nat.
Proof.
  unfold covering, Warp.sample_blocks.
  rewrite filter_flat_map_length.
  set (cx := length (filter (on_tile (width s) tile_w x) (tile_starts (width s) tile_w))).
  rewrite (map_ext _
             (fun y0 => if (i =? j)%nat && on_tile (height s) tile_h y y0
                        then cx else 0%nat)).
  - rewrite list_sum_indicator.
    destruct (i =? j)%nat; simpl; [reflexivity|].
    rewrite filter_none. simpl. lia.
  - intros y0. rewrite filter_map_length. unfold in_block, on_tile. simpl.
    destruct (i =? j)%nat; simpl; [|now rewrite filter_none].
    destruct ((y0 <=? y) && (y <? y0 + Z.min tile_h (height s - y0))) eqn:E.
    + unfold cx. f_equal. apply filter_ext. intros x0.
      rewrite <- andb_assoc, E. unfold on_tile. now rewrite andb_true_r.
    + rewrite (filter_ext _ (fun _ => false)); [now rewrite filter_none|].
      intros x0. rewrite <- andb_assoc, E. apply andb_false_r.
Qed.

Lemma covering_app (bs1 bs2 : list BlockDesc) (i : nat) (x y : Z) :
  covering (bs1 ++ bs2) i x y = (covering bs1 i x y + covering bs2 i x y)%nat.
Proof. unfold covering. now rewrite filter_app, length_app. Qed.

Lemma covering_batch_blocks (i : nat) (x y : Z) (l : TensorListShape) :
  forall k : nat,
    covering (batch_blocks k l) i x y
    = if (k <=? i)%nat
      then match nth_error l (i - k) with
           | Some s => covering (sample_blocks i s) i x y
           | None => 0%nat
           end
      else 0%nat.
Proof.
  induction l as [|s l IH]; intros k; cbn [Warp.batch_blocks].
  - destruct (k <=? i)%nat; [|reflexivity]. now destruct (i - k)%nat.
  - rewrite covering_app, IH, covering_sample_blocks.
    destruct (Nat.eqb_spec k i) as [->|Hne].
    + rewrite Nat.sub_diag. cbn [nth_error].
      destruct (Nat.leb_spec (S i) i); [lia|].
      destruct (Nat.leb_spec i i); [|lia].
      rewrite covering_sample_blocks, Nat.eqb_refl. lia.
    + destruct (Nat.leb_spec (S k) i); destruct (Nat.leb_spec k i); try lia.
      replace (i - k)%nat with (S (i - S k)) by lia. reflexivity.
Qed.

Hypothesis tile_w_pos : 0 < tile_w.
Hypothesis tile_h_pos : 0 < tile_h.

(** Every pixel of a sample's output plane lies in exactly one block of that
    sample. *)
Lemma batch_blocks_cover_once (l : TensorListShape) (i : nat) (s : TensorShape3) (x y : Z) :
  nth_error l i = Some s ->
  0 <= x < width s -> 0 <= y < height s ->
  covering (batch_blocks 0 l) i x y = 1%nat.
Proof.
  intros Hn Hx Hy. rewrite covering_batch_blocks. simpl.
  rewrite Nat.sub_0_r, Hn, covering_sample_blocks, Nat.eqb_refl.
  rewrite (@axis_covered_once (width s) tile_w tile_w_pos x Hx).
  rewrite (@axis_covered_once (height s) tile_h tile_h_pos y Hy). reflexivity.
Qed.

(** A block lies inside the output plane of its sample, is not empty and not
    larger than the nominal tile. *)
Lemma batch_blocks_inside (l : TensorListShape) (b : BlockDesc) :
  In b (batch_blocks 0 l) ->
  exists s,
    nth_error l (sample_idx b) = Some s
    /\ 0 <= start_x b /\ 0 < extent_x b <= tile_w
    /\ start_x b + extent_x b <= width s
    /\ 0 <= start_y b /\ 0 < extent_y b <= tile_h
    /\ start_y b + extent_y b <= height s
    /\ extent_x b = Z.min tile_w (width s - start_x b)
    /\ extent_y b = Z.min tile_h (height s - start_y b).
Proof.
  intros Hin. apply in_batch_blocks in Hin as (_ & s & Hn & Hb).
  rewrite Nat.sub_0_r in Hn. exists s. split; [exact Hn|].
  apply in_sample_blocks in Hb as (_ & Hx & Hy & Ex & Ey).
  pose proof (@tile_extent_bounds (width s) tile_w tile_w_pos _ Hx).
  pose proof (@tile_extent_bounds (height s) tile_h tile_h_pos _ Hy).
  rewrite Ex, Ey. intuition lia.
Qed.

End Plane.

(** *** C3 *)

Section Decomposer.

Variable BorderType : Type.
Variable GetOutputShape : TensorListShape -> list TensorShape2 -> TensorListShape.
Variables tile_w tile_h : Z.

Variable NDEBUG : bool.

Local Abbreviation Setup := (@Setup BorderType GetOutputShape tile_w tile_h NDEBUG).

(** C3. For a batch that [Setup] classified as variable: every pixel of a
    sample's output plane lies in exactly one block of that sample; two
    different blocks of one sample share no pixel; every block lies inside the
    output plane of the sample it names, is not empty, and has the extent
    [min(tile, remaining)] along each axis, so a trailing tile keeps its true
    smaller extent; and the blocks come in sample-major order. *)
Theorem blocks_tile_each_sample
    (ctx : KernelContext) (in_ : TensorListView) (mapping : MappingTensor)
    (sizes : list TensorShape2) (interp : list DALIInterpType) (border : BorderType)
    (w0 w : World BorderType) (req : KernelRequirements) :
  0 < tile_w -> 0 < tile_h ->
  Setup ctx in_ mapping sizes interp border w0 = (inr req, w) ->
  classification (setup w) = VariableSize ->
  let bs := blocks (setup w) in
  (forall i s x y,
      nth_error (output_shapes req) i = Some s ->
      0 <= x < width s -> 0 <= y < height s ->
      covering bs i x y = 1%nat)
  /\ (forall a b ba bb x y,
        a <> b ->
        nth_error bs a = Some ba -> nth_error bs b = Some bb ->
        sample_idx ba = sample_idx bb ->
        in_block ba x y = true -> in_block bb x y = true -> False)
  /\ (forall b,
        In b bs ->
        exists s,
          nth_error (output_shapes req) (sample_idx b) = Some s
          /\ 0 <= start_x b /\ 0 < extent_x b <= tile_w
          /\ start_x b + extent_x b <= width s
          /\ 0 <= start_y b /\ 0 < extent_y b <= tile_h
          /\ start_y b + extent_y b <= height s
          /\ extent_x b = Z.min tile_w (width s - start_x b)
          /\ extent_y b = Z.min tile_h (height s - start_y b))
  /\ StronglySorted le (map sample_idx bs).
Proof.
  intros Hw Hh HS Hcl bs.
  apply Setup_inv in HS as (_ & Hreq & Hst & _). rewrite Hreq.
  set (os := GetOutputShape (shapes in_) sizes) in *.
  assert (Hbs : bs = batch_blocks tile_w tile_h 0 os).
  { unfold bs. rewrite Hst in *. simpl in *.
    destruct (is_uniform os); [discriminate | reflexivity]. }
  rewrite Hbs. clear Hbs bs.
  assert (Hcover : forall i s x y,
             nth_error os i = Some s -> 0 <= x < width s -> 0 <= y < height s ->
             covering (batch_blocks tile_w tile_h 0 os) i x y = 1%nat).
  { intros i s x y Hn Hx Hy. now apply batch_blocks_cover_once with (s := s). }
  assert (Hinside := fun b => @batch_blocks_inside tile_w tile_h Hw Hh os b).
  split; [exact Hcover|]. split; [|split; [exact Hinside|apply batch_blocks_sorted]].
  intros a b ba bb x y Hab Ha Hb Hsame Hina Hinb.
  destruct (Hinside ba (nth_error_In _ _ Ha))
    as (s & Hn & Hx0 & Hex & Hxe & Hy0 & Hey & Hye & _).
  assert (Hpix : 0 <= x < width s /\ 0 <= y < height s).
  { unfold in_block in Hina.
    apply andb_prop in Hina as [Hina H4]. apply andb_prop in Hina as [Hina H3].
    apply andb_prop in Hina as [H1 H2].
    apply Z.leb_le in H1, H3. apply Z.ltb_lt in H2, H4. lia. }
  pose proof (Hcover _ _ x y Hn (proj1 Hpix) (proj2 Hpix)) as Hone.
  set (f := fun c : BlockDesc => (sample_idx c =? sample_idx ba)%nat && in_block c x y).
  assert (Hfa : f ba = true) by (unfold f; now rewrite Nat.eqb_refl, Hina).
  assert (Hfb : f bb = true) by (unfold f; now rewrite <- Hsame, Nat.eqb_refl, Hinb).
  assert (Htwo : (2 <= length (filter f (batch_blocks tile_w tile_h 0 os)))%nat).
  { destruct (Nat.lt_total a b) as [Hlt | [Heq | Hgt]]; [|contradiction|].
    - exact (filter_two_positions f _ Hlt Ha Hb Hfa Hfb).
    - exact (filter_two_positions f _ Hgt Hb Ha Hfb Hfa). }
  unfold covering in Hone. fold f in Hone. lia.
Qed.

End Decomposer.

End BlockFacts.

(** ** The external source hand-off *)

Module ExternalSourceFacts.

Import ExternalSource.

Lemma to_int_small (z : Z) : - 2 ^ 31 <= z < 2 ^ 31 -> to_int z = z.
Proof.
  intros H. unfold to_int. rewrite Z.mod_small; lia.
Qed.

Lemma appended_app (op op' : Operator) (l : list SyncEvent) :
  events op' = events op ++ l -> appended op op' = l.
Proof.
  intros H. unfold appended. rewrite H.
  rewrite skipn_app, skipn_all, Nat.sub_diag. reflexivity.
Qed.

(** Runs the step on an explicit operator state, by value. *)
Ltac run_step H :=
  cbv beta iota zeta delta
    [RunImpl fed Copy DALI_ENFORCE store_samples_processed store_busy emit
     bind gets modify ret throw
     batch_size_ data_in_tl_ tl_data_ t_data_ samples_processed_ busy_ events] in H;
  cbv beta iota zeta delta
    [fed batch_size_ data_in_tl_ tl_data_ t_data_ samples_processed_ busy_ events].

(** What a consume step that returns has done. *)
Lemma RunImpl_inv (ws ws' : SampleWorkspace) (op op' : Operator) :
  RunImpl ws op = (inr ws', op') ->
  let c1 := to_int (samples_processed_ op + 1) in
  batch_size_ op = to_int (Z.of_nat (length (fed op)))
  /\ (exists t, nth_error (fed op) (data_idx ws) = Some t
                /\ ws' = mkWorkspace (data_idx ws) (has_stream ws) (ws_stream ws) t)
  /\ op' =
       if c1 >=? batch_size_ op then
         mkOperator (batch_size_ op) (data_in_tl_ op) (tl_data_ op) (t_data_ op) 0 false
           (events op ++ [Lock samples_processed_m_; StoreSamplesProcessed c1;
                          StoreSamplesProcessed 0; Lock busy_m_; StoreBusy false;
                          Unlock busy_m_; NotifyOne; Unlock samples_processed_m_])
       else
         mkOperator (batch_size_ op) (data_in_tl_ op) (tl_data_ op) (t_data_ op) c1 (busy_ op)
           (events op ++ [Lock samples_processed_m_; StoreSamplesProcessed c1;
                          Unlock samples_processed_m_]).
Proof.
  destruct op as [bs tl tld td sp bz ev]. intros H. run_step H.
  destruct tl.
  - destruct (bs =? to_int (Z.of_nat (length tld))) eqn:Eb; [|discriminate].
    apply Z.eqb_eq in Eb.
    destruct (nth_error tld (data_idx ws)) as [t|] eqn:Et; [|discriminate].
    destruct (to_int (sp + 1) >=? bs) eqn:Ec; injection H as <- <-;
      repeat rewrite <- app_assoc; simpl; eauto.
  - destruct (bs =? to_int (Z.of_nat (length td))) eqn:Eb; [|discriminate].
    apply Z.eqb_eq in Eb.
    destruct (nth_error td (data_idx ws)) as [t|] eqn:Et; [|discriminate].
    destruct (to_int (sp + 1) >=? bs) eqn:Ec; injection H as <- <-;
      repeat rewrite <- app_assoc; simpl; eauto.
Qed.

(** A failed precondition check stops the step before the counter is
    touched. *)
Lemma RunImpl_error_keeps_state (ws : SampleWorkspace) (op op' : Operator) (e : Error) :
  RunImpl ws op = (inl e, op') -> op' = op.
Proof.
  destruct op as [bs tl tld td sp bz ev]. intros H. run_step H.
  destruct tl.
  - destruct (bs =? _); [|now injection H as _ <-].
    destruct (nth_error _ _); [|now injection H as _ <-].
    destruct (_ >=? _); discriminate.
  - destruct (bs =? _); [|now injection H as _ <-].
    destruct (nth_error _ _); [|now injection H as _ <-].
    destruct (_ >=? _); discriminate.
Qed.

(** One consume step, with the counter in range before it. *)
Lemma RunImpl_step (ws ws' : SampleWorkspace) (op op' : Operator) :
  counter_in_range op ->
  RunImpl ws op = (inr ws', op') ->
  batch_size_ op' = batch_size_ op
  /\ (samples_processed_ op + 1 = batch_size_ op ->
        samples_processed_ op' = 0 /\ busy_ op' = false
        /\ notifications (appended op op') = 1%nat)
  /\ (samples_processed_ op + 1 <> batch_size_ op ->
        samples_processed_ op' = samples_processed_ op + 1 /\ busy_ op' = busy_ op
        /\ notifications (appended op op') = 0%nat)
  /\ guarded [] (appended op op') = true
  /\ counter_in_range op'.
Proof.
  intros ((Hc0 & Hc1) & Hmax) H. unfold INT_MAX in Hmax.
  apply RunImpl_inv in H. cbv zeta in H. destruct H as (_ & _ & Hop).
  rewrite to_int_small in Hop by lia.
  unfold counter_in_range, INT_MAX.
  destruct (samples_processed_ op + 1 >=? batch_size_ op) eqn:Ec; subst op'.
  - assert (samples_processed_ op + 1 = batch_size_ op) by lia.
    unfold appended; simpl; rewrite skipn_app, skipn_all, Nat.sub_diag; simpl.
    repeat split; auto; try lia; intros; try lia; reflexivity.
  - assert (samples_processed_ op + 1 < batch_size_ op) by lia.
    unfold appended; simpl; rewrite skipn_app, skipn_all, Nat.sub_diag; simpl.
    repeat split; auto; try lia; intros; try lia; reflexivity.
Qed.

(** The range of the counter survives any number of consume steps. *)
Lemma consume_keeps_range (wss : list SampleWorkspace) :
  forall (op op' : Operator),
    counter_in_range op ->
    consume wss op = (inr tt, op') ->
    counter_in_range op'.
Proof.
  induction wss as [|ws wss IH]; intros op op' Hr H; simpl in H.
  - unfold ret in H. now injection H as <-.
  - unfold bind in H.
    destruct (RunImpl ws op) as [[e|ws'] op1] eqn:E; [discriminate|].
    apply (IH op1); [|exact H].
    exact (proj2 (proj2 (proj2 (proj2 (@RunImpl_step ws ws' op op1 Hr E))))).
Qed.

(** C8. With the counter in range before the step, a consume step that
    returns has incremented the counter under [samples_processed_m_]; exactly
    when the incremented counter equals the batch size it put the counter back
    to zero, cleared the busy flag (under [busy_m_]) and signalled the
    condition variable once, and otherwise it did none of these; afterwards,
    and after any further consume steps, the counter is strictly below the
    batch size. *)
Theorem RunImpl_counts_batch (ws ws' : SampleWorkspace) (op op' : Operator) :
  counter_in_range op ->
  RunImpl ws op = (inr ws', op') ->
  (samples_processed_ op + 1 = batch_size_ op ->
     samples_processed_ op' = 0 /\ busy_ op' = false
     /\ notifications (appended op op') = 1%nat)
  /\ (samples_processed_ op + 1 <> batch_size_ op ->
        samples_processed_ op' = samples_processed_ op + 1 /\ busy_ op' = busy_ op
        /\ notifications (appended op op') = 0%nat)
  /\ guarded [] (appended op op') = true
  /\ In (StoreSamplesProcessed (samples_processed_ op + 1)) (appended op op')
  /\ samples_processed_ op' < batch_size_ op'
  /\ (forall wss op'',
        consume wss op' = (inr tt, op'') ->
        samples_processed_ op'' < batch_size_ op'').
Proof.
  intros Hr H.
  destruct (@RunImpl_step ws ws' op op' Hr H) as (Hb & Hreset & Hkeep & Hg & Hr').
  split; [exact Hreset|]. split; [exact Hkeep|]. split; [exact Hg|].
  split; [|split].
  - destruct Hr as ((Hc0 & Hc1) & Hmax). unfold INT_MAX in Hmax.
    apply RunImpl_inv in H. cbv zeta in H. destruct H as (_ & _ & Hop).
    rewrite to_int_small in Hop by lia.
    destruct (samples_processed_ op + 1 >=? batch_size_ op); subst op';
      unfold appended; simpl; rewrite skipn_app, skipn_all, Nat.sub_diag; simpl; auto.
  - apply Hr'.
  - intros wss op'' Hc. apply (@consume_keeps_range wss op' op'' Hr' Hc).
Qed.

End ExternalSourceFacts.

(** ** The LMDB loader *)

Module LMDBFacts.

Import LMDB.

Lemma bind_ok (S A B : Type) (m : M S A) (k : A -> M S B) (s s' : S) (a : A) :
  m s = (inr a, s') -> bind m k s = k a s'.
Proof. intros H. unfold bind. now rewrite H. Qed.

Lemma to_size_t_small (z : Z) : 0 <= z < 2 ^ 63 -> to_size_t z = z.
Proof. intros H. unfold to_size_t. apply Z.mod_small. lia. Qed.

(** Runs the first computation of a sequence, given its outcome. *)
Ltac step_with tac := erewrite bind_ok; [| tac].

(** *** Cursor movements *)

Section Cursor.

Variable mdb_strerror : Z -> String.string.
Variables (entries : list (MDB_val * MDB_val)) (idx size sid ns : Z) (path : String.string).

Local Abbreviation SeekLMDB := (SeekLMDB mdb_strerror).
Local Abbreviation seek_forward := (seek_forward mdb_strerror).

Lemma seek_next_moves (p : nat) (k v k' v' : MDB_val) :
  nth_error entries (S p) = Some (k', v') ->
  SeekLMDB MDB_NEXT path (mkLoader entries (Some p) k v idx size sid ns path)
  = (inr true, mkLoader entries (Some (S p)) k' v' idx size sid ns path).
Proof.
  intros H. unfold LMDB.SeekLMDB, mdb_cursor_get, bind. cbn [db mdb_cursor_]. rewrite H.
  reflexivity.
Qed.

Lemma seek_next_at_end (p : nat) (k v : MDB_val) :
  nth_error entries (S p) = None ->
  SeekLMDB MDB_NEXT path (mkLoader entries (Some p) k v idx size sid ns path)
  = (inr false, mkLoader entries (Some p) k v idx size sid ns path).
Proof.
  intros H. unfold LMDB.SeekLMDB, mdb_cursor_get, bind. cbn [db mdb_cursor_]. rewrite H.
  reflexivity.
Qed.

Lemma seek_first_moves (c : option nat) (k v k' v' : MDB_val) :
  nth_error entries 0 = Some (k', v') ->
  SeekLMDB MDB_FIRST path (mkLoader entries c k v idx size sid ns path)
  = (inr true, mkLoader entries (Some 0%nat) k' v' idx size sid ns path).
Proof.
  intros H. unfold LMDB.SeekLMDB, mdb_cursor_get, bind. cbn [db mdb_cursor_]. rewrite H.
  reflexivity.
Qed.

(** The loop of [Reset] walks [n] entries forward when the database has
    them. *)
Lemma seek_forward_moves (n : nat) :
  forall (p : nat) (k v : MDB_val),
    (p + n < length entries)%nat ->
    nth_error entries p = Some (k, v) ->
    exists k' v',
      nth_error entries (p + n) = Some (k', v')
      /\ seek_forward n (mkLoader entries (Some p) k v idx size sid ns path)
         = (inr tt, mkLoader entries (Some (p + n)%nat) k' v' idx size sid ns path).
Proof.
  induction n as [|n IH]; intros p k v Hlen Hp.
  - exists k, v. rewrite Nat.add_0_r. split; [exact Hp | reflexivity].
  - destruct (nth_error entries (S p)) as [[k1 v1]|] eqn:E1.
    2:{ apply nth_error_None in E1. lia. }
    destruct (IH (S p) k1 v1 ltac:(lia) E1) as (k' & v' & Hn & Hs).
    exists k', v'. replace (p + S n)%nat with (S p + n)%nat by lia.
    split; [exact Hn|].
    cbn [LMDB.seek_forward].
    step_with ltac:(reflexivity).
    step_with ltac:(apply seek_next_moves; exact E1).
    step_with ltac:(reflexivity).
    step_with ltac:(reflexivity).
    exact Hs.
Qed.

End Cursor.

(** *** [Reset] and [ReadSample] *)

Ltac fields :=
  cbn [db mdb_cursor_ key_ value_ current_index_ lmdb_size_ shard_id_ num_shards_
       db_path_].

Ltac fields_in H :=
  cbn [db mdb_cursor_ key_ value_ current_index_ lmdb_size_ shard_id_ num_shards_
       db_path_] in H.

Section Reader.

Variable mdb_strerror : Z -> String.string.
Variable start_index : Z -> Z -> Z -> Z.
Variable IsNextShard : Z -> Z -> Z -> Z -> bool.
Variable ShouldSkipImage : String.string -> bool.

Local Abbreviation SeekLMDB := (SeekLMDB mdb_strerror).
Local Abbreviation Reset := (Reset mdb_strerror start_index).
Local Abbreviation MoveToNextShard := (MoveToNextShard mdb_strerror start_index IsNextShard).
Local Abbreviation ReadSample :=
  (ReadSample mdb_strerror start_index IsNextShard ShouldSkipImage).
Local Abbreviation next_index := (next_index start_index IsNextShard).
Local Abbreviation fill_tensor := (fill_tensor ShouldSkipImage).
Local Abbreviation sample_of := (sample_of ShouldSkipImage).

(** The start of the loader's shard. *)
Local Abbreviation shard_first st :=
  (start_index (shard_id_ st) (num_shards_ st) (lmdb_size_ st)).

(** [Reset(true)] puts the cursor on the first entry of the shard. *)
Lemma Reset_wraps_to_shard (st : LMDBLoader) :
  lmdb_size_ st = Z.of_nat (length (db st)) ->
  lmdb_size_ st < 2 ^ 63 ->
  0 <= shard_first st < lmdb_size_ st ->
  exists k v,
    nth_error (db st) (Z.to_nat (shard_first st)) = Some (k, v)
    /\ Reset true st
       = (inr tt,
          mkLoader (db st) (Some (Z.to_nat (shard_first st))) k v (shard_first st)
                   (lmdb_size_ st) (shard_id_ st) (num_shards_ st) (db_path_ st)).
Proof.
  destruct st as [entries cur k0 v0 idx size sid ns path]. fields.
  intros Hsize Hmax Hstart.
  set (start := start_index sid ns size) in *.
  destruct (nth_error entries 0) as [[k1 v1]|] eqn:E0.
  2:{ apply nth_error_None in E0. lia. }
  destruct (@seek_forward_moves mdb_strerror entries start size sid ns path
              (Z.to_nat start) 0%nat k1 v1 ltac:(lia) E0) as (k & v & Hn & Hs).
  simpl in Hn, Hs. exists k, v. split; [exact Hn|].
  unfold LMDB.Reset, Size, SizeImpl.
  step_with ltac:(reflexivity). fields.
  step_with ltac:(reflexivity). fields.
  step_with ltac:(reflexivity). fields.
  step_with ltac:(reflexivity). fields.
  step_with ltac:(reflexivity). fields.
  fold start. rewrite to_size_t_small by lia.
  step_with ltac:(apply seek_first_moves; exact E0).
  step_with ltac:(reflexivity).
  step_with ltac:(reflexivity). fields.
  exact Hs.
Qed.

(** Copying a whole value into a tensor resized to the value's size leaves
    exactly the item in the buffer. *)
Lemma memcpy_whole_value (t : Tensor) (v : MDB_val) :
  raw_data (memcpy (Resize t (mv_size v)) (mv_data v) (mv_size v * 1)) = item v.
Proof.
  unfold memcpy, Resize, item. cbn [raw_data].
  rewrite Z.mul_1_r.
  rewrite skipn_all2; [apply app_nil_r|].
  rewrite length_firstn. lia.
Qed.

Lemma item_length (v : MDB_val) :
  readable v -> Z.of_nat (length (item v)) = mv_size v.
Proof. unfold readable, item. intros H. rewrite length_firstn. lia. Qed.

(** The tensor [ReadSample] builds for an image key and a value. *)
Lemma fill_tensor_fields (tensor : Tensor) (image_key : String.string) (v : MDB_val) :
  type (fill_tensor tensor image_key v) = UInt8
  /\ source_info (meta (fill_tensor tensor image_key v)) = image_key
  /\ (if ShouldSkipImage image_key
      then skip_sample (meta (fill_tensor tensor image_key v)) = true
           /\ raw_data (fill_tensor tensor image_key v) = []
           /\ tensor_shape (fill_tensor tensor image_key v) = [0]
      else skip_sample (meta (fill_tensor tensor image_key v)) = false
           /\ raw_data (fill_tensor tensor image_key v) = item v
           /\ tensor_shape (fill_tensor tensor image_key v) = [mv_size v]).
Proof.
  unfold LMDB.fill_tensor. cbv zeta.
  destruct (ShouldSkipImage image_key).
  - repeat split.
  - rewrite memcpy_whole_value. repeat split.
Qed.

(** The end of [ReadSample], from the read of [key_] on. *)
Lemma ReadSample_tail (tensor : Tensor) (path : String.string) (st : LMDBLoader) :
  (key <- gets key_ ;;
   image_key <- outcome (image_key_of path key) ;;
   value <- gets value_ ;;
   ret (fill_tensor tensor image_key value))%exec st
  = (sample_of tensor path (key_ st, value_ st), st).
Proof.
  unfold bind, gets, outcome, ret, LMDB.sample_of. cbn [fst snd].
  destruct (image_key_of path (key_ st)); reflexivity.
Qed.

(** One read on a positioned loader: the state it leaves and what it
    returns. *)
Lemma ReadSample_step (tensor : Tensor) (st : LMDBLoader) :
  positioned st ->
  0 <= shard_first st < lmdb_size_ st ->
  (forall i, lmdb_size_ st <= i ->
             IsNextShard (shard_id_ st) (num_shards_ st) (lmdb_size_ st) i = true) ->
  exists k v,
    nth_error (db st) (Z.to_nat (next_index st)) = Some (k, v)
    /\ 0 <= next_index st < lmdb_size_ st
    /\ ReadSample tensor st
       = (sample_of tensor (db_path_ st) (k, v),
          mkLoader (db st) (Some (Z.to_nat (next_index st))) k v (next_index st)
                   (lmdb_size_ st) (shard_id_ st) (num_shards_ st) (db_path_ st)).
Proof.
  destruct st as [entries cur k0 v0 idx size sid ns path].
  unfold positioned, LMDB.next_index. fields.
  intros (Hsize & Hmax & Hidx & Hcur & Hentry) Hstart Hend. subst cur.
  set (start := start_index sid ns size) in *.
  (* the first seek: one entry further, or stopped at the end *)
  assert (Hseek : exists k1 v1 c1,
             SeekLMDB MDB_NEXT path
               (mkLoader entries (Some (Z.to_nat idx)) k0 v0 idx size sid ns path)
             = (inr c1, mkLoader entries
                          (Some (if idx + 1 <? size then S (Z.to_nat idx) else Z.to_nat idx))
                          k1 v1 idx size sid ns path)
             /\ (idx + 1 < size -> nth_error entries (S (Z.to_nat idx)) = Some (k1, v1))).
  { destruct (nth_error entries (S (Z.to_nat idx))) as [[k1 v1]|] eqn:E1.
    - assert (idx + 1 < size).
      { assert (S (Z.to_nat idx) < length entries)%nat
          by (apply nth_error_Some; congruence). lia. }
      exists k1, v1, true. destruct (Z.ltb_spec (idx + 1) size); [|lia].
      split; [now apply seek_next_moves | auto].
    - assert (size <= idx + 1) by (apply nth_error_None in E1; lia).
      exists k0, v0, false. destruct (Z.ltb_spec (idx + 1) size); [lia|].
      split; [now apply seek_next_at_end | lia]. }
  destruct Hseek as (k1 & v1 & c1 & Hseek & Hnext).
  unfold LMDB.ReadSample.
  destruct (IsNextShard sid ns size (idx + 1)) eqn:Eshard.
  - (* past the end of the shard: wrap *)
    match type of Hseek with
    | _ = (_, ?s) =>
        destruct (@Reset_wraps_to_shard
                    (mkLoader entries (mdb_cursor_ s) k1 v1 (idx + 1) size sid ns path)
                    Hsize Hmax Hstart) as (k & v & Hn & HR)
    end.
    fields. fold start in Hn, HR. cbn [mdb_cursor_] in HR.
    exists k, v. split; [exact Hn|]. split; [lia|].
    step_with ltac:(reflexivity). fields.
    step_with ltac:(exact Hseek).
    step_with ltac:(reflexivity). fields.
    step_with ltac:(reflexivity). fields.
    rewrite to_size_t_small by lia.
    unfold LMDB.MoveToNextShard, Size, SizeImpl.
    step_with ltac:(unfold bind; cbn [gets lmdb_size_ shard_id_ num_shards_];
                    rewrite Eshard; exact HR).
    apply ReadSample_tail.
  - (* inside the shard: the next entry *)
    assert (Hlt : idx + 1 < size).
    { destruct (Z_lt_le_dec (idx + 1) size) as [Hlt|Hge]; [exact Hlt|].
      rewrite (Hend _ Hge) in Eshard. discriminate. }
    specialize (Hnext Hlt).
    destruct (Z.ltb_spec (idx + 1) size); [|lia].
    replace (Z.to_nat (idx + 1)) with (S (Z.to_nat idx)) by lia.
    exists k1, v1. split; [exact Hnext|]. split; [lia|].
    step_with ltac:(reflexivity). fields.
    step_with ltac:(exact Hseek).
    step_with ltac:(reflexivity). fields.
    step_with ltac:(reflexivity). fields.
    rewrite to_size_t_small by lia.
    unfold LMDB.MoveToNextShard, Size, SizeImpl.
    step_with ltac:(unfold bind; cbn [gets lmdb_size_ shard_id_ num_shards_];
                    rewrite Eshard; reflexivity).
    apply ReadSample_tail.
Qed.

(** C9 (as amended).  On a positioned loader whose shard starts inside the
    database and ends no later than the database does, [ReadSample] leaves
    the loader positioned on the next entry: one entry further, or the start
    index of the shard when the incremented index has passed the end of the
    shard.  The key of that entry is read as a C string.  When a NUL byte
    ends that read inside the mapped database, [ReadSample] returns a tensor
    of type [uint8] whose source names the path and the string read; unless
    the loader skips the image the tensor holds a copy of the entry's value,
    and its length is the value's byte size; when the image is skipped the
    tensor is empty and marked as skipped. *)
Theorem ReadSample_yields_current_entry (tensor : Tensor) (st : LMDBLoader) :
  positioned st ->
  0 <= shard_first st < lmdb_size_ st ->
  (forall i, lmdb_size_ st <= i ->
             IsNextShard (shard_id_ st) (num_shards_ st) (lmdb_size_ st) i = true) ->
  exists k v st',
    nth_error (db st) (Z.to_nat (next_index st)) = Some (k, v)
    /\ snd (ReadSample tensor st) = st'
    /\ current_index_ st' = next_index st
    /\ key_ st' = k /\ value_ st' = v
    /\ db st' = db st
    /\ positioned st'
    /\ forall s : String.string,
         c_str (mv_data k) = Some s ->
         let image_key :=
           String.append (db_path_ st) (String.append " at key "%string s) in
         exists t',
           fst (ReadSample tensor st) = inr t'
           /\ type t' = UInt8
           /\ source_info (meta t') = image_key
           /\ (if ShouldSkipImage image_key
               then skip_sample (meta t') = true
                    /\ raw_data t' = [] /\ tensor_shape t' = [0]
               else skip_sample (meta t') = false
                    /\ raw_data t' = item v
                    /\ tensor_shape t' = [mv_size v]
                    /\ (readable v -> Z.of_nat (length (raw_data t')) = mv_size v)).
Proof.
  intros Hpos Hstart Hend.
  destruct (ReadSample_step tensor Hpos Hstart Hend) as (k & v & Hn & Hrange & HR).
  exists k, v. eexists. split; [exact Hn|].
  rewrite HR. cbn [fst snd]. split; [reflexivity|]. fields.
  repeat (split; [reflexivity|]).
  split.
  - destruct Hpos as (Hsize & Hmax & _). unfold positioned. fields.
    repeat split; auto; lia.
  - intros s Hs. cbv zeta. unfold LMDB.sample_of, image_key_of. cbn [fst snd].
    rewrite Hs. eexists. split; [reflexivity|].
    destruct (fill_tensor_fields tensor
                (String.append (db_path_ st) (String.append " at key "%string s)) v)
      as (Ht & Hsrc & Hrest).
    split; [exact Ht|]. split; [exact Hsrc|].
    destruct (ShouldSkipImage _); [exact Hrest|].
    destruct Hrest as (H1 & H2 & H3). repeat split; auto.
    intros Hv. rewrite H2. now apply item_length.
Qed.

End Reader.

End LMDBFacts.

(** ** The properties on the sample configurations *)

Module Instances.

Import Warp Examples WarpFacts BlockFacts.



(** After [Setup] on the mixed batch, a [Run] with the output buffers of the
    uniform batch is refused; with the right buffers it enqueues two
    operations. *)
Lemma Run_validates_output_shape_witness :
  Setup requested_size 3 3 false ctx in_mixed mapping sizes_mixed modes 0 fresh
    = (inr req_mixed, after_setup_mixed)
  /\ Run requested_size ctx' out_same in_mixed mapping' sizes_mixed modes' 5 after_setup_mixed
     = (inl ShapeMismatch, after_setup_mixed)
  /\ ValidateOutputShape requested_size (shapes out_mixed) (shapes in_mixed) sizes_mixed
       after_setup_mixed
     = (inr tt, after_setup_mixed).
Proof.
  pose proof (@Run_validates_output_shape Z requested_size 3 3 false ctx ctx' out_same in_mixed
                mapping mapping' sizes_mixed modes modes' 0 5 fresh after_setup_mixed
                req_mixed eq_refl) as Hbad.
  pose proof (@Run_validates_output_shape Z requested_size 3 3 false ctx ctx' out_mixed in_mixed
                mapping mapping' sizes_mixed modes modes' 0 5 fresh after_setup_mixed
                req_mixed eq_refl) as Hgood.
  split; [reflexivity|]. split.
  - apply (proj1 Hbad). simpl. discriminate.
  - apply (proj1 (proj2 Hgood eq_refl)).
Defined.


(** With 3x3 tiles the pixel (7, 7) of the 8x8 sample lies in exactly one of
    its blocks. *)
Lemma blocks_tile_each_sample_witness :
  0 < 3
  /\ Setup requested_size 3 3 false ctx in_mixed mapping sizes_mixed modes 0 fresh
     = (inr req_mixed, after_setup_mixed)
  /\ classification (setup after_setup_mixed) = VariableSize
  /\ covering (blocks (setup after_setup_mixed)) 1 7 7 = 1%nat.
Proof.
  split; [reflexivity|]. split; [reflexivity|]. split; [reflexivity|].
  apply (proj1 (@blocks_tile_each_sample Z requested_size 3 3 false ctx in_mixed mapping
                  sizes_mixed modes 0 fresh after_setup_mixed req_mixed
                  eq_refl eq_refl eq_refl eq_refl)
               1%nat (mkShape3 8 8 3) 7 7 eq_refl).
  - simpl. lia.
  - simpl. lia.
Defined.

(** One interpolation mode for a batch of two is refused. *)
Lemma PrepareSamples_checks_counts_witness :
  Setup requested_size 3 3 false ctx in_mixed mapping sizes_mixed modes 0 fresh
    = (inr req_mixed, after_setup_mixed)
  /\ PrepareSamples out_mixed in_mixed [DALI_INTERP_NN] after_setup_mixed
     = (inl ArgumentCountMismatch, after_setup_mixed).
Proof.
  split; [reflexivity|].
  apply (proj1 (@PrepareSamples_checks_counts Z requested_size 3 3 false ctx in_mixed mapping
                  sizes_mixed modes 0 fresh after_setup_mixed req_mixed
                  out_mixed in_mixed [DALI_INTERP_NN] eq_refl)).
  right. right. simpl. discriminate.
Defined.

(** A [Run] on the mixed batch launches the variable-size kernel once. *)
Lemma Run_dispatch_witness :
  fst (Run requested_size ctx out_mixed in_mixed mapping sizes_mixed modes 0 after_setup_mixed)
    = inr tt
  /\ launches (added after_setup_mixed
                 (snd (Run requested_size ctx out_mixed in_mixed mapping sizes_mixed modes 0
                         after_setup_mixed))) = 1%nat.
Proof.
  split; [reflexivity|].
  apply (proj2 (@Run_dispatch Z requested_size ctx out_mixed in_mixed mapping sizes_mixed
                  modes 0 after_setup_mixed
                  (snd (Run requested_size ctx out_mixed in_mixed mapping sizes_mixed modes 0
                          after_setup_mixed))
                  (inr tt) eq_refl) eq_refl).
Defined.

(** A [Run] that the shape check refuses launches no kernel at all, and
    neither does a [Run] whose transfer leaves a device error behind: it is
    not the case that every [Run] launches exactly one kernel. *)
Lemma Run_refused_launches_nothing :
  fst (Run requested_size ctx out_same in_mixed mapping sizes_mixed modes 0 after_setup_mixed)
    = inl ShapeMismatch
  /\ launches (added after_setup_mixed
                 (snd (Run requested_size ctx out_same in_mixed mapping sizes_mixed modes 0
                         after_setup_mixed))) = 0%nat
  /\ fst (Run requested_size ctx out_mixed in_mixed mapping sizes_mixed modes 0
            after_setup_mixed_faulty)
     = inl (DeviceOperationFailure 700)
  /\ launches (added after_setup_mixed_faulty
                 (snd (Run requested_size ctx out_mixed in_mixed mapping sizes_mixed modes 0
                         after_setup_mixed_faulty))) = 0%nat
  /\ ~ (forall (out : TensorListView) (w : World Z),
          launches (added w
                      (snd (Run requested_size ctx out in_mixed mapping sizes_mixed modes 0
                              w))) = 1%nat).
Proof.
  split; [reflexivity|]. split; [reflexivity|].
  split; [reflexivity|]. split; [reflexivity|].
  intros H. specialize (H out_same after_setup_mixed). discriminate H.
Qed.

(** Other mapping parameters, modes, border and context: same requirements. *)
Lemma Setup_ignores_mapping_interp_border_witness :
  shapes in_mixed = shapes in_mixed
  /\ fst (Setup requested_size 3 3 false ctx in_mixed mapping sizes_mixed modes 0 fresh)
     = fst (Setup requested_size 3 3 false ctx' in_mixed mapping' sizes_mixed modes' 5
              after_setup_same).
Proof.
  split; [reflexivity|].
  apply (proj1 (@Setup_ignores_mapping_interp_border Z requested_size 3 3 false ctx ctx'
                  in_mixed in_mixed mapping mapping' sizes_mixed modes modes' 0 5
                  fresh after_setup_same eq_refl)).
Defined.

(** Consuming the second of two samples puts the counter back to zero,
    clears the busy flag and signals once. *)
Lemma RunImpl_counts_batch_witness :
  ExternalSource.counter_in_range source_mid
  /\ ExternalSource.RunImpl workspace1 source_mid
     = (inr (ExternalSource.mkWorkspace 1 false 0 [3; 4]), source_done)
  /\ ExternalSource.samples_processed_ source_done = 0
  /\ ExternalSource.busy_ source_done = false
  /\ ExternalSource.notifications (ExternalSource.appended source_mid source_done) = 1%nat.
Proof.
  assert (Hr : ExternalSource.counter_in_range source_mid).
  { unfold ExternalSource.counter_in_range, MachInt.INT_MAX. simpl. lia. }
  assert (Hstep : ExternalSource.RunImpl workspace1 source_mid
                  = (inr (ExternalSource.mkWorkspace 1 false 0 [3; 4]), source_done)).
  { vm_compute. reflexivity. }
  split; [exact Hr|]. split; [exact Hstep|].
  apply (proj1 (@ExternalSourceFacts.RunImpl_counts_batch workspace1
                  (ExternalSource.mkWorkspace 1 false 0 [3; 4])
                  source_mid source_done Hr Hstep)).
  reflexivity.
Defined.

(** From the last entry of its shard the loader wraps to the first one and
    yields that entry's three bytes. *)
Lemma ReadSample_yields_current_entry_witness :
  LMDB.positioned loader_last
  /\ exists t st',
       LMDB.ReadSample strerror_text shard_start past_shard_end nothing_cached blank
         loader_last = (inr t, st')
       /\ LMDB.current_index_ st' = 0
       /\ LMDB.raw_data t = [Byte.x01; Byte.x02; Byte.x03].
Proof.
  assert (Hp : LMDB.positioned loader_last).
  { unfold LMDB.positioned. simpl. repeat split; try reflexivity; lia. }
  assert (Hs : 0 <= shard_start (LMDB.shard_id_ loader_last) (LMDB.num_shards_ loader_last)
                      (LMDB.lmdb_size_ loader_last) < LMDB.lmdb_size_ loader_last).
  { vm_compute. split; [discriminate | reflexivity]. }
  assert (He : forall i, LMDB.lmdb_size_ loader_last <= i ->
                 past_shard_end (LMDB.shard_id_ loader_last) (LMDB.num_shards_ loader_last)
                                (LMDB.lmdb_size_ loader_last) i = true).
  { intros i Hi. unfold past_shard_end, shard_start. simpl in *. apply Z.leb_le. exact Hi. }
  split; [exact Hp|].
  destruct (@LMDBFacts.ReadSample_yields_current_entry strerror_text shard_start
              past_shard_end nothing_cached blank loader_last Hp Hs He)
    as (k & v & st' & Hn & Hsnd & Hidx & _ & _ & _ & _ & Hread).
  change (nth_error entries 0 = Some (k, v)) in Hn. injection Hn as <- <-.
  destruct (Hread _ ltac:(vm_compute; reflexivity)) as (t & Hfst & _ & _ & Hrest).
  unfold nothing_cached in Hrest. destruct Hrest as (_ & Hdata & _).
  exists t, st'. split; [|split; [exact Hidx | exact Hdata]].
  rewrite <- Hfst, <- Hsnd. apply surjective_pairing.
Defined.

(** When the image is cached the tensor is empty although the entry the
    loader stands on has two bytes. *)
Lemma ReadSample_skipped_image_is_empty :
  exists t st',
    LMDB.ReadSample strerror_text shard_start past_shard_end everything_cached blank
      loader_first = (inr t, st')
    /\ LMDB.item (LMDB.value_ st') = [Byte.x04; Byte.x05]
    /\ LMDB.raw_data t = []
    /\ Z.of_nat (length (LMDB.raw_data t)) <> LMDB.mv_size (LMDB.value_ st').
Proof.
  eexists. eexists. split; [vm_compute; reflexivity|].
  split; [reflexivity|]. split; [reflexivity|]. simpl. discriminate.
Qed.

(** Two 4x4x3 images with requested size 4x4: the batch is uniform and no
    block descriptors are built. *)
Example uniform_batch_scenario :
  classification (setup after_setup_same) = UniformSize
  /\ blocks (setup after_setup_same) = []
  /\ uniform_output_size (setup after_setup_same) = mkShape2 4 4.
Proof. repeat split. Qed.

(** A 4x4 and an 8x8 output with 3x3 tiles: the batch is variable and the
    second sample has ceil(8/3) * ceil(8/3) = 9 blocks. *)
Example variable_batch_scenario :
  classification (setup after_setup_mixed) = VariableSize
  /\ length (filter (fun b => (sample_idx b =? 1)%nat) (blocks (setup after_setup_mixed)))
     = Z.to_nat (div_ceil 8 3 * div_ceil 8 3).
Proof. split; reflexivity. Qed.

End Instances.

Unset Implicit Arguments.

(** ** The external source hand-off over whole batches *)

Module ExternalSourceBatches.

Import ExternalSource ExternalSourceLog ExternalSourceFacts.

Lemma guarded_app (l1 l2 : list SyncEvent) :
  forall held : list Mutex,
    guarded held l1 = true -> guarded [] l2 = true -> guarded held (l1 ++ l2) = true.
Proof.
  induction l1 as [|e l1 IH]; intros held H1 H2; simpl in *.
  - destruct held; [exact H2 | discriminate].
  - destruct e as [m|m|v|b|]; try (apply andb_prop in H1 as [Ha Hb]; rewrite Ha; simpl);
      now apply IH.
Qed.

(** A log that ends with both mutexes free can be followed by another. *)
Lemma lock_order_app (l1 l2 : list SyncEvent) :
  forall outer inner : bool,
    lock_order outer inner l1 = true ->
    guarded (if outer then (if inner then [busy_m_; samples_processed_m_]
                            else [samples_processed_m_])
             else (if inner then [busy_m_] else [])) l1 = true ->
    lock_order false false l2 = true ->
    lock_order outer inner (l1 ++ l2) = true.
Proof.
  induction l1 as [|e l1 IH]; intros outer inner H1 G H2.
  - destruct outer, inner; simpl in G; try discriminate. exact H2.
  - destruct e as [[|]|[|]|v|b|]; destruct outer, inner; simpl in *;
      try discriminate; try (apply IH; assumption);
      try (apply andb_prop in G as [_ G]; apply IH; assumption).
Qed.

Lemma notifications_app (l1 l2 : list SyncEvent) :
  notifications (l1 ++ l2) = (notifications l1 + notifications l2)%nat.
Proof. unfold notifications. now rewrite filter_app, length_app. Qed.

(** What one step appends to the log, whatever its outcome. *)
Lemma RunImpl_log (ws : SampleWorkspace) (op op' : Operator) (r : Error + SampleWorkspace) :
  RunImpl ws op = (r, op') ->
  exists l,
    events op' = events op ++ l
    /\ guarded [] l = true
    /\ lock_order false false l = true
    /\ existsb sets_busy l = false.
Proof.
  intros H. destruct r as [e|ws'].
  - apply RunImpl_error_keeps_state in H. subst op'.
    exists []. rewrite app_nil_r. auto.
  - apply RunImpl_inv in H. cbv zeta in H. destruct H as (_ & _ & ->).
    destruct (to_int (samples_processed_ op + 1) >=? batch_size_ op);
      eexists; (split; [reflexivity|]); auto.
Qed.

Lemma consume_log (wss : list SampleWorkspace) :
  forall (op op' : Operator) (r : Error + unit),
    consume wss op = (r, op') ->
    exists l,
      events op' = events op ++ l
      /\ guarded [] l = true
      /\ lock_order false false l = true
      /\ existsb sets_busy l = false.
Proof.
  induction wss as [|ws wss IH]; intros op op' r H; simpl in H.
  - unfold ret in H. injection H as <- <-. exists []. rewrite app_nil_r. auto.
  - unfold bind in H.
    destruct (RunImpl ws op) as [[e|ws'] op1] eqn:E.
    + injection H as <- <-. exact (RunImpl_log _ _ _ _ E).
    + destruct (RunImpl_log _ _ _ _ E) as (l1 & E1 & G1 & O1 & B1).
      destruct (IH _ _ _ H) as (l2 & E2 & G2 & O2 & B2).
      exists (l1 ++ l2). rewrite E2, E1, app_assoc.
      split; [reflexivity|].
      split; [now apply guarded_app|].
      split; [apply lock_order_app; assumption|].
      rewrite existsb_app, B1, B2. reflexivity.
Qed.

(** X1. Whatever samples are consumed and whether or not a step throws, the
    log of the whole run keeps the lock discipline: every mutex is released,
    the counter and the busy flag are written only under their mutexes,
    [busy_m_] is taken only inside [samples_processed_m_] and never the other
    way round, and the busy flag is never raised. *)
Theorem consume_keeps_lock_discipline (wss : list SampleWorkspace) (op : Operator) :
  guarded [] (appended op (snd (consume wss op))) = true
  /\ lock_order false false (appended op (snd (consume wss op))) = true
  /\ existsb sets_busy (appended op (snd (consume wss op))) = false.
Proof.
  destruct (consume wss op) as [r op'] eqn:E. simpl.
  destruct (consume_log wss _ _ _ E) as (l & El & G & O & B).
  rewrite (@appended_app op op' l El). auto.
Qed.

(** One step on the counter and the flag. *)
Lemma RunImpl_counter (ws ws' : SampleWorkspace) (op op' : Operator) :
  counter_in_range op ->
  RunImpl ws op = (inr ws', op') ->
  counter_in_range op'
  /\ batch_size_ op' = batch_size_ op
  /\ exists l,
       events op' = events op ++ l
       /\ ((samples_processed_ op + 1 = batch_size_ op
            /\ samples_processed_ op' = 0 /\ busy_ op' = false
            /\ notifications l = 1%nat)
           \/ (samples_processed_ op + 1 < batch_size_ op
               /\ samples_processed_ op' = samples_processed_ op + 1
               /\ busy_ op' = busy_ op
               /\ notifications l = 0%nat)).
Proof.
  intros Hr H.
  pose proof (@RunImpl_step ws ws' op op' Hr H) as (Hb & _ & _ & _ & Hr').
  split; [exact Hr'|]. split; [exact Hb|].
  destruct Hr as ((Hc0 & Hc1) & Hmax). unfold INT_MAX in Hmax.
  apply RunImpl_inv in H. cbv zeta in H. destruct H as (_ & _ & Hop).
  rewrite to_int_small in Hop by lia.
  destruct (samples_processed_ op + 1 >=? batch_size_ op) eqn:Ec; subst op';
    eexists; (split; [reflexivity|]); simpl.
  - left. repeat split; auto. lia.
  - right. repeat split; auto. lia.
Qed.

(** X2. Starting with the counter at [c] (in range), consuming [n] samples
    leaves the counter at [(c + n) mod batch_size] and has signalled the
    feeding thread [(c + n) / batch_size] times; the busy flag is cleared as
    soon as one batch has been completed and is untouched before. *)
Theorem consume_counts_batches (wss : list SampleWorkspace) :
  forall (op op' : Operator),
    counter_in_range op ->
    consume wss op = (inr tt, op') ->
    let total := samples_processed_ op + Z.of_nat (length wss) in
    samples_processed_ op' = total mod batch_size_ op
    /\ notifications (appended op op') = Z.to_nat (total / batch_size_ op)
    /\ busy_ op' = (if total / batch_size_ op =? 0 then busy_ op else false).
Proof.
  induction wss as [|ws wss IH]; intros op op' Hr H; cbv zeta.
  - simpl in H. unfold ret in H. injection H as <-.
    destruct Hr as ((Hc0 & Hc1) & _). simpl length. rewrite Z.add_0_r.
    rewrite Z.mod_small, Z.div_small by lia.
    unfold appended. rewrite skipn_all. auto.
  - simpl in H. unfold bind in H.
    destruct (RunImpl ws op) as [[e|ws'] op1] eqn:E; [discriminate|].
    destruct (RunImpl_counter _ _ _ _ Hr E) as (Hr1 & Hb & l1 & El1 & Hcase).
    specialize (IH op1 op' Hr1 H). cbv zeta in IH.
    destruct IH as (Hc & Hn & Hbusy).
    destruct (consume_log wss _ _ _ H) as (l2 & El2 & _).
    rewrite (@appended_app op1 op' l2 El2) in Hn.
    assert (Eall : events op' = events op ++ (l1 ++ l2))
      by (rewrite El2, El1, app_assoc; reflexivity).
    rewrite (@appended_app op op' (l1 ++ l2) Eall), notifications_app.
    rewrite Hb in *.
    destruct Hr as ((Hc0 & Hc1) & _).
    set (B := batch_size_ op) in *.
    replace (Z.of_nat (length (ws :: wss))) with (1 + Z.of_nat (length wss))
      by (simpl length; lia).
    set (n := Z.of_nat (length wss)) in *.
    assert (Hn0 : 0 <= n) by (unfold n; lia).
    destruct Hcase as [(Hfull & Hz & Hbz & Hl1) | (Hlt & Hz & Hbz & Hl1)].
    + rewrite Hz in *. rewrite Hl1, Hn, Hc, Hbusy.
      replace (samples_processed_ op + (1 + n)) with (n + 1 * B) by lia.
      rewrite Z.mod_add, Z.div_add by lia. simpl (0 + n) in *.
      assert (Hq : 0 <= n / B) by (apply Z.div_pos; lia).
      split; [reflexivity|]. split; [lia|].
      destruct (Z.eqb_spec (n / B + 1) 0); [lia|].
      destruct (n / B =? 0); [exact Hbz | reflexivity].
    + rewrite Hz in *. rewrite Hl1, Hn, Hc, Hbusy, Hbz.
      replace (samples_processed_ op + (1 + n)) with (samples_processed_ op + 1 + n) by lia.
      repeat split.
Qed.

(** X3. A fed batch whose length is not the batch size is refused: the step
    throws the batch-size error before taking any mutex, so counter, busy
    flag and log are exactly as before. *)
Theorem RunImpl_rejects_wrong_batch_size (ws : SampleWorkspace) (op : Operator) :
  batch_size_ op <> to_int (Z.of_nat (length (fed op))) ->
  RunImpl ws op = (inl (EnforceFailed batch_size_message), op).
Proof.
  destruct op as [bs tl tld td sp bz ev]. unfold fed. simpl.
  intros H. apply Z.eqb_neq in H.
  destruct tl; run_step H; unfold RunImpl, DALI_ENFORCE, bind, gets, throw; simpl;
    rewrite H; reflexivity.
Qed.

(** X4. A step that returns has put into output 0 the fed tensor at the
    workspace's sample index (from the tensor list when the data was fed as
    one, from the tensor vector otherwise); the fed data, the batch size and
    the workspace's index and stream are left as they were. *)
Theorem RunImpl_outputs_fed_sample (ws ws' : SampleWorkspace) (op op' : Operator) :
  RunImpl ws op = (inr ws', op') ->
  nth_error (if data_in_tl_ op then tl_data_ op else t_data_ op) (data_idx ws)
    = Some (Output0 ws')
  /\ data_idx ws' = data_idx ws
  /\ has_stream ws' = has_stream ws /\ ws_stream ws' = ws_stream ws
  /\ tl_data_ op' = tl_data_ op /\ t_data_ op' = t_data_ op
  /\ data_in_tl_ op' = data_in_tl_ op
  /\ batch_size_ op' = batch_size_ op
  /\ batch_size_ op = to_int (Z.of_nat (length (if data_in_tl_ op then tl_data_ op
                                                 else t_data_ op))).
Proof.
  intros H. apply RunImpl_inv in H. cbv zeta in H.
  destruct H as (Hb & (t & Ht & ->) & ->). unfold fed in *.
  destruct (to_int (samples_processed_ op + 1) >=? batch_size_ op); simpl; auto 10.
Qed.

End ExternalSourceBatches.

(** ** The warp engine: streams, device errors, repeated runs *)

Module WarpRuns.

Import Warp WarpQueue ShapeFacts WarpFacts.

Section Runs.

Variable BorderType : Type.
Variable GetOutputShape : TensorListShape -> list TensorShape2 -> TensorListShape.
Variables tile_w tile_h : Z.

Local Abbreviation World := (World BorderType).
Variable NDEBUG : bool.

Local Abbreviation Setup := (@Setup BorderType GetOutputShape tile_w tile_h NDEBUG).
Local Abbreviation Run := (@Run BorderType GetOutputShape).

(** [Run] only appends to the device queue. *)
Lemma Run_enqueues_queue (ctx : KernelContext) (out in_ : TensorListView)
    (mapping : MappingTensor) (sizes : list TensorShape2)
    (interp : list DALIInterpType) (border : BorderType) (w : World) :
  enqueued (snd (Run ctx out in_ mapping sizes interp border w))
  = enqueued w ++ added w (snd (Run ctx out in_ mapping sizes interp border w)).
Proof.
  destruct (Run ctx out in_ mapping sizes interp border w) as [r w'] eqn:HR. simpl.
  apply Run_outcome in HR. cbv zeta in HR.
  destruct HR as [(_ & -> & _) | [(_ & -> & _) | (_ & _ & _ & _ & _ & Hq)]].
  - now rewrite added_same, app_nil_r.
  - now rewrite added_same, app_nil_r.
  - destruct Hq as [(_ & _ & Hq) | (_ & Hq & _)];
      rewrite (@added_app BorderType w w' _ Hq); exact Hq.
Qed.

(** X5. Whatever its outcome, [Run] only appends to the device queue, what it
    appends is nothing, a transfer, or a transfer followed by a kernel, and
    every operation it appends is on the stream of the context it was given. *)
Theorem Run_enqueues_on_context_stream (ctx : KernelContext) (out in_ : TensorListView)
    (mapping : MappingTensor) (sizes : list TensorShape2)
    (interp : list DALIInterpType) (border : BorderType) (w : World) :
  let w' := snd (Run ctx out in_ mapping sizes interp border w) in
  enqueued w' = enqueued w ++ added w w'
  /\ transfer_then_kernel (added w w') = true
  /\ Forall (fun op => op_stream op = stream ctx) (added w w').
Proof.
  cbv zeta.
  destruct (Run ctx out in_ mapping sizes interp border w) as [r w'] eqn:HR. simpl.
  apply Run_outcome in HR. cbv zeta in HR.
  destruct HR as [(_ & -> & _) | [(_ & -> & _) | (_ & _ & _ & _ & _ & Hq)]].
  - rewrite added_same, app_nil_r. repeat split. constructor.
  - rewrite added_same, app_nil_r. repeat split. constructor.
  - destruct Hq as [(_ & _ & Hq) | (_ & Hq & _)];
      rewrite (@added_app BorderType w w' _ Hq); (split; [exact Hq|]);
      destruct (classification (setup w')); split; try reflexivity;
      repeat constructor.
Qed.

(** The engine state [PrepareSamples] leaves. *)
Local Abbreviation prepared w out in_ interp :=
  (mkSetup (fill_samples 0 (samples (setup w)) out in_ interp)
           (blocks (setup w)) (classification (setup w))
           (uniform_output_size (setup w)) (uniform_block_size (setup w))
           (grid_dim (setup w)) (block_dim (setup w))).

(** A [Run] that passes both host-side checks, spelled out by what the device
    reports at the two status queries. *)
Lemma Run_accepted (ctx : KernelContext) (out in_ : TensorListView)
    (mapping : MappingTensor) (sizes : list TensorShape2)
    (interp : list DALIInterpType) (border : BorderType) (w : World) :
  shapes out = GetOutputShape (shapes in_) sizes ->
  counts_agree out in_ interp w ->
  let s1 := hd cudaSuccess (cuda_status w) in
  let s2 := hd cudaSuccess (tl (cuda_status w)) in
  let w' := snd (Run ctx out in_ mapping sizes interp border w) in
  fst (Run ctx out in_ mapping sizes interp border w)
    = (if s1 =? cudaSuccess
       then if s2 =? cudaSuccess then inr tt else inl (DeviceOperationFailure s2)
       else inl (DeviceOperationFailure s1))
  /\ cuda_status w'
     = (if s1 =? cudaSuccess then tl (tl (cuda_status w)) else tl (cuda_status w))
  /\ setup w' = prepared w out in_ interp
  /\ launches (added w w') = (if s1 =? cudaSuccess then 1%nat else 0%nat)
  /\ transfers (added w w') = 1%nat.
Proof.
  intros Hs Hc. cbv zeta.
  unfold Warp.Run, bind. rewrite Validate_ok by exact Hs.
  rewrite PrepareSamples_ok by exact Hc.
  unfold GridDim, BlockDim, IsUniformSize, Samples, Blocks, UniformOutputSize,
    UniformBlockSize, ToGPU, ToContiguousGPU, CUDA_CALL, cudaGetLastError, launch,
    modify, gets, bind, ret, throw, enqueue, launches, transfers, added.
  simpl.
  destruct (classification (setup w));
    destruct (cuda_status w) as [|e1 [|e2 rest]]; simpl;
    try destruct (e1 =? cudaSuccess); simpl;
    try destruct (e2 =? cudaSuccess); simpl;
    repeat rewrite <- app_assoc; simpl;
    rewrite ?skipn_app, ?skipn_all, ?Nat.sub_diag; simpl; auto.
Qed.

(** X6. Once the host-side checks have passed, [Run] queries the device status
    twice at most: an error pending after the transfer is reported as
    DeviceOperationFailure with that status and no kernel is launched; with a
    clean first query the kernel is launched and an error at the second query
    is reported the same way; with two clean queries [Run] returns normally.
    Each query consumes one pending status and later ones stay pending. *)
Theorem Run_reports_device_errors (ctx : KernelContext) (out in_ : TensorListView)
    (mapping : MappingTensor) (sizes : list TensorShape2)
    (interp : list DALIInterpType) (border : BorderType) (w : World) :
  shapes out = GetOutputShape (shapes in_) sizes ->
  counts_agree out in_ interp w ->
  let s1 := hd cudaSuccess (cuda_status w) in
  let s2 := hd cudaSuccess (tl (cuda_status w)) in
  let w' := snd (Run ctx out in_ mapping sizes interp border w) in
  fst (Run ctx out in_ mapping sizes interp border w)
    = (if s1 =? cudaSuccess
       then if s2 =? cudaSuccess then inr tt else inl (DeviceOperationFailure s2)
       else inl (DeviceOperationFailure s1))
  /\ cuda_status w'
     = (if s1 =? cudaSuccess then tl (tl (cuda_status w)) else tl (cuda_status w))
  /\ launches (added w w') = (if s1 =? cudaSuccess then 1%nat else 0%nat)
  /\ transfers (added w w') = 1%nat.
Proof.
  intros Hs Hc. cbv zeta.
  destruct (Run_accepted ctx out in_ mapping sizes interp border w Hs Hc)
    as (H1 & H2 & _ & H3 & H4).
  auto.
Qed.

Lemma fill_samples_length (ss : list SampleDesc) :
  forall (i : nat) (outs ins : TensorListView) (modes : list DALIInterpType),
    length outs = length ss -> length ins = length ss -> length modes = length ss ->
    length (fill_samples i ss outs ins modes) = length ss.
Proof.
  induction ss as [|s ss IH]; intros i [|o outs] [|x ins] [|m modes] Ho Hi Hm;
    simpl in *; try discriminate; auto.
Qed.

(** Filling the descriptors again with the same buffers changes nothing. *)
Lemma fill_samples_again (ss : list SampleDesc) :
  forall (i : nat) (outs ins : TensorListView) (modes : list DALIInterpType),
    fill_samples i (fill_samples i ss outs ins modes) outs ins modes
    = fill_samples i ss outs ins modes.
Proof.
  induction ss as [|s ss IH]; intros i [|o outs] [|x ins] [|m modes];
    simpl; try reflexivity.
  now rewrite IH.
Qed.

Lemma healthy_hd_tl (cs : list cudaError_t) :
  healthy cs = true ->
  hd cudaSuccess cs = cudaSuccess /\ healthy (tl cs) = true.
Proof.
  destruct cs as [|e cs]; simpl; [auto|].
  intros H. apply andb_prop in H as [He Hcs]. apply Z.eqb_eq in He. auto.
Qed.

(** X8. Buffers shaped as [Setup] asked for are accepted: after a successful
    [Setup], a [Run] with output shapes equal to the returned ones, as many
    inputs and modes as outputs, and a device that reports no error, returns
    normally; run again with the same arguments it returns normally again,
    leaves the same descriptors, and the two runs have launched two kernels. *)
Theorem Setup_then_Run_twice
    (ctx0 ctx : KernelContext) (out in_ : TensorListView)
    (mapping0 mapping : MappingTensor) (sizes : list TensorShape2)
    (interp0 interp : list DALIInterpType) (border0 border : BorderType)
    (w0 w : World) (req : KernelRequirements) :
  Setup ctx0 in_ mapping0 sizes interp0 border0 w0 = (inr req, w) ->
  shapes out = output_shapes req ->
  length in_ = length out ->
  length interp = length out ->
  healthy (cuda_status w) = true ->
  exists w1 w2,
    Run ctx out in_ mapping sizes interp border w = (inr tt, w1)
    /\ Run ctx out in_ mapping sizes interp border w1 = (inr tt, w2)
    /\ setup w2 = setup w1
    /\ launches (added w w2) = 2%nat
    /\ transfers (added w w2) = 2%nat.
Proof.
  intros HS Hshape Hin Hmodes Hdev.
  pose proof HS as Hn. apply Setup_batch_size in Hn.
  apply Setup_inv in HS as (_ & Hreq & _). rewrite Hreq in *.
  assert (Hout : length out = length (samples (setup w))).
  { rewrite Hn, <- Hshape. unfold shapes. now rewrite length_map. }
  assert (Hc : counts_agree out in_ interp w).
  { unfold counts_agree. rewrite <- Hout. auto. }
  destruct (healthy_hd_tl _ Hdev) as (Hs1 & Hdev1).
  destruct (healthy_hd_tl _ Hdev1) as (Hs2 & Hdev2).
  destruct (Run ctx out in_ mapping sizes interp border w) as [r1 w1] eqn:HR1.
  pose proof (Run_accepted ctx out in_ mapping sizes interp border w Hshape Hc) as A1.
  cbv zeta in A1. rewrite HR1, Hs1, Hs2 in A1. simpl in A1.
  destruct A1 as (-> & Hcs1 & Hst1 & Hl1 & Ht1).
  assert (Hc1 : counts_agree out in_ interp w1).
  { destruct Hc as (Ho & Hi & Hm). unfold counts_agree. rewrite Hst1. simpl.
    rewrite fill_samples_length by assumption. auto. }
  rewrite <- Hcs1 in Hdev2.
  destruct (healthy_hd_tl _ Hdev2) as (Hs3 & Hdev3).
  destruct (healthy_hd_tl _ Hdev3) as (Hs4 & _).
  destruct (Run ctx out in_ mapping sizes interp border w1) as [r2 w2] eqn:HR2.
  pose proof (Run_accepted ctx out in_ mapping sizes interp border w1 Hshape Hc1) as A2.
  cbv zeta in A2. rewrite HR2, Hs3, Hs4 in A2. simpl in A2.
  destruct A2 as (-> & _ & Hst2 & Hl2 & Ht2).
  exists w1, w2. split; [reflexivity|]. split; [exact HR2|]. split; [|split].
  - rewrite Hst2, Hst1. simpl. now rewrite fill_samples_again.
  - pose proof (Run_enqueues_queue ctx out in_ mapping sizes interp border w) as Q1.
    pose proof (Run_enqueues_queue ctx out in_ mapping sizes interp border w1) as Q2.
    rewrite HR1 in Q1. rewrite HR2 in Q2. simpl in Q1, Q2.
    assert (Q : enqueued w2 = enqueued w ++ (added w w1 ++ added w1 w2))
      by (rewrite Q2, Q1, app_assoc; reflexivity).
    rewrite (@added_app BorderType w w2 _ Q).
    unfold launches in *. rewrite filter_app, length_app. lia.
  - pose proof (Run_enqueues_queue ctx out in_ mapping sizes interp border w) as Q1.
    pose proof (Run_enqueues_queue ctx out in_ mapping sizes interp border w1) as Q2.
    rewrite HR1 in Q1. rewrite HR2 in Q2. simpl in Q1, Q2.
    assert (Q : enqueued w2 = enqueued w ++ (added w w1 ++ added w1 w2))
      by (rewrite Q2, Q1, app_assoc; reflexivity).
    rewrite (@added_app BorderType w w2 _ Q).
    unfold transfers in *. rewrite filter_app, length_app. lia.
Qed.

End Runs.

End WarpRuns.

(** ** The LMDB loader: resets, first read, epochs *)

Module LMDBEpochs.

Import LMDB LMDBReads LMDBFacts.

Lemma bind_err (S A B : Type) (m : M S A) (k : A -> M S B) (s s' : S) (e : Error) :
  m s = (inl e, s') -> bind m k s = (inl e, s').
Proof. intros H. unfold bind. now rewrite H. Qed.

Lemma bind_ext (S A B : Type) (m : M S A) (k1 k2 : A -> M S B) (s : S) :
  (forall a s', k1 a s' = k2 a s') -> bind m k1 s = bind m k2 s.
Proof. intros H. unfold bind. destruct (m s) as [[e|a] s']; auto. Qed.

Lemma skipn_cons_nth (A : Type) (l : list A) :
  forall (i : nat) (x : A), nth_error l i = Some x -> skipn i l = x :: skipn (S i) l.
Proof.
  induction l as [|a l IH]; intros [|i] x H; simpl in *; try discriminate.
  - now injection H as ->.
  - now apply IH.
Qed.

(** *** Failing resets *)

Section Cursor.

Variable mdb_strerror : Z -> String.string.
Variables (entries : list (MDB_val * MDB_val)) (idx size sid ns : Z) (path : String.string).

(** The loop of [Reset] stops with an error at the last entry when the
    database has too few entries; the message names [current_index_]. *)
Lemma seek_forward_runs_out (n : nat) :
  forall (p : nat) (k v : MDB_val),
    (p < length entries)%nat ->
    (length entries <= p + n)%nat ->
    exists k' v',
      seek_forward mdb_strerror n (mkLoader entries (Some p) k v idx size sid ns path)
      = (inl (EnforceFailed
                (String.append "lmdb::SeekLMDB to position "%string
                   (String.append (to_string idx) " failed"%string))),
         mkLoader entries (Some (length entries - 1)%nat) k' v' idx size sid ns path).
Proof.
  induction n as [|n IH]; intros p k v Hp Hn; [lia|].
  cbn [seek_forward].
  destruct (nth_error entries (S p)) as [[k1 v1]|] eqn:E1.
  - assert (S p < length entries)%nat by (apply nth_error_Some; congruence).
    destruct (IH (S p) k1 v1 ltac:(lia) ltac:(lia)) as (k' & v' & Hs).
    exists k', v'.
    step_with ltac:(reflexivity).
    step_with ltac:(apply seek_next_moves; exact E1).
    step_with ltac:(reflexivity).
    step_with ltac:(reflexivity).
    exact Hs.
  - apply nth_error_None in E1.
    exists k, v. replace (length entries - 1)%nat with p by lia.
    step_with ltac:(reflexivity).
    step_with ltac:(apply seek_next_at_end; apply nth_error_None; lia).
    step_with ltac:(reflexivity).
    reflexivity.
Qed.

End Cursor.

Section Epochs.

Variable mdb_strerror : Z -> String.string.
Variable start_index : Z -> Z -> Z -> Z.
Variable IsNextShard : Z -> Z -> Z -> Z -> bool.
Variable ShouldSkipImage : String.string -> bool.

Local Abbreviation Reset := (Reset mdb_strerror start_index).
Local Abbreviation ReadSample :=
  (ReadSample mdb_strerror start_index IsNextShard ShouldSkipImage).
Local Abbreviation read_samples :=
  (read_samples mdb_strerror start_index IsNextShard ShouldSkipImage).
Local Abbreviation fill_tensor := (fill_tensor ShouldSkipImage).
Local Abbreviation sample_of := (sample_of ShouldSkipImage).
Local Abbreviation shard_is := (shard_is start_index IsNextShard).
Local Abbreviation shard_first st :=
  (start_index (shard_id_ st) (num_shards_ st) (lmdb_size_ st)).

(** X10. On an empty database [Reset] fails, with either argument, with the
    error of the first seek; by then it has already overwritten
    [current_index_] with the start index of the shard, and the cursor, key
    and value are as before. *)
Theorem Reset_fails_on_empty_database (wrap_to_shard : bool) (st : LMDBLoader) :
  db st = [] ->
  Reset wrap_to_shard st
  = (inl (EnforceFailed "lmdb::SeekLMDB to the beginning failed"%string),
     at_index st (to_size_t (shard_first st))).
Proof.
  destruct st as [entries cur k0 v0 idx size sid ns path]. fields.
  intros ->. unfold LMDB.Reset, Size, SizeImpl, at_index. fields.
  step_with ltac:(reflexivity). fields.
  step_with ltac:(reflexivity). fields.
  step_with ltac:(reflexivity). fields.
  step_with ltac:(reflexivity). fields.
  step_with ltac:(reflexivity). fields.
  unfold bind, SeekLMDB, mdb_cursor_get, bind. cbn [db mdb_cursor_ nth_error].
  destruct cur; reflexivity.
Qed.

(** X11. When the start index of the shard is not below the number of
    entries of a database that is not empty, [Reset(true)] fails in its
    forward loop, with the message that names the start index as the position
    it could not reach; the cursor is left on the last entry and
    [current_index_] at that start index. *)
Theorem Reset_fails_beyond_the_database (st : LMDBLoader) :
  db st <> [] ->
  Z.of_nat (length (db st)) <= to_size_t (shard_first st) ->
  exists st',
    Reset true st
    = (inl (EnforceFailed
              (String.append "lmdb::SeekLMDB to position "%string
                 (String.append (to_string (to_size_t (shard_first st)))
                                " failed"%string))),
       st')
    /\ mdb_cursor_ st' = Some (length (db st) - 1)%nat
    /\ current_index_ st' = to_size_t (shard_first st)
    /\ db st' = db st.
Proof.
  destruct st as [entries cur k0 v0 idx size sid ns path]. fields.
  intros Hne Hstart.
  set (start := to_size_t (start_index sid ns size)) in *.
  destruct (nth_error entries 0) as [[k1 v1]|] eqn:E0.
  2:{ apply nth_error_None in E0. destruct entries; [contradiction | simpl in E0; lia]. }
  assert (Hlen : (0 < length entries)%nat) by (apply nth_error_Some; congruence).
  destruct (seek_forward_runs_out mdb_strerror entries start size sid ns path
              (Z.to_nat start) 0%nat k1 v1 Hlen ltac:(lia)) as (k & v & Hs).
  eexists. split.
  - unfold LMDB.Reset, Size, SizeImpl.
    step_with ltac:(reflexivity). fields.
    step_with ltac:(reflexivity). fields.
    step_with ltac:(reflexivity). fields.
    step_with ltac:(reflexivity). fields.
    step_with ltac:(reflexivity). fields.
    fold start.
    step_with ltac:(apply seek_first_moves; exact E0).
    step_with ltac:(reflexivity).
    step_with ltac:(reflexivity). fields.
    exact Hs.
  - fields. auto.
Qed.

(** X12. On a database that is not empty [Reset(false)] succeeds and puts the
    cursor on the very first entry of the database, whatever the shard, while
    [current_index_] becomes the start index of the shard: for a shard that
    does not start at entry 0 the cursor and the index then disagree. *)
Theorem Reset_without_wrap_rewinds_to_first_entry (st : LMDBLoader)
    (k v : MDB_val) :
  nth_error (db st) 0 = Some (k, v) ->
  Reset false st
  = (inr tt,
     mkLoader (db st) (Some 0%nat) k v (to_size_t (shard_first st))
              (lmdb_size_ st) (shard_id_ st) (num_shards_ st) (db_path_ st))
  /\ (0 < to_size_t (shard_first st) ->
      ~ positioned (snd (Reset false st))).
Proof.
  destruct st as [entries cur k0 v0 idx size sid ns path]. fields.
  intros E0.
  assert (HR : LMDB.Reset mdb_strerror start_index false
                 (mkLoader entries cur k0 v0 idx size sid ns path)
               = (inr tt, mkLoader entries (Some 0%nat) k v
                            (to_size_t (start_index sid ns size)) size sid ns path)).
  { unfold LMDB.Reset, Size, SizeImpl.
    step_with ltac:(reflexivity). fields.
    step_with ltac:(reflexivity). fields.
    step_with ltac:(reflexivity). fields.
    step_with ltac:(reflexivity). fields.
    step_with ltac:(reflexivity). fields.
    step_with ltac:(apply seek_first_moves; exact E0).
    step_with ltac:(reflexivity).
    reflexivity. }
  split; [exact HR|].
  rewrite HR. cbn [snd]. unfold positioned. fields.
  intros Hpos (_ & _ & _ & Hcur & _). injection Hcur as Hcur. lia.
Qed.

(** *** One read, spelled out *)

(** The tensor [ReadSample] builds does not depend on the tensor it is given:
    type, shape, bytes and meta data are all overwritten. *)
Lemma fill_tensor_canonical (tensor : Tensor) (image_key : String.string) (v : MDB_val) :
  fill_tensor tensor image_key v
  = if ShouldSkipImage image_key
    then mkTensor UInt8 [0] [] (mkMeta image_key true)
    else mkTensor UInt8 [mv_size v] (item v) (mkMeta image_key false).
Proof.
  unfold LMDB.fill_tensor. cbv zeta.
  destruct (ShouldSkipImage image_key).
  - reflexivity.
  - pose proof (memcpy_whole_value
                  (SetMeta (set_type tensor UInt8) (mkMeta image_key false))
                  v) as Hd.
    unfold memcpy, Resize, SetMeta, set_type in *. cbn [raw_data type tensor_shape meta] in *.
    now rewrite Hd.
Qed.

(** X13. [ReadSample] overwrites the tensor it is given completely: called on
    the same loader with two different tensors it returns the same tensor and
    leaves the same loader, so no byte, shape, type or meta datum of an
    earlier sample survives in the result. *)
Theorem ReadSample_overwrites_the_tensor (t1 t2 : Tensor) (st : LMDBLoader) :
  ReadSample t1 st = ReadSample t2 st.
Proof.
  unfold LMDB.ReadSample.
  repeat (apply bind_ext; intros).
  unfold ret. now rewrite (fill_tensor_canonical t1), (fill_tensor_canonical t2).
Qed.

(** *** Epochs *)

Lemma read_samples_app (tensor : Tensor) (a b : nat) :
  forall (st st1 st2 : LMDBLoader) (l1 l2 : list Tensor),
    read_samples a tensor st = (inr l1, st1) ->
    read_samples b tensor st1 = (inr l2, st2) ->
    read_samples (a + b) tensor st = (inr (l1 ++ l2), st2).
Proof.
  induction a as [|a IH]; intros st st1 st2 l1 l2 H1 H2.
  - simpl in H1. unfold ret in H1. injection H1 as <- <-. exact H2.
  - cbn [LMDBReads.read_samples Nat.add] in *. unfold bind in *.
    destruct (ReadSample tensor st) as [[e|t] s'] eqn:E; [discriminate|].
    destruct (read_samples a tensor s') as [[e|ts] s''] eqn:E'; [discriminate|].
    unfold ret in H1. injection H1 as <- <-.
    rewrite (IH s' s'' st2 ts l2 E' H2). reflexivity.
Qed.

(** An entry whose key read ends inside the mapping gives a tensor. *)
Lemma sample_of_terminated (tensor : Tensor) (path : String.string)
    (e : MDB_val * MDB_val) :
  key_terminated e -> exists t, sample_of tensor path e = inr t.
Proof.
  unfold key_terminated, LMDB.sample_of, image_key_of.
  destruct (c_str (mv_data (fst e))); [eauto | congruence].
Qed.

(** Reading [m] times inside the shard walks [m] entries forward. *)
Lemma read_samples_inside (tensor : Tensor) (first last : Z) (m : nat) :
  forall st : LMDBLoader,
    positioned st -> shard_is st first last ->
    first <= current_index_ st ->
    current_index_ st + Z.of_nat m < last ->
    Forall key_terminated (firstn m (skipn (S (Z.to_nat (current_index_ st))) (db st))) ->
    exists k v ts,
      nth_error (db st) (Z.to_nat (current_index_ st) + m) = Some (k, v)
      /\ read_samples m tensor st
         = (inr ts,
            mkLoader (db st) (Some (Z.to_nat (current_index_ st) + m)%nat) k v
                     (current_index_ st + Z.of_nat m) (lmdb_size_ st)
                     (shard_id_ st) (num_shards_ st) (db_path_ st))
      /\ map (@inr Error Tensor) ts
         = map (sample_of tensor (db_path_ st))
               (firstn m (skipn (S (Z.to_nat (current_index_ st))) (db st))).
Proof.
  induction m as [|m IH]; intros st Hpos Hsh Hlo Hhi Hkeys.
  - destruct st as [entries cur k0 v0 idx size sid ns path].
    destruct Hpos as (_ & _ & _ & Hcur & Hentry). fields_in Hcur. fields_in Hentry.
    fields. exists k0, v0, []. rewrite Nat.add_0_r, Z.add_0_r. split; [exact Hentry|].
    subst cur. split; reflexivity.
  - pose proof Hsh as (Hfirst & Hfl & Hls & Hin & Hout).
    destruct (@ReadSample_step mdb_strerror start_index IsNextShard ShouldSkipImage
                tensor st Hpos) as (k1 & v1 & Hn & Hrange & HR).
    { rewrite Hfirst. lia. }
    { intros i Hi. apply Hout. lia. }
    unfold LMDB.next_index in *.
    rewrite (Hin (current_index_ st + 1)) in * by lia.
    replace (Z.to_nat (current_index_ st + 1)) with (S (Z.to_nat (current_index_ st)))
      in * by (destruct Hpos as (_ & _ & ? & _); lia).
    rewrite (skipn_cons_nth _ (db st) _ _ Hn) in Hkeys |- *. cbn [firstn map] in Hkeys |- *.
    apply Forall_cons_iff in Hkeys as [Hk1 Hkeys].
    destruct (sample_of_terminated tensor (db_path_ st) (k1, v1) Hk1) as (t1 & Ht1).
    rewrite Ht1 in HR |- *.
    set (st1 := mkLoader (db st) (Some (S (Z.to_nat (current_index_ st)))) k1 v1
                         (current_index_ st + 1) (lmdb_size_ st)
                         (shard_id_ st) (num_shards_ st) (db_path_ st)) in *.
    assert (Hpos1 : positioned st1).
    { destruct Hpos as (Hsz & Hmax & Hidx & _ & _).
      unfold positioned, st1. fields.
      replace (Z.to_nat (current_index_ st + 1)) with (S (Z.to_nat (current_index_ st)))
        by lia.
      repeat split; auto; lia. }
    assert (Hkeys1 : Forall key_terminated
                       (firstn m (skipn (S (Z.to_nat (current_index_ st1))) (db st1)))).
    { unfold st1. fields.
      replace (Z.to_nat (current_index_ st + 1)) with (S (Z.to_nat (current_index_ st)))
        by (destruct Hpos as (_ & _ & ? & _); lia).
      exact Hkeys. }
    destruct (IH st1 Hpos1 Hsh ltac:(unfold st1; fields; lia)
                ltac:(unfold st1; fields; lia) Hkeys1) as (k & v & ts & Hnm & HRm & Hts).
    unfold st1 in Hnm, HRm, Hts. fields_in Hnm. fields_in HRm. fields_in Hts.
    replace (Z.to_nat (current_index_ st + 1)) with (S (Z.to_nat (current_index_ st)))
      in * by (destruct Hpos as (_ & _ & ? & _); lia).
    exists k, v, (t1 :: ts).
    replace (Z.to_nat (current_index_ st) + S m)%nat
      with (S (Z.to_nat (current_index_ st)) + m)%nat by lia.
    split; [exact Hnm|]. split.
    + cbn [LMDBReads.read_samples].
      step_with ltac:(exact HR).
      step_with ltac:(exact HRm).
      unfold ret.
      replace (current_index_ st + Z.of_nat (S m)) with (current_index_ st + 1 + Z.of_nat m)
        by lia.
      reflexivity.
    + cbn [map]. now rewrite Hts.
Qed.

(** X15. One epoch: on a positioned loader whose shard is the entries
    [first, last), all of them with a key whose C-string read ends inside the
    mapping, reading as many samples as the shard has entries returns
    normally and brings the loader back to exactly the state it started from;
    the samples read are those of the entries of the shard, each once: the
    entries after the current one up to the end of the shard, then those from
    the start of the shard up to and including the current one. *)
Theorem epoch_visits_every_entry_once (tensor : Tensor) (first last : Z) (st : LMDBLoader) :
  positioned st ->
  shard_is st first last ->
  first <= current_index_ st < last ->
  Forall key_terminated (skipn (Z.to_nat first) (firstn (Z.to_nat last) (db st))) ->
  let i := Z.to_nat (current_index_ st) in
  exists ts : list Tensor,
    read_samples (Z.to_nat (last - first)) tensor st = (inr ts, st)
    /\ map (@inr Error Tensor) ts
       = map (sample_of tensor (db_path_ st))
             (skipn (S i) (firstn (Z.to_nat last) (db st))
              ++ firstn (S i - Z.to_nat first) (skipn (Z.to_nat first) (db st))).
Proof.
  intros Hpos Hsh Hidx Hkeys. cbv zeta.
  pose proof Hsh as (Hfirst & Hfl & Hls & Hin & Hout).
  pose proof Hpos as (Hsz & Hmax & Hir & Hcur & Hentry).
  set (idx := current_index_ st) in *.
  (* the keys of the entries behind the current one, and of those up to it *)
  assert (Hshard : skipn (Z.to_nat first) (firstn (Z.to_nat last) (db st))
                   = firstn (S (Z.to_nat idx) - Z.to_nat first) (skipn (Z.to_nat first) (db st))
                     ++ skipn (S (Z.to_nat idx)) (firstn (Z.to_nat last) (db st))).
  { rewrite <- (firstn_skipn (S (Z.to_nat idx) - Z.to_nat first)
                  (skipn (Z.to_nat first) (firstn (Z.to_nat last) (db st)))) at 1.
    f_equal.
    - rewrite skipn_firstn_comm, firstn_firstn. f_equal. lia.
    - rewrite skipn_skipn. f_equal. lia. }
  rewrite Hshard in Hkeys. apply Forall_app in Hkeys as [Hkeys_b Hkeys_a].
  (* to the last entry of the shard *)
  destruct (read_samples_inside tensor first last (Z.to_nat (last - 1 - idx)) st
              Hpos Hsh ltac:(lia) ltac:(fold idx; lia)) as (ka & va & tsa & Hna & HRa & Htsa).
  { fold idx. rewrite firstn_skipn_comm.
    replace (S (Z.to_nat idx) + Z.to_nat (last - 1 - idx))%nat with (Z.to_nat last) by lia.
    exact Hkeys_a. }
  fold idx in Hna, HRa, Htsa.
  replace (Z.to_nat idx + Z.to_nat (last - 1 - idx))%nat with (Z.to_nat (last - 1))
    in * by lia.
  replace (idx + Z.of_nat (Z.to_nat (last - 1 - idx))) with (last - 1) in * by lia.
  set (sta := mkLoader (db st) (Some (Z.to_nat (last - 1))) ka va (last - 1)
                       (lmdb_size_ st) (shard_id_ st) (num_shards_ st) (db_path_ st)) in *.
  assert (Hposa : positioned sta).
  { unfold positioned, sta. fields. repeat split; auto; lia. }
  (* the wrapping read *)
  destruct (@ReadSample_step mdb_strerror start_index IsNextShard ShouldSkipImage
              tensor sta Hposa) as (kb & vb & Hnb & _ & HRb).
  { unfold sta. fields. rewrite Hfirst. lia. }
  { unfold sta. fields. intros j Hj. apply Hout. lia. }
  unfold LMDB.next_index, sta in Hnb, HRb. fields_in Hnb. fields_in HRb.
  replace (last - 1 + 1) with last in * by lia.
  rewrite (Hout last ltac:(lia)), Hfirst in *.
  replace (S (Z.to_nat idx) - Z.to_nat first)%nat with (S (Z.to_nat (idx - first)))
    in * by lia.
  rewrite (skipn_cons_nth _ (db st) _ _ Hnb) in Hkeys_b |- *.
  cbn [firstn] in Hkeys_b |- *.
  apply Forall_cons_iff in Hkeys_b as [Hkb Hkeys_b].
  destruct (sample_of_terminated tensor (db_path_ st) (kb, vb) Hkb) as (tb & Htb).
  rewrite Htb in HRb.
  set (stb := mkLoader (db st) (Some (Z.to_nat first)) kb vb first
                       (lmdb_size_ st) (shard_id_ st) (num_shards_ st) (db_path_ st)) in *.
  assert (Hposb : positioned stb).
  { unfold positioned, stb. fields. repeat split; auto; lia. }
  (* from the start of the shard back to where the loader was *)
  destruct (read_samples_inside tensor first last (Z.to_nat (idx - first)) stb
              Hposb Hsh ltac:(unfold stb; fields; lia)
              ltac:(unfold stb; fields; lia)) as (kc & vc & tsc & Hnc & HRc & Htsc).
  { unfold stb. fields. exact Hkeys_b. }
  unfold stb in Hnc, HRc, Htsc. fields_in Hnc. fields_in HRc. fields_in Htsc.
  replace (Z.to_nat first + Z.to_nat (idx - first))%nat with (Z.to_nat idx) in * by lia.
  replace (first + Z.of_nat (Z.to_nat (idx - first))) with idx in * by lia.
  rewrite Hentry in Hnc. injection Hnc as <- <-.
  assert (Hone : read_samples 1 tensor sta = (inr [tb], stb)).
  { cbn [LMDBReads.read_samples]. step_with ltac:(exact HRb). reflexivity. }
  pose proof (read_samples_app tensor _ _ _ _ _ _ _ Hone HRc) as Hbc.
  pose proof (read_samples_app tensor _ _ _ _ _ _ _ HRa Hbc) as Hall.
  replace (Z.to_nat (last - 1 - idx) + (1 + Z.to_nat (idx - first)))%nat
    with (Z.to_nat (last - first)) in Hall by lia.
  exists (tsa ++ [tb] ++ tsc). split.
  - rewrite Hall. f_equal.
    destruct st as [entries cur k0 v0 idx0 size sid ns path]. fields_in Hcur.
    fields_in Hentry. unfold idx in *. fields. fields_in Hcur. subst cur.
    reflexivity.
  - rewrite !map_app. cbn [map]. rewrite Htsa, Htsc, Htb.
    f_equal. f_equal. rewrite firstn_skipn_comm. f_equal. f_equal. lia.
Qed.

(** X16. [ReadSample] does not look at what the seek returns.  On the last
    entry of the database, when the loader does not take the incremented index
    for the end of its shard, the seek fails silently and [ReadSample] reads
    the last entry once more; [current_index_] then equals the size of the
    database while the cursor has not moved, so the loader is positioned no
    longer. *)
Theorem ReadSample_repeats_last_entry_without_wrap (tensor : Tensor) (st : LMDBLoader) :
  positioned st ->
  current_index_ st + 1 = lmdb_size_ st ->
  IsNextShard (shard_id_ st) (num_shards_ st) (lmdb_size_ st) (lmdb_size_ st) = false ->
  ReadSample tensor st
  = (sample_of tensor (db_path_ st) (key_ st, value_ st),
     at_index st (lmdb_size_ st))
  /\ ~ positioned (at_index st (lmdb_size_ st)).
Proof.
  destruct st as [entries cur k0 v0 idx size sid ns path].
  unfold positioned, at_index. fields.
  intros (Hsize & Hmax & Hidx & Hcur & Hentry) Hlast Hshard. subst cur.
  split.
  - unfold LMDB.ReadSample.
    step_with ltac:(reflexivity). fields.
    step_with ltac:(apply seek_next_at_end; apply nth_error_None; lia).
    step_with ltac:(reflexivity). fields.
    step_with ltac:(reflexivity). fields.
    rewrite to_size_t_small by lia. rewrite Hlast.
    unfold LMDB.MoveToNextShard, Size, SizeImpl.
    step_with ltac:(unfold bind; cbn [gets lmdb_size_ shard_id_ num_shards_];
                    rewrite Hshard; reflexivity).
    apply (@ReadSample_tail ShouldSkipImage).
  - intros (_ & _ & Hbad & _). lia.
Qed.

(** A C-string read goes through bytes that are not NUL. *)
Lemma c_str_app (a b : list Byte.byte) :
  Forall (fun x => x <> Byte.x00) a ->
  c_str (a ++ b)
  = option_map (String.append (String.string_of_list_byte a)) (c_str b).
Proof.
  induction a as [|x a IH]; intros H.
  - simpl. now destruct (c_str b).
  - apply Forall_cons_iff in H as [Hx Ha].
    cbn [app c_str]. destruct (Byte.eqb x Byte.x00) eqn:E.
    + apply Byte.byte_dec_bl in E. contradiction.
    + rewrite (IH Ha). now destruct (c_str b).
Qed.

(** X20. [ReadSample] reads the key without regard to its size.  On a
    positioned loader, when the key of the entry it moves to lies inside the
    mapping and holds no NUL byte, the string read is the key followed by
    whatever bytes come behind it in the mapping, up to the first NUL: this
    longer string is what [ShouldSkipImage] is asked about and what becomes
    the source info.  When no NUL comes behind the key before the mapping
    ends, the read is out of bounds and no tensor is returned. *)
Theorem ReadSample_reads_key_past_its_size (tensor : Tensor) (st : LMDBLoader)
    (k v : MDB_val) :
  positioned st ->
  0 <= shard_first st < lmdb_size_ st ->
  (forall i, lmdb_size_ st <= i ->
             IsNextShard (shard_id_ st) (num_shards_ st) (lmdb_size_ st) i = true) ->
  nth_error (db st) (Z.to_nat (next_index start_index IsNextShard st)) = Some (k, v) ->
  readable k ->
  Forall (fun b => b <> Byte.x00) (item k) ->
  fst (ReadSample tensor st)
  = match c_str (beyond k) with
    | Some rest =>
        inr (fill_tensor tensor
               (String.append (db_path_ st)
                  (String.append " at key "%string
                     (String.append (String.string_of_list_byte (item k)) rest)))
               v)
    | None => inl OutOfBoundsRead
    end.
Proof.
  intros Hpos Hstart Hend Hn Hk Hnul.
  destruct (@ReadSample_step mdb_strerror start_index IsNextShard ShouldSkipImage
              tensor st Hpos Hstart Hend) as (k' & v' & Hn' & _ & HR).
  rewrite Hn in Hn'. injection Hn' as <- <-.
  rewrite HR. cbn [fst]. unfold LMDB.sample_of, image_key_of. cbn [fst snd].
  assert (Hmem : mv_data k = item k ++ beyond k).
  { unfold item, beyond. now rewrite firstn_skipn. }
  rewrite Hmem, (c_str_app _ _ Hnul).
  destruct (c_str (beyond k)); reflexivity.
Qed.

End Epochs.

(** *** Cached images *)

Section Cache.

Variable mdb_strerror : Z -> String.string.
Variable start_index : Z -> Z -> Z -> Z.
Variable IsNextShard : Z -> Z -> Z -> Z -> bool.

Lemma bind_rel (S A B : Type) (R : (Error + B) * S -> (Error + B) * S -> Prop)
    (m : M S A) (k1 k2 : A -> M S B) (s : S) :
  (forall e s', R (inl e, s') (inl e, s')) ->
  (forall a s', R (k1 a s') (k2 a s')) ->
  R (bind m k1 s) (bind m k2 s).
Proof. intros He Hk. unfold bind. destruct (m s) as [[e|a] s']; auto. Qed.

(** X17. The image cache only post-processes the tensor.  Compared with a
    read by a loader that caches nothing, a read with any cache predicate
    leaves the same loader (the entry is consumed all the same) and fails in
    the same cases; the tensor carries the same source info and element type,
    and it is the same tensor unless the predicate holds of the source info,
    in which case it is marked as skipped and has shape [{0}] and no bytes. *)
Theorem ReadSample_cache_only_empties_tensor (ShouldSkipImage : String.string -> bool)
    (tensor : Tensor) (st : LMDBLoader) :
  let r := ReadSample mdb_strerror start_index IsNextShard Examples.nothing_cached tensor st in
  let r' := ReadSample mdb_strerror start_index IsNextShard ShouldSkipImage tensor st in
  snd r' = snd r
  /\ match fst r, fst r' with
     | inr t, inr t' =>
         source_info (meta t') = source_info (meta t)
         /\ type t' = UInt8
         /\ skip_sample (meta t') = ShouldSkipImage (source_info (meta t))
         /\ (if ShouldSkipImage (source_info (meta t))
             then raw_data t' = [] /\ tensor_shape t' = [0]
             else t' = t)
     | inl e, inl e' => e' = e
     | _, _ => False
     end.
Proof.
  cbv zeta.
  set (R := fun r r' : (Error + Tensor) * LMDBLoader =>
              snd r' = snd r
              /\ match fst r, fst r' with
                 | inr t, inr t' =>
                     source_info (meta t') = source_info (meta t)
                     /\ type t' = UInt8
                     /\ skip_sample (meta t') = ShouldSkipImage (source_info (meta t))
                     /\ (if ShouldSkipImage (source_info (meta t))
                         then raw_data t' = [] /\ tensor_shape t' = [0]
                         else t' = t)
                 | inl e, inl e' => e' = e
                 | _, _ => False
                 end).
  change (R (ReadSample mdb_strerror start_index IsNextShard Examples.nothing_cached tensor st)
            (ReadSample mdb_strerror start_index IsNextShard ShouldSkipImage tensor st)).
  unfold LMDB.ReadSample.
  repeat (apply (bind_rel _ _ _ R);
          [intros ? ?; unfold R; cbn [fst snd]; split; reflexivity
          | intros; cbv beta]).
  unfold ret, R. cbn [fst snd]. split; [reflexivity|].
  unfold LMDB.fill_tensor. cbv zeta.
  cbn [memcpy Resize SetMeta set_type Tensor_Reset meta source_info skip_sample type
       raw_data tensor_shape].
  destruct (ShouldSkipImage _) eqn:E;
    cbn [memcpy Resize SetMeta set_type Tensor_Reset meta source_info skip_sample type
         raw_data tensor_shape];
    repeat split; reflexivity.
Qed.

End Cache.

End LMDBEpochs.

(** ** The LMDB handles from [PrepareMetadataImpl] to the destructor *)

Module LMDBSessionFacts.

Import LMDB LMDBSession LMDBFacts.

(** Evaluates one step of a session program on an explicit session, by
    value; what runs on the loader stays folded. *)
Ltac run_session :=
  cbv beta iota zeta delta
    [destructor LMDBSession.LMDB_size PrintLMDBStats open api
     api_void set_env set_transaction set_cursor lift fresh_session opened
     LMDB.CHECK_LMDB DALI_ENFORCE bind ret throw gets modify fst snd
     loader mdb_env_ mdb_transaction_ has_cursor calls statuses
     db mdb_cursor_ key_ value_ current_index_ lmdb_size_ shard_id_ num_shards_ db_path_
     MDB_SUCCESS app].

Lemma bind_fails (S A B : Type) (m : M S A) (k : A -> M S B) (s s' : S) (e : Error) :
  m s = (inl e, s') -> bind m k s = (inl e, s').
Proof. intros H. unfold bind. now rewrite H. Qed.

(** The next call succeeds ([E] says so): the program continues. *)
Ltac call_succeeds E :=
  erewrite bind_ok; [| run_session; unfold MDB_SUCCESS in E; rewrite ?E; run_session;
                       reflexivity].

(** The next call fails ([E] says so) and is repeated ([E'] is about the
    status of the repetition): the program ends there. *)
Ltac call_fails E E' :=
  erewrite bind_fails; [| run_session; unfold MDB_SUCCESS in E, E'; rewrite ?E;
                          run_session; rewrite ?E'; run_session; reflexivity].

Ltac replay_log :=
  run_session;
  cbn [replay nothing_live live_env live_txn live_dbi live_cursor negb andb];
  unfold MDB_SUCCESS in *;
  repeat match goal with
         | H : (_ =? 0) = _ |- _ => rewrite !H
         end;
  cbn [replay nothing_live live_env live_txn live_dbi live_cursor negb andb].

Section Lifecycle.

Variable mdb_strerror : Z -> String.string.
Variable start_index : Z -> Z -> Z -> Z.
Variable IsNextShard : Z -> Z -> Z -> Z -> bool.
Variable ShouldSkipImage : String.string -> bool.

Local Abbreviation PrepareMetadataImpl := (PrepareMetadataImpl mdb_strerror start_index).
Local Abbreviation Reset := (Reset mdb_strerror start_index).
Local Abbreviation ReadSample :=
  (ReadSample mdb_strerror start_index IsNextShard ShouldSkipImage).
Local Abbreviation sample_of := (sample_of ShouldSkipImage).

(** When the seven library calls succeed, [PrepareMetadataImpl] ends with the
    reset to the shard, on the loader with its fresh cursor and the recorded
    size. *)
Lemma PrepareMetadataImpl_succeeds (st : LMDBLoader) (coming : list Z) :
  succeed 7 coming = true ->
  PrepareMetadataImpl (fresh_session st coming)
  = (fst (Reset true (opened st)),
     mkSession (snd (Reset true (opened st))) true true true
       [(mdb_env_create, 0);
        (mdb_env_open (db_path_ st) (Z.lor (Z.lor MDB_RDONLY MDB_NOTLS) MDB_NOLOCK) 436, 0);
        (mdb_txn_begin MDB_RDONLY, 0);
        (mdb_dbi_open, 0);
        (mdb_cursor_open, 0);
        (mdb_stat, 0);
        (mdb_stat, 0);
        (printf_entries (to_int (Z.of_nat (length (db st)))), 0)]
       (tl (tl (tl (tl (tl (tl (tl coming)))))))).
Proof.
  intros H. cbn [succeed] in H.
  apply andb_prop in H as [E1 H]. apply andb_prop in H as [E2 H].
  apply andb_prop in H as [E3 H]. apply andb_prop in H as [E4 H].
  apply andb_prop in H as [E5 H]. apply andb_prop in H as [E6 H].
  apply andb_prop in H as [E7 _].
  pose proof E1 as V1. pose proof E2 as V2. pose proof E3 as V3. pose proof E4 as V4.
  pose proof E5 as V5. pose proof E6 as V6. pose proof E7 as V7.
  apply Z.eqb_eq in V1, V2, V3, V4, V5, V6, V7. unfold MDB_SUCCESS in V1, V2, V3, V4, V5, V6, V7.
  destruct st as [entries cur k0 v0 idx size sid ns path].
  unfold LMDBSession.PrepareMetadataImpl, fresh_session.
  erewrite bind_ok by (run_session; reflexivity).
  call_succeeds E1. call_succeeds E2. call_succeeds E3. call_succeeds E4.
  call_succeeds E5. call_succeeds E6.
  erewrite bind_ok by (run_session; reflexivity).
  call_succeeds E7.
  run_session. rewrite V1, V2, V3, V4, V5, V6, V7. reflexivity.
Qed.

(** X18. Whatever statuses the library returns to [PrepareMetadataImpl], at
    whichever call it gives up and whatever the repetition of that call
    returns, running the destructor afterwards replays cleanly against the
    rules of the library: it releases only handles that are alive, each once,
    closes the cursor and ends the transaction before it closes the
    environment, leaves nothing alive, and leaves [mdb_env_] null.  The
    database handle is closed by the destructor exactly when the cursor had
    been opened; otherwise it goes with the environment. *)
Theorem destructor_releases_what_was_opened (st : LMDBLoader) (coming : list Z) :
  let s1 := snd (PrepareMetadataImpl (fresh_session st coming)) in
  let s2 := snd (destructor s1) in
  fst (destructor s1) = inr tt
  /\ replay nothing_live (calls s2) = Some nothing_live
  /\ mdb_env_ s2 = false
  /\ existsb closes_dbi (calls s2) = has_cursor s1.
Proof.
  destruct st as [entries cur k0 v0 idx size sid ns path].
  cbv zeta. unfold LMDBSession.PrepareMetadataImpl, fresh_session.
  erewrite bind_ok by (run_session; reflexivity).
  destruct (hd MDB_SUCCESS coming =? MDB_SUCCESS) eqn:E1;
    [call_succeeds E1
    | destruct (hd MDB_SUCCESS (tl coming) =? MDB_SUCCESS) eqn:E1';
      call_fails E1 E1'; replay_log; auto].
  destruct (hd MDB_SUCCESS (tl coming) =? MDB_SUCCESS) eqn:E2;
    [call_succeeds E2
    | destruct (hd MDB_SUCCESS (tl (tl coming)) =? MDB_SUCCESS) eqn:E2';
      call_fails E2 E2'; replay_log; auto].
  destruct (hd MDB_SUCCESS (tl (tl coming)) =? MDB_SUCCESS) eqn:E3;
    [call_succeeds E3
    | destruct (hd MDB_SUCCESS (tl (tl (tl coming))) =? MDB_SUCCESS) eqn:E3';
      call_fails E3 E3'; replay_log; auto].
  destruct (hd MDB_SUCCESS (tl (tl (tl coming))) =? MDB_SUCCESS) eqn:E4;
    [call_succeeds E4
    | destruct (hd MDB_SUCCESS (tl (tl (tl (tl coming)))) =? MDB_SUCCESS) eqn:E4';
      call_fails E4 E4'; replay_log; auto].
  destruct (hd MDB_SUCCESS (tl (tl (tl (tl coming)))) =? MDB_SUCCESS) eqn:E5;
    [call_succeeds E5
    | destruct (hd MDB_SUCCESS (tl (tl (tl (tl (tl coming))))) =? MDB_SUCCESS) eqn:E5';
      call_fails E5 E5'; replay_log; auto].
  destruct (hd MDB_SUCCESS (tl (tl (tl (tl (tl coming))))) =? MDB_SUCCESS) eqn:E6;
    [call_succeeds E6
    | destruct (hd MDB_SUCCESS (tl (tl (tl (tl (tl (tl coming)))))) =? MDB_SUCCESS) eqn:E6';
      call_fails E6 E6'; replay_log; auto].
  erewrite bind_ok by (run_session; reflexivity).
  destruct (hd MDB_SUCCESS (tl (tl (tl (tl (tl (tl coming)))))) =? MDB_SUCCESS) eqn:E7;
    [call_succeeds E7
    | destruct (hd MDB_SUCCESS (tl (tl (tl (tl (tl (tl (tl coming))))))) =? MDB_SUCCESS)
        eqn:E7';
      call_fails E7 E7'; replay_log; auto].
  replay_log. auto.
Qed.

(** The statuses before call number [i] say success. *)
Ltac earlier_calls_succeeded :=
  let j := fresh "j" in
  let Hj := fresh "Hj" in
  intros j Hj;
  do 7 (destruct j as [|j]; [first [lia | apply Z.eqb_eq; assumption]|]);
  lia.

(** A branch in which call number [i], the call [c], has failed. *)
Ltac failed_call i c :=
  split;
  [ discriminate
  | intros _; exists i, c; run_session;
    split; [lia|];
    split; [unfold status_of; cbn [Nat.iter]; earlier_calls_succeeded|];
    split; [unfold status_of; cbn [Nat.iter]; apply Z.eqb_neq; assumption|];
    repeat split ].

(** X19. [PrepareMetadataImpl] with its handles.  When the seven library
    calls it makes all succeed, it holds an environment, a transaction and a
    cursor, has printed the number of entries once (as an [int]), and returns
    what the reset to the shard returns on the loader with its fresh cursor
    and the recorded size.  Otherwise the first call that fails is made a
    second time, because [CHECK_LMDB] pastes it into the message, and the
    error thrown carries the library's message for the status of that second
    call, and the database path; no entry has been read (key, value and
    current index are as before) and nothing has been printed. *)
Theorem PrepareMetadataImpl_opens_then_positions (st : LMDBLoader) (coming : list Z) :
  let r := PrepareMetadataImpl (fresh_session st coming) in
  (succeed 7 coming = true ->
     fst r = fst (Reset true (opened st))
     /\ loader (snd r) = snd (Reset true (opened st))
     /\ mdb_env_ (snd r) = true
     /\ mdb_transaction_ (snd r) = true
     /\ has_cursor (snd r) = true
     /\ filter is_printf (calls (snd r))
        = [(printf_entries (to_int (Z.of_nat (length (db st)))), 0)])
  /\ (succeed 7 coming = false ->
        exists (i : nat) (c : ApiCall),
          (i < 7)%nat
          /\ (forall j, (j < i)%nat -> status_of coming j = MDB_SUCCESS)
          /\ status_of coming i <> MDB_SUCCESS
          /\ fst r
             = inl (EnforceFailed
                      (String.append "LMDB Error: "%string
                         (String.append (mdb_strerror (status_of coming (S i)))
                            (String.append ", with file: "%string (db_path_ st)))))
          /\ map fst (skipn i (calls (snd r))) = [c; c]
          /\ key_ (loader (snd r)) = key_ st
          /\ value_ (loader (snd r)) = value_ st
          /\ current_index_ (loader (snd r)) = current_index_ st
          /\ filter is_printf (calls (snd r)) = []).
Proof.
  cbv zeta. destruct (succeed 7 coming) eqn:Hall.
  { split; [intros _ | discriminate].
    rewrite (PrepareMetadataImpl_succeeds st coming Hall). cbn [fst snd].
    cbn [loader mdb_env_ mdb_transaction_ has_cursor calls]. repeat split. }
  destruct st as [entries cur k0 v0 idx size sid ns path].
  unfold LMDBSession.PrepareMetadataImpl, fresh_session.
  erewrite bind_ok by (run_session; reflexivity).
  destruct (hd MDB_SUCCESS coming =? MDB_SUCCESS) eqn:E1;
    [call_succeeds E1
    | destruct (hd MDB_SUCCESS (tl coming) =? MDB_SUCCESS) eqn:E1';
      call_fails E1 E1'; failed_call 0%nat mdb_env_create].
  destruct (hd MDB_SUCCESS (tl coming) =? MDB_SUCCESS) eqn:E2;
    [call_succeeds E2
    | destruct (hd MDB_SUCCESS (tl (tl coming)) =? MDB_SUCCESS) eqn:E2';
      call_fails E2 E2';
      failed_call 1%nat
        (mdb_env_open path (Z.lor (Z.lor MDB_RDONLY MDB_NOTLS) MDB_NOLOCK) 436)].
  destruct (hd MDB_SUCCESS (tl (tl coming)) =? MDB_SUCCESS) eqn:E3;
    [call_succeeds E3
    | destruct (hd MDB_SUCCESS (tl (tl (tl coming))) =? MDB_SUCCESS) eqn:E3';
      call_fails E3 E3'; failed_call 2%nat (mdb_txn_begin MDB_RDONLY)].
  destruct (hd MDB_SUCCESS (tl (tl (tl coming))) =? MDB_SUCCESS) eqn:E4;
    [call_succeeds E4
    | destruct (hd MDB_SUCCESS (tl (tl (tl (tl coming)))) =? MDB_SUCCESS) eqn:E4';
      call_fails E4 E4'; failed_call 3%nat mdb_dbi_open].
  destruct (hd MDB_SUCCESS (tl (tl (tl (tl coming)))) =? MDB_SUCCESS) eqn:E5;
    [call_succeeds E5
    | destruct (hd MDB_SUCCESS (tl (tl (tl (tl (tl coming))))) =? MDB_SUCCESS) eqn:E5';
      call_fails E5 E5'; failed_call 4%nat mdb_cursor_open].
  destruct (hd MDB_SUCCESS (tl (tl (tl (tl (tl coming))))) =? MDB_SUCCESS) eqn:E6;
    [call_succeeds E6
    | destruct (hd MDB_SUCCESS (tl (tl (tl (tl (tl (tl coming)))))) =? MDB_SUCCESS) eqn:E6';
      call_fails E6 E6'; failed_call 5%nat mdb_stat].
  erewrite bind_ok by (run_session; reflexivity).
  destruct (hd MDB_SUCCESS (tl (tl (tl (tl (tl (tl coming)))))) =? MDB_SUCCESS) eqn:E7;
    [call_succeeds E7
    | destruct (hd MDB_SUCCESS (tl (tl (tl (tl (tl (tl (tl coming))))))) =? MDB_SUCCESS)
        eqn:E7';
      call_fails E7 E7'; failed_call 6%nat mdb_stat].
  cbn [succeed] in Hall. rewrite E1, E2, E3, E4, E5, E6, E7 in Hall. discriminate Hall.
Qed.

(** X14. The first sample read after [PrepareMetadataImpl] is not the first
    entry of the shard but the one after it: [PrepareMetadataImpl] leaves the
    cursor on entry [start], and [ReadSample] moves to the next entry before
    it reads.  (The library calls succeed and the shard has at least two
    entries.) *)
Theorem first_read_skips_first_entry (tensor : Tensor) (st : LMDBLoader)
    (coming : list Z) :
  let size := Z.of_nat (length (db st)) in
  let start := start_index (shard_id_ st) (num_shards_ st) size in
  succeed 7 coming = true ->
  size < 2 ^ 63 ->
  0 <= start -> start + 1 < size ->
  IsNextShard (shard_id_ st) (num_shards_ st) size (start + 1) = false ->
  (forall i, size <= i -> IsNextShard (shard_id_ st) (num_shards_ st) size i = true) ->
  exists (s1 : Session) (st2 : LMDBLoader) (e0 e1 : MDB_val * MDB_val),
    PrepareMetadataImpl (fresh_session st coming) = (inr tt, s1)
    /\ nth_error (db st) (Z.to_nat start) = Some e0
    /\ key_ (loader s1) = fst e0 /\ value_ (loader s1) = snd e0
    /\ current_index_ (loader s1) = start
    /\ nth_error (db st) (S (Z.to_nat start)) = Some e1
    /\ ReadSample tensor (loader s1) = (sample_of tensor (db_path_ st) e1, st2)
    /\ key_ st2 = fst e1 /\ value_ st2 = snd e1
    /\ current_index_ st2 = start + 1.
Proof.
  cbv zeta. intros Hall Hmax Hs0 Hs1 Hin Hend.
  rewrite (PrepareMetadataImpl_succeeds st coming Hall).
  destruct (@Reset_wraps_to_shard mdb_strerror start_index (opened st)
              eq_refl Hmax ltac:(unfold opened; fields; lia)) as (k0 & v0 & Hn0 & HR).
  unfold opened in Hn0, HR. fields_in Hn0. fields_in HR.
  fold (opened st) in HR. rewrite HR. cbn [fst snd].
  set (start := start_index (shard_id_ st) (num_shards_ st) (Z.of_nat (length (db st))))
    in *.
  set (st1 := mkLoader (db st) (Some (Z.to_nat start)) k0 v0 start
                       (Z.of_nat (length (db st))) (shard_id_ st) (num_shards_ st)
                       (db_path_ st)) in *.
  assert (Hpos : positioned st1).
  { unfold positioned, st1. fields. repeat split; auto; lia. }
  destruct (@ReadSample_step mdb_strerror start_index IsNextShard ShouldSkipImage
              tensor st1 Hpos) as (k1 & v1 & Hn1 & _ & HR1).
  { unfold st1. fields. fold start. lia. }
  { unfold st1. fields. exact Hend. }
  unfold LMDB.next_index, st1 in Hn1, HR1. fields_in Hn1. fields_in HR1.
  rewrite Hin in Hn1, HR1.
  replace (Z.to_nat (start + 1)) with (S (Z.to_nat start)) in Hn1, HR1 by lia.
  eexists. eexists. exists (k0, v0), (k1, v1).
  split; [reflexivity|]. cbn [loader fst snd]. unfold st1. fields.
  split; [exact Hn0|]. repeat (split; [reflexivity|]).
  split; [exact Hn1|]. split; [exact HR1|]. fields. auto.
Qed.

End Lifecycle.

End LMDBSessionFacts.

(** ** The further properties on sample configurations *)

Module MoreInstances.

Import Examples MoreExamples.

(** Two tensors fed for a batch size of three: the step throws. *)
Lemma RunImpl_rejects_wrong_batch_size_witness :
  ExternalSource.batch_size_ source_short
    <> to_int (Z.of_nat (length (ExternalSource.fed source_short)))
  /\ ExternalSource.RunImpl workspace0 source_short
     = (inl (EnforceFailed ExternalSource.batch_size_message), source_short).
Proof.
  assert (H : ExternalSource.batch_size_ source_short
              <> to_int (Z.of_nat (length (ExternalSource.fed source_short)))).
  { vm_compute. discriminate. }
  split; [exact H|].
  exact (ExternalSourceBatches.RunImpl_rejects_wrong_batch_size workspace0 source_short H).
Defined.

(** Three samples with a batch size of two: one signal, counter at one. *)
Lemma consume_counts_batches_witness :
  ExternalSource.counter_in_range source_fresh
  /\ ExternalSource.consume three_samples source_fresh = (inr tt, source_after_three)
  /\ ExternalSource.samples_processed_ source_after_three = 1
  /\ ExternalSource.notifications (ExternalSource.appended source_fresh source_after_three)
     = 1%nat.
Proof.
  assert (Hr : ExternalSource.counter_in_range source_fresh).
  { unfold ExternalSource.counter_in_range, MachInt.INT_MAX. simpl. lia. }
  assert (Hc : ExternalSource.consume three_samples source_fresh
               = (inr tt, source_after_three)).
  { vm_compute. reflexivity. }
  split; [exact Hr|]. split; [exact Hc|].
  pose proof (ExternalSourceBatches.consume_counts_batches three_samples source_fresh
                source_after_three Hr Hc) as (H1 & H2 & _).
  split; [exact H1 | exact H2].
Defined.

(** The second sample of the fed vector arrives in output 0. *)
Lemma RunImpl_outputs_fed_sample_witness :
  ExternalSource.RunImpl workspace1 source_mid
    = (inr (ExternalSource.mkWorkspace 1 false 0 [3; 4]), source_done)
  /\ nth_error (ExternalSource.t_data_ source_mid) 1 = Some [3; 4].
Proof.
  assert (Hstep : ExternalSource.RunImpl workspace1 source_mid
                  = (inr (ExternalSource.mkWorkspace 1 false 0 [3; 4]), source_done)).
  { vm_compute. reflexivity. }
  split; [exact Hstep|].
  exact (proj1 (ExternalSourceBatches.RunImpl_outputs_fed_sample workspace1
                  (ExternalSource.mkWorkspace 1 false 0 [3; 4])
                  source_mid source_done Hstep)).
Defined.

(** A device with error 700 pending: the run reports it and launches
    nothing. *)
Lemma Run_reports_device_errors_witness :
  shapes out_mixed = requested_size (shapes in_mixed) sizes_mixed
  /\ Warp.counts_agree out_mixed in_mixed modes after_setup_mixed_faulty
  /\ fst (Warp.Run requested_size ctx out_mixed in_mixed mapping sizes_mixed modes 0
            after_setup_mixed_faulty)
     = inl (DeviceOperationFailure 700).
Proof.
  assert (Hc : Warp.counts_agree out_mixed in_mixed modes after_setup_mixed_faulty).
  { unfold Warp.counts_agree. simpl. auto. }
  split; [reflexivity|]. split; [exact Hc|].
  exact (proj1 (WarpRuns.Run_reports_device_errors Z requested_size ctx out_mixed in_mixed
                  mapping sizes_mixed modes 0 after_setup_mixed_faulty eq_refl Hc)).
Defined.

(** The mixed batch, run twice on an idle device. *)
Lemma Setup_then_Run_twice_witness :
  Warp.Setup requested_size 3 3 false ctx in_mixed mapping sizes_mixed modes 0 fresh
    = (inr req_mixed, after_setup_mixed)
  /\ exists w1 w2,
       Warp.Run requested_size ctx out_mixed in_mixed mapping sizes_mixed modes 0
         after_setup_mixed = (inr tt, w1)
       /\ Warp.Run requested_size ctx out_mixed in_mixed mapping sizes_mixed modes 0 w1
          = (inr tt, w2)
       /\ Warp.launches (Warp.added after_setup_mixed w2) = 2%nat.
Proof.
  split; [reflexivity|].
  destruct (WarpRuns.Setup_then_Run_twice Z requested_size 3 3 false ctx ctx out_mixed in_mixed
              mapping mapping sizes_mixed modes modes 0 0 fresh after_setup_mixed req_mixed
              eq_refl eq_refl eq_refl eq_refl eq_refl)
    as (w1 & w2 & H1 & H2 & _ & H3 & _).
  exists w1, w2. auto.
Defined.

(** An empty database: both resets fail at the first seek. *)
Lemma Reset_fails_on_empty_database_witness :
  LMDB.db loader_empty = []
  /\ fst (LMDB.Reset strerror_text shard_start true loader_empty)
     = inl (EnforceFailed "lmdb::SeekLMDB to the beginning failed"%string).
Proof.
  split; [reflexivity|].
  rewrite (LMDBEpochs.Reset_fails_on_empty_database strerror_text shard_start true
             loader_empty eq_refl).
  reflexivity.
Defined.

(** A start index of 3 on three entries: the forward loop runs out on the
    last entry, and the message names position 3. *)
Lemma Reset_fails_beyond_the_database_witness :
  LMDB.db loader_beyond <> []
  /\ Z.of_nat (length (LMDB.db loader_beyond))
     <= to_size_t (shard_start (LMDB.shard_id_ loader_beyond)
                               (LMDB.num_shards_ loader_beyond)
                               (LMDB.lmdb_size_ loader_beyond))
  /\ exists st',
       LMDB.Reset strerror_text shard_start true loader_beyond
         = (inl (EnforceFailed "lmdb::SeekLMDB to position 3 failed"%string), st')
       /\ LMDB.mdb_cursor_ st' = Some 2%nat.
Proof.
  assert (H1 : LMDB.db loader_beyond <> []) by discriminate.
  assert (H2 : Z.of_nat (length (LMDB.db loader_beyond))
               <= to_size_t (shard_start (LMDB.shard_id_ loader_beyond)
                                         (LMDB.num_shards_ loader_beyond)
                                         (LMDB.lmdb_size_ loader_beyond))).
  { vm_compute. discriminate. }
  split; [exact H1|]. split; [exact H2|].
  destruct (LMDBEpochs.Reset_fails_beyond_the_database strerror_text shard_start
              loader_beyond H1 H2) as (st' & HR & Hc & _).
  exists st'. split; [exact HR | exact Hc].
Defined.

(** The second of three shards starts at entry 1, but [Reset(false)] leaves
    the cursor on entry 0. *)
Lemma Reset_without_wrap_rewinds_to_first_entry_witness :
  nth_error (LMDB.db loader_second_shard) 0 = Some (entry_a zeros)
  /\ LMDB.mdb_cursor_ (snd (LMDB.Reset strerror_text shard_start false loader_second_shard))
     = Some 0%nat
  /\ LMDB.current_index_
       (snd (LMDB.Reset strerror_text shard_start false loader_second_shard)) = 1.
Proof.
  split; [reflexivity|].
  rewrite (proj1 (LMDBEpochs.Reset_without_wrap_rewinds_to_first_entry strerror_text
                    shard_start loader_second_shard (fst (entry_a zeros))
                    (snd (entry_a zeros)) eq_refl)).
  split; reflexivity.
Defined.

(** Three entries, one shard, all library calls successful: the first sample
    read is the second entry, whose value is [04 05]. *)
Lemma first_read_skips_first_entry_witness :
  LMDBSession.succeed 7 [] = true
  /\ exists s1 t st2,
       LMDBSession.PrepareMetadataImpl strerror_text shard_start
         (LMDBSession.fresh_session loader_unprepared []) = (inr tt, s1)
       /\ LMDB.key_ (LMDBSession.loader s1) = fst (entry_a zeros)
       /\ LMDB.ReadSample strerror_text shard_start past_shard_end nothing_cached blank
            (LMDBSession.loader s1) = (inr t, st2)
       /\ LMDB.raw_data t = [Byte.x04; Byte.x05]
       /\ LMDB.current_index_ st2 = 1.
Proof.
  split; [reflexivity|].
  assert (Hend : forall i, Z.of_nat (length (LMDB.db loader_unprepared)) <= i ->
                   past_shard_end (LMDB.shard_id_ loader_unprepared)
                     (LMDB.num_shards_ loader_unprepared)
                     (Z.of_nat (length (LMDB.db loader_unprepared))) i = true).
  { intros i Hi. unfold past_shard_end, shard_start. simpl in *. apply Z.leb_le. exact Hi. }
  destruct (LMDBSessionFacts.first_read_skips_first_entry strerror_text shard_start
              past_shard_end nothing_cached blank loader_unprepared []
              eq_refl eq_refl ltac:(vm_compute; discriminate) eq_refl eq_refl Hend)
    as (s1 & st2 & e0 & e1 & HP & H0 & Hk0 & _ & _ & H1 & HR & _ & _ & Hidx).
  change (nth_error entries 0 = Some e0) in H0. injection H0 as <-.
  change (nth_error entries 1 = Some e1) in H1. injection H1 as <-.
  exists s1. eexists. exists st2.
  split; [exact HP|]. split; [exact Hk0|].
  split; [rewrite HR; vm_compute; reflexivity|].
  split; [reflexivity | exact Hidx].
Defined.

(** One shard of three entries, from the first entry: three reads visit
    entries 1, 2, 0 and come back to the start. *)
Lemma epoch_visits_every_entry_once_witness :
  LMDB.positioned loader_first
  /\ LMDBReads.shard_is shard_start past_shard_end loader_first 0 3
  /\ Forall LMDBReads.key_terminated entries
  /\ exists ts,
       LMDBReads.read_samples strerror_text shard_start past_shard_end nothing_cached 3
         blank loader_first = (inr ts, loader_first)
       /\ map LMDB.raw_data ts
          = [[Byte.x04; Byte.x05]; [Byte.x06]; [Byte.x01; Byte.x02; Byte.x03]].
Proof.
  assert (Hp : LMDB.positioned loader_first).
  { unfold LMDB.positioned. simpl. repeat split; try reflexivity; lia. }
  assert (Hs : LMDBReads.shard_is shard_start past_shard_end loader_first 0 3).
  { unfold LMDBReads.shard_is.
    change (LMDB.shard_id_ loader_first) with 0.
    change (LMDB.num_shards_ loader_first) with 1.
    change (LMDB.lmdb_size_ loader_first) with 3.
    split; [reflexivity|]. split; [lia|]. split; [lia|].
    split; intros i Hi; unfold past_shard_end;
      change (shard_start (0 + 1) 1 3) with 3;
      [apply Z.leb_gt | apply Z.leb_le]; lia. }
  assert (Hk : Forall LMDBReads.key_terminated entries).
  { repeat constructor; unfold LMDBReads.key_terminated; vm_compute; discriminate. }
  split; [exact Hp|]. split; [exact Hs|]. split; [exact Hk|].
  destruct (LMDBEpochs.epoch_visits_every_entry_once strerror_text shard_start
              past_shard_end nothing_cached blank 0 3 loader_first Hp Hs
              ltac:(simpl; lia) Hk) as (ts & HR & Hts).
  exists ts. split; [exact HR|].
  destruct ts as [|t1 [|t2 [|t3 [|t4 ts]]]]; try discriminate Hts.
  vm_compute in Hts. injection Hts as -> -> ->. reflexivity.
Defined.

(** On the last of three entries, with a framework that never wraps, the last
    entry is read again. *)
Lemma ReadSample_repeats_last_entry_without_wrap_witness :
  LMDB.positioned loader_last
  /\ exists t,
       fst (LMDB.ReadSample strerror_text shard_start never_past_end nothing_cached blank
              loader_last) = inr t
       /\ LMDB.raw_data t = [Byte.x06].
Proof.
  assert (Hp : LMDB.positioned loader_last).
  { unfold LMDB.positioned. simpl. repeat split; try reflexivity; lia. }
  split; [exact Hp|].
  rewrite (proj1 (LMDBEpochs.ReadSample_repeats_last_entry_without_wrap strerror_text
                    shard_start never_past_end nothing_cached blank loader_last Hp
                    eq_refl eq_refl)).
  eexists. split; [vm_compute; reflexivity | reflexivity].
Defined.

(** From the first entry the loader moves to [b -> 04 05]: the source info
    is the key followed by the two bytes of the value.  From the last entry of
    the database whose mapping ends with the page the loader wraps to
    [a -> 01 02 03], behind which no NUL is mapped. *)
Lemma ReadSample_reads_key_past_its_size_witness :
  LMDB.positioned loader_first
  /\ (exists t,
        fst (LMDB.ReadSample strerror_text shard_start past_shard_end nothing_cached blank
               loader_first) = inr t
        /\ LMDB.source_info (LMDB.meta t)
           = String.append "db at key b"%string
               (String.string_of_list_byte [Byte.x04; Byte.x05]))
  /\ fst (LMDB.ReadSample strerror_text shard_start past_shard_end nothing_cached blank
            loader_last_at_end) = inl OutOfBoundsRead.
Proof.
  assert (Hp : LMDB.positioned loader_first).
  { unfold LMDB.positioned. simpl. repeat split; try reflexivity; lia. }
  assert (Hq : LMDB.positioned loader_last_at_end).
  { unfold LMDB.positioned. simpl. repeat split; try reflexivity; lia. }
  assert (He : forall i, 3 <= i -> past_shard_end 0 1 3 i = true).
  { intros i Hi. unfold past_shard_end, shard_start. simpl. apply Z.leb_le. exact Hi. }
  split; [exact Hp|]. split.
  - rewrite (LMDBEpochs.ReadSample_reads_key_past_its_size strerror_text shard_start
               past_shard_end nothing_cached blank loader_first
               (fst (entry_b zeros)) (snd (entry_b zeros)) Hp
               ltac:(vm_compute; split; [discriminate | reflexivity]) He eq_refl
               ltac:(vm_compute; split; discriminate)
               ltac:(repeat constructor; discriminate)).
    eexists. split; [vm_compute; reflexivity | reflexivity].
  - rewrite (LMDBEpochs.ReadSample_reads_key_past_its_size strerror_text shard_start
               past_shard_end nothing_cached blank loader_last_at_end
               (fst (entry_a [])) (snd (entry_a [])) Hq
               ltac:(vm_compute; split; [discriminate | reflexivity]) He eq_refl
               ltac:(vm_compute; split; discriminate)
               ltac:(repeat constructor; discriminate)).
    reflexivity.
Defined.

(** The fifth library call fails with status 5 and its repetition is not
    found: the error carries the message of the repetition's status, and the
    log ends with the call made twice. *)
Lemma PrepareMetadataImpl_opens_then_positions_witness :
  LMDBSession.succeed 7 [0; 0; 0; 0; 5; -30798] = false
  /\ fst (LMDBSession.PrepareMetadataImpl strerror_text shard_start
            (LMDBSession.fresh_session loader_unprepared [0; 0; 0; 0; 5; -30798]))
     = inl (EnforceFailed
              "LMDB Error: MDB_NOTFOUND: No matching key/data pair found, with file: db"%string).
Proof.
  split; [reflexivity|].
  destruct (proj2 (LMDBSessionFacts.PrepareMetadataImpl_opens_then_positions
                     strerror_text shard_start loader_unprepared
                     [0; 0; 0; 0; 5; -30798]) eq_refl)
    as (i & c & Hi & Hbefore & Hfail & Herr & _).
  assert (Ei : i = 4%nat).
  { destruct i as [|[|[|[|[|i]]]]].
    - exfalso. apply Hfail. reflexivity.
    - exfalso. apply Hfail. reflexivity.
    - exfalso. apply Hfail. reflexivity.
    - exfalso. apply Hfail. reflexivity.
    - reflexivity.
    - exfalso. specialize (Hbefore 4%nat ltac:(lia)). discriminate Hbefore. }
  subst i. rewrite Herr. reflexivity.
Defined.

End MoreInstances.
